(** * A catalog's persistence and validation layer

    Shallow embedding of the product schemas (lib/productSchemas), the
    file-backed product store (lib/productStore) and the two user stores
    (lib/userStore, in-memory and file-backed) of the shop application,
    followed by the properties proved about them.

    Conventions of the embedding.
    - A JS string is a [string]: the sequence of its code units, which
      are below 256 here (the characters of Latin-1).
    - A JS number that came out of JSON text is a [number]: a finite
      double, taken by its exact rational value, or one of the two
      infinities, which [JSON.parse] gives for a literal beyond the range
      of the doubles (as 1e400). The code only compares numbers, takes
      minima and tests integrality, all of which are exact on the finite
      doubles. [JSON.parse] gives no NaN.
    - [JSON.stringify] writes an infinity as null. What is read back from
      a file is cast to its type, not checked, so that a field declared
      [number] can hold null at run time: such a field is an
      [orNull number].
    - [undefined] (an absent key) is [None]; [null] is a value of its own.
    - The file system, the clock and the random generators are explicit:
      a store operation takes the world before and returns the world
      after. *)

From Stdlib Require Import Ascii String DecimalString DecimalNat QArith Qminmax.
From stdpp Require Import base option list sets strings gmap.

#[local] Set Warnings "-register-all".
Local Open Scope string_scope.
Local Open Scope list_scope.

(** ** Numbers *)

Inductive number : Type :=
  | Finite (q : Q)
  | Infinity
  | NegInfinity.

Coercion Finite : Q >-> number.
Bind Scope Q_scope with number.

Module Number.

(** [a < b] and [a <= b] as JS computes them. *)
Definition ltb (a b : number) : bool :=
  match a, b with
  | Finite x, Finite y => negb (Qle_bool y x)
  | Finite _, Infinity => true
  | Finite _, NegInfinity => false
  | Infinity, _ => false
  | NegInfinity, NegInfinity => false
  | NegInfinity, _ => true
  end.

Definition leb (a b : number) : bool := negb (ltb b a).

Definition lt (a b : number) : Prop :=
  match a, b with
  | Finite x, Finite y => (x < y)%Q
  | Finite _, Infinity => True
  | Finite _, NegInfinity => False
  | Infinity, _ => False
  | NegInfinity, NegInfinity => False
  | NegInfinity, _ => True
  end.

Definition le (a b : number) : Prop :=
  match a, b with
  | Finite x, Finite y => (x <= y)%Q
  | _, Infinity => True
  | NegInfinity, _ => True
  | Infinity, _ => False
  | Finite _, NegInfinity => False
  end.

(** [Math.min(a, b)] *)
Definition min (a b : number) : number := if leb a b then a else b.

(** [Number.isInteger] *)
Definition isInteger (n : number) : bool :=
  match n with
  | Finite q => (Z.rem (Qnum q) (Z.pos (Qden q)) =? 0)%Z
  | Infinity | NegInfinity => false
  end.

Definition isFinite (n : number) : bool :=
  match n with
  | Finite _ => true
  | Infinity | NegInfinity => false
  end.

End Number.

(** ** JSON values, as [JSON.parse] returns them *)

Inductive json : Type :=
  | JNull
  | JBool (b : bool)
  | JNum (n : number)
  | JStr (s : string)
  | JArr (l : list json)
  | JObj (kv : list (string * json)).

(** [o[k]] on a parsed object: the value of the key, [None] for undefined. *)
Fixpoint prop (k : string) (kv : list (string * json)) : option json :=
  match kv with
  | [] => None
  | (k', v) :: kv' => if String.eqb k k' then Some v else prop k kv'
  end.

(** [T | null] *)
Inductive orNull (A : Type) : Type :=
  | null
  | notNull (a : A).
Arguments null {A}.
Arguments notNull {A} a.

(** The number that arithmetic and [Math.min] take a value of a field
    declared [number] for: null counts as 0. *)
Definition ToNumber (x : orNull number) : number :=
  match x with
  | null => 0%Q
  | notNull n => n
  end.

(** What [JSON.parse] reads back of a number field that
    [JSON.stringify] wrote: a number that is not finite has become
    null. *)
Definition stringify_number (x : orNull number) : orNull number :=
  match x with
  | notNull (Finite q) => notNull (Finite q)
  | notNull Infinity | notNull NegInfinity | null => null
  end.

(** [JSON.parse(JSON.stringify(j))] on a value that came out of
    [JSON.parse]. *)
Fixpoint reparsed (j : json) : json :=
  match j with
  | JNum (Finite q) => JNum (Finite q)
  | JNum Infinity | JNum NegInfinity => JNull
  | JArr l => JArr (map reparsed l)
  | JObj kv => JObj (map (fun e => match e with (k, v) => (k, reparsed v) end) kv)
  | JNull | JBool _ | JStr _ => j
  end.

(** ** The part of zod the schemas use *)

Module Zod.

Inductive seg : Type :=
  | Key (k : string)
  | Idx (i : nat).

Record ZodIssue : Type := { path : list seg; message : string }.

(** The outcome of [safeParse]: a value, or the issues found. *)
Inductive SafeParseReturn (A : Type) : Type :=
  | Success (data : A)
  | Failure (issues : list ZodIssue).
Arguments Success {A} data.
Arguments Failure {A} issues.

Definition schema (A : Type) : Type :=
  option json -> list seg -> SafeParseReturn A.

(** Every key of an object and every element of an array is parsed,
    and the issues of all of them are reported together. *)
Definition ap {A B} (f : SafeParseReturn (A -> B)) (x : SafeParseReturn A)
  : SafeParseReturn B :=
  match f, x with
  | Success g, Success a => Success (g a)
  | Success _, Failure e => Failure e
  | Failure e, Success _ => Failure e
  | Failure e, Failure e' => Failure (e ++ e')
  end.

#[global] Arguments ap : simpl never.

Definition getParsedType (j : option json) : string :=
  match j with
  | None => "undefined"
  | Some JNull => "null"
  | Some (JBool _) => "boolean"
  | Some (JNum _) => "number"
  | Some (JStr _) => "string"
  | Some (JArr _) => "array"
  | Some (JObj _) => "object"
  end.

(** zod's default message of an [invalid_type] issue. *)
Definition invalid_type (expected : string) (j : option json)
    (p : list seg) : ZodIssue :=
  {| path := p;
     message := match j with
                | None => "Required"
                | _ => "Expected " ++ expected ++ ", received "
                         ++ getParsedType j
                end |}.

(** A refinement added to a schema with [.min], [.positive], ...: the
    test and the message of the issue it raises. *)
Record check (A : Type) : Type := { holds : A -> bool; msg : string }.
Arguments holds {A} c a.
Arguments msg {A} c.

Definition run_checks {A} (cs : list (check A)) (a : A) (p : list seg)
  : list ZodIssue :=
  omap (fun c => if holds c a then None
                 else Some {| path := p; message := msg c |}) cs.

Definition checked {A} (cs : list (check A)) (a : A) (p : list seg)
  : SafeParseReturn A :=
  match run_checks cs a p with
  | [] => Success a
  | e => Failure e
  end.

Definition z_string (cs : list (check string)) : schema string :=
  fun j p =>
    match j with
    | Some (JStr s) => checked cs s p
    | _ => Failure [invalid_type "string" j p]
    end.

(** [z.number({required_error, invalid_type_error})] *)
Definition z_number_msg (required_error invalid_type_error : string)
    (cs : list (check number)) : schema number :=
  fun j p =>
    match j with
    | Some (JNum n) => checked cs n p
    | None => Failure [{| path := p; message := required_error |}]
    | _ => Failure [{| path := p; message := invalid_type_error |}]
    end.

Definition z_number (cs : list (check number)) : schema number :=
  fun j p =>
    match j with
    | Some (JNum n) => checked cs n p
    | _ => Failure [invalid_type "number" j p]
    end.

Definition z_boolean : schema bool :=
  fun j p =>
    match j with
    | Some (JBool b) => Success b
    | _ => Failure [invalid_type "boolean" j p]
    end.

Definition optional {A} (s : schema A) : schema (option A) :=
  fun j p =>
    match j with
    | None => Success None
    | _ => ap (Success Some) (s j p)
    end.

Definition nullable {A} (s : schema A) : schema (orNull A) :=
  fun j p =>
    match j with
    | Some JNull => Success null
    | _ => ap (Success notNull) (s j p)
    end.

(** The elements of an array, each parsed at its index. *)
Fixpoint parse_items {A} (s : schema A) (l : list json) (i : nat)
    (p : list seg) : SafeParseReturn (list A) :=
  match l with
  | [] => Success []
  | x :: l' =>
      ap (ap (Success cons) (s (Some x) (p ++ [Idx i])))
         (parse_items s l' (S i) p)
  end.

(** [z.array(s)] with length refinements: the array's own issues come
    first, then those of its elements. *)
Definition z_array {A} (s : schema A) (cs : list (check (list json)))
    : schema (list A) :=
  fun j p =>
    match j with
    | Some (JArr l) =>
        ap (ap (Success (fun _ r => r)) (checked cs l p))
           (parse_items s l 0 p)
    | _ => Failure [invalid_type "array" j p]
    end.

(** [z.object(shape)]: the body parses the keys of the shape; keys
    outside the shape are stripped since the body never reads them. *)
Definition z_object {A}
    (shape : list (string * json) -> list seg -> SafeParseReturn A)
    : schema A :=
  fun j p =>
    match j with
    | Some (JObj kv) => shape kv p
    | _ => Failure [invalid_type "object" j p]
    end.

Definition field {A} (kv : list (string * json)) (p : list seg)
    (k : string) (s : schema A) : SafeParseReturn A :=
  s (prop k kv) (p ++ [Key k]).

Definition safeParse {A} (s : schema A) (input : json)
  : SafeParseReturn A :=
  s (Some input) [].

(** A parse that fails with a given issue among those it reports. *)
Definition fails_with {A} (r : SafeParseReturn A) (i : ZodIssue) : Prop :=
  exists issues, r = Failure issues /\ i ∈ issues.

(** The refinements used by the schemas. *)
Definition min (n : nat) (m : string) : check string :=
  {| holds := fun s => Nat.leb n (String.length s); msg := m |}.

(** [.positive()], [.int()] and [.nonnegative()]; zod 3 has no test of
    finiteness unless [.finite()] is asked for. *)
Definition positive (m : string) : check number :=
  {| holds := fun n => Number.ltb 0 n; msg := m |}.

Definition int : check number :=
  {| holds := Number.isInteger; msg := "Expected integer, received float" |}.

Definition nonnegative : check number :=
  {| holds := fun n => Number.leb 0 n;
     msg := "Number must be greater than or equal to 0" |}.

Definition nonempty {A} (m : string) : check (list A) :=
  {| holds := fun l => Nat.leb 1 (length l); msg := m |}.

(** The two string formats zod tests with the platform's URL parser
    and with a regular expression; they are left abstract. *)
Class Formats : Type :=
  { isURL : string -> bool;
    isDatetime : string -> bool }.

Definition url `{Formats} (m : string) : check string :=
  {| holds := isURL; msg := m |}.

Definition datetime `{Formats} : check string :=
  {| holds := isDatetime; msg := "Invalid datetime" |}.

End Zod.

Module Import SchemaNotations.
Notation "f <*> x" := (Zod.ap f x) (at level 61, left associativity).
End SchemaNotations.

(** ** The data model (lib/shopify, lib/productSchemas) *)

(** [x ?? d], for a value that may be null or undefined. *)
Definition nullish {A} (x : orNull (option A)) (d : A) : A :=
  match x with
  | notNull (Some a) => a
  | _ => d
  end.

(** Modelled from the spec: the types [ShopifyVariant], [ShopifyOption],
    [ShopifyImage], [ShopifyProduct] and [ProductListItem] of lib/shopify,
    which is not among the sources. Their fields are those of the data
    model, which are also the keys of the schemas and of the seed. *)

(** A variant, as the schema yields it and as the store keeps it. The
    keys are in the order of [variantSchema]. A field declared [number]
    holds a number when it comes from a schema and can hold null when it
    was read from the document. *)
Record ShopifyVariant : Type :=
  { v_id : option string;
    v_sku : option string;
    v_title : option string;
    v_price : orNull number;
    v_compare_at_price : option (orNull number);
    v_inventory_quantity : option (orNull number);
    v_requires_shipping : option bool;
    v_taxable : option bool;
    v_option_values : option (list string) }.

Record ShopifyOption : Type :=
  { o_id : option string;
    o_name : string;
    o_values : list string }.

Record ShopifyImage : Type :=
  { i_id : option string;
    i_src : string;
    i_alt : option string;
    i_width : option (orNull number);
    i_height : option (orNull number) }.

Record ShopifyProduct : Type :=
  { p_id : string;
    p_title : string;
    p_body_html : option string;
    p_vendor : string;
    p_product_type : option string;
    p_tags : option (list string);
    p_options : option (list ShopifyOption);
    p_images : option (list ShopifyImage);
    p_variants : list ShopifyVariant;
    p_created_at : string;
    p_updated_at : string;
    p_published_at : orNull string }.

(** [z.infer<typeof createProductSchema>] *)
Record CreateProductInput : Type :=
  { c_title : string;
    c_body_html : option string;
    c_vendor : string;
    c_product_type : option string;
    c_tags : option (list string);
    c_options : option (list ShopifyOption);
    c_images : option (list ShopifyImage);
    c_variants : list ShopifyVariant;
    c_published_at : orNull (option string) }.

(** [z.infer<typeof updateProductSchema>]: every key may be absent. *)
Record UpdateProductInput : Type :=
  { u_title : option string;
    u_body_html : option string;
    u_vendor : option string;
    u_product_type : option string;
    u_tags : option (list string);
    u_options : option (list ShopifyOption);
    u_images : option (list ShopifyImage);
    u_variants : option (list ShopifyVariant);
    u_published_at : option (orNull (option string)) }.

Module ProductSchemas.
Import Zod.

Section Schemas.
Context `{Formats}.

Definition variantSchema : schema ShopifyVariant :=
  z_object (fun kv p =>
    Success (fun id sku title price compare_at_price inventory_quantity =>
               Build_ShopifyVariant id sku title (notNull price)
                 compare_at_price (notNull <$> inventory_quantity))
    <*> field kv p "id" (optional (z_string []))
    <*> field kv p "sku" (optional (z_string []))
    <*> field kv p "title" (optional (z_string []))
    <*> field kv p "price"
          (z_number_msg "Price is required" "Price must be a number"
             [positive "Price must be greater than 0"])
    <*> field kv p "compare_at_price" (optional (nullable (z_number [])))
    <*> field kv p "inventory_quantity"
          (optional (z_number [int; nonnegative]))
    <*> field kv p "requires_shipping" (optional z_boolean)
    <*> field kv p "taxable" (optional z_boolean)
    <*> field kv p "option_values"
          (optional (z_array (z_string []) []))).

Definition optionSchema : schema ShopifyOption :=
  z_object (fun kv p =>
    Success Build_ShopifyOption
    <*> field kv p "id" (optional (z_string []))
    <*> field kv p "name" (z_string [min 1 "Option name is required"])
    <*> field kv p "values"
          (z_array (z_string [])
             [nonempty "Option must have at least one value"])).

Definition imageSchema : schema ShopifyImage :=
  z_object (fun kv p =>
    Success (fun id src alt width height =>
               Build_ShopifyImage id src alt
                 (notNull <$> width) (notNull <$> height))
    <*> field kv p "id" (optional (z_string []))
    <*> field kv p "src" (z_string [url "Image must be a valid URL"])
    <*> field kv p "alt" (optional (z_string []))
    <*> field kv p "width" (optional (z_number []))
    <*> field kv p "height" (optional (z_number []))).

(** The shape of [createProductSchema], key by key. *)
Definition title_schema : schema string :=
  z_string [min 1 "Title is required"].
Definition body_html_schema : schema (option string) :=
  optional (z_string [min 50 "Description must be at least 50 characters"]).
Definition vendor_schema : schema string :=
  z_string [min 1 "Vendor is required"].
Definition product_type_schema : schema (option string) :=
  optional (z_string []).
Definition tags_schema : schema (option (list string)) :=
  optional (z_array (z_string []) []).
Definition options_schema : schema (option (list ShopifyOption)) :=
  optional (z_array optionSchema []).
Definition images_schema : schema (option (list ShopifyImage)) :=
  optional (z_array imageSchema []).
Definition variants_schema : schema (list ShopifyVariant) :=
  z_array variantSchema [nonempty "At least one variant is required"].
Definition published_at_schema : schema (orNull (option string)) :=
  nullable (optional (z_string [datetime])).

Definition createProductSchema : schema CreateProductInput :=
  z_object (fun kv p =>
    Success Build_CreateProductInput
    <*> field kv p "title" title_schema
    <*> field kv p "body_html" body_html_schema
    <*> field kv p "vendor" vendor_schema
    <*> field kv p "product_type" product_type_schema
    <*> field kv p "tags" tags_schema
    <*> field kv p "options" options_schema
    <*> field kv p "images" images_schema
    <*> field kv p "variants" variants_schema
    <*> field kv p "published_at" published_at_schema).

(** [.partial()] wraps the schema of every key in [.optional()]; on
    a key that was optional already the second wrapper adds nothing. *)
Definition partial_key {A} (s : schema (option A)) : schema (option A) :=
  fun j p => Success (fun o : option (option A) => o ≫= id)
             <*> optional s j p.

Definition updateProductSchema : schema UpdateProductInput :=
  z_object (fun kv p =>
    Success Build_UpdateProductInput
    <*> field kv p "title" (optional title_schema)
    <*> field kv p "body_html" (partial_key body_html_schema)
    <*> field kv p "vendor" (optional vendor_schema)
    <*> field kv p "product_type" (partial_key product_type_schema)
    <*> field kv p "tags" (partial_key tags_schema)
    <*> field kv p "options" (partial_key options_schema)
    <*> field kv p "images" (partial_key images_schema)
    <*> field kv p "variants" (optional variants_schema)
    <*> field kv p "published_at" (optional published_at_schema)).

(** A number that is a non-negative integer. *)
Definition natural (n : number) : Prop :=
  exists (q : Q) (k : nat), n = Finite q /\ (q == inject_Z (Z.of_nat k))%Q.

(** A field declared [number] that holds a number above 0, and one that
    holds a non-negative integer. *)
Definition above_zero (x : orNull number) : Prop :=
  match x with
  | notNull n => Number.lt 0 n
  | null => False
  end.

Definition is_natural (x : orNull number) : Prop :=
  match x with
  | notNull n => natural n
  | null => False
  end.

(** The rules that the specification states for a creation payload, on
    a payload of the payload's type: title and vendor are not empty; a
    body has at least 50 characters; an option has a name and at least
    one value; an image has a valid URL and its width and height, when
    it has them, are numbers, as the type has it; there is at least one
    variant, each with a price above 0 and, when it has one, an
    inventory quantity that is a non-negative integer; and
    [published_at], when it is a string, is an ISO 8601 timestamp. *)
Definition stated_rules (c : CreateProductInput) : Prop :=
  c_title c <> ""
  /\ c_vendor c <> ""
  /\ (forall body, c_body_html c = Some body -> 50 <= String.length body)
  /\ (forall options o, c_options c = Some options -> o ∈ options ->
        o_name o <> "" /\ o_values o <> [])
  /\ (forall images i, c_images c = Some images -> i ∈ images ->
        isURL (i_src i) = true
        /\ i_width i <> Some null /\ i_height i <> Some null)
  /\ c_variants c <> []
  /\ (forall v, v ∈ c_variants c ->
        above_zero (v_price v)
        /\ forall n, v_inventory_quantity v = Some n -> is_natural n)
  /\ (forall t, c_published_at c = notNull (Some t) ->
        isDatetime t = true).

End Schemas.

(** A payload as the JS value that it is, which a body of a request
    can be: an object with the keys that have a value. *)
Definition object (fields : list (string * option json)) : json :=
  JObj (omap (fun kf => pair kf.1 <$> kf.2) fields).

Definition number_json (x : orNull number) : json :=
  match x with
  | null => JNull
  | notNull n => JNum n
  end.

Definition strings_json (l : list string) : json := JArr (JStr <$> l).

Definition variant_json (v : ShopifyVariant) : json :=
  object
    [ ("id", JStr <$> v_id v);
      ("sku", JStr <$> v_sku v);
      ("title", JStr <$> v_title v);
      ("price", Some (number_json (v_price v)));
      ("compare_at_price", number_json <$> v_compare_at_price v);
      ("inventory_quantity", number_json <$> v_inventory_quantity v);
      ("requires_shipping", JBool <$> v_requires_shipping v);
      ("taxable", JBool <$> v_taxable v);
      ("option_values", strings_json <$> v_option_values v) ].

Definition option_json (o : ShopifyOption) : json :=
  object
    [ ("id", JStr <$> o_id o);
      ("name", Some (JStr (o_name o)));
      ("values", Some (strings_json (o_values o))) ].

Definition image_json (i : ShopifyImage) : json :=
  object
    [ ("id", JStr <$> i_id i);
      ("src", Some (JStr (i_src i)));
      ("alt", JStr <$> i_alt i);
      ("width", number_json <$> i_width i);
      ("height", number_json <$> i_height i) ].

Definition payload_json (c : CreateProductInput) : json :=
  object
    [ ("title", Some (JStr (c_title c)));
      ("body_html", JStr <$> c_body_html c);
      ("vendor", Some (JStr (c_vendor c)));
      ("product_type", JStr <$> c_product_type c);
      ("tags", strings_json <$> c_tags c);
      ("options", (fun l => JArr (option_json <$> l)) <$> c_options c);
      ("images", (fun l => JArr (image_json <$> l)) <$> c_images c);
      ("variants", Some (JArr (variant_json <$> c_variants c)));
      ("published_at",
        match c_published_at c with
        | null => Some JNull
        | notNull t => JStr <$> t
        end) ].

(** The value an [object] has under a key, when its keys are distinct. *)
Fixpoint field_value (k : string) (fields : list (string * option json))
  : option json :=
  match fields with
  | [] => None
  | (k', o) :: fields' =>
      if String.eqb k k' then o else field_value k fields'
  end.

End ProductSchemas.

(** ** The product store (lib/productStore) *)

(** The value of [crypto.randomUUID()] and of [new Date().toISOString()]
    at their n-th call. *)
Class Runtime : Type :=
  { randomUUID : nat -> string;
    toISOString : nat -> string }.

(** What [data/products.json] holds when it exists: nothing but white
    space, text that [JSON.parse] rejects, JSON that is not an array, or
    an array, which the code takes for the products. *)
Inductive document : Type :=
  | Blank
  | Unparseable
  | NotArray
  | ProductArray (products : list ShopifyProduct).

Record World : Type :=
  { file : option document;   (* [None]: the file does not exist *)
    uuids : nat;              (* calls of [randomUUID] so far *)
    ticks : nat }.            (* readings of the clock so far *)

(** Modelled from the spec: [ProductListItem] of lib/shopify, a product
    augmented with [min_price]. *)
Record ProductListItem : Type :=
  { item : ShopifyProduct;
    min_price : number }.

Module ProductStore.

(** [{ ...v, id }] *)
Definition with_id (v : ShopifyVariant) (i : string) : ShopifyVariant :=
  {| v_id := Some i;
     v_sku := v_sku v;
     v_title := v_title v;
     v_price := v_price v;
     v_compare_at_price := v_compare_at_price v;
     v_inventory_quantity := v_inventory_quantity v;
     v_requires_shipping := v_requires_shipping v;
     v_taxable := v_taxable v;
     v_option_values := v_option_values v |}.

Definition createSeedProducts (now : string) : list ShopifyProduct :=
  let variants :=
    [ {| v_id := Some "var-1"; v_sku := Some "TSHIRT-BLK-M";
         v_title := Some "Black / M"; v_price := notNull (Finite (1999 # 100));
         v_compare_at_price := None;
         v_inventory_quantity := Some (notNull (Finite (10 # 1)));
         v_requires_shipping := None; v_taxable := None;
         v_option_values := Some ["M"; "Black"] |};
      {| v_id := Some "var-2"; v_sku := Some "TSHIRT-WHT-M";
         v_title := Some "White / M"; v_price := notNull (Finite (2199 # 100));
         v_compare_at_price := None;
         v_inventory_quantity := Some (notNull (Finite (5 # 1)));
         v_requires_shipping := None; v_taxable := None;
         v_option_values := Some ["M"; "White"] |} ] in
  [ {| p_id := "prod-1";
       p_title := "Sample T-Shirt";
       p_body_html := Some
         "<p>A comfy cotton t-shirt inspired by Shopify.</p><p>Perfect for devs.</p>";
       p_vendor := "Dev Merch Co.";
       p_product_type := Some "Shirt";
       p_tags := Some ["tshirt"; "dev"; "cotton"];
       p_options := Some
         [ {| o_id := Some "opt-size"; o_name := "Size";
              o_values := ["S"; "M"; "L"] |};
           {| o_id := Some "opt-color"; o_name := "Color";
              o_values := ["Black"; "White"] |} ];
       p_images := Some
         [ {| i_id := Some "img-1";
              i_src := "https://images.pexels.com/photos/7671166/pexels-photo-7671166.jpeg";
              i_alt := Some "Black t-shirt on hanger";
              i_width := None; i_height := None |} ];
       p_variants := variants;
       p_created_at := now;
       p_updated_at := now;
       p_published_at := notNull now |} ].

(** [Math.min(x, ...xs)], which takes null for 0. *)
Definition Math_min (x : number) (xs : list number) : number :=
  fold_left Number.min xs x.

Definition with_min_price (p : ShopifyProduct) : ProductListItem :=
  {| item := p;
     min_price := match (fun v => ToNumber (v_price v)) <$> p_variants p with
                  | [] => 0%Q
                  | x :: xs => Math_min x xs
                  end |}.

(** What the spec asks of [min_price]: 0 for a product without
    variants, otherwise the least price among its variants. *)
Definition is_min_price (p : ShopifyProduct) (m : number) : Prop :=
  match p_variants p with
  | [] => m = 0%Q
  | _ :: _ =>
      (exists v, v ∈ p_variants p /\ m = ToNumber (v_price v))
      /\ forall v, v ∈ p_variants p -> Number.le m (ToNumber (v_price v))
  end.

(** What [JSON.parse] reads back of a product that [JSON.stringify]
    wrote: the product itself, but for the numbers that are not
    finite. *)
Definition written_variant (v : ShopifyVariant) : ShopifyVariant :=
  {| v_id := v_id v;
     v_sku := v_sku v;
     v_title := v_title v;
     v_price := stringify_number (v_price v);
     v_compare_at_price := stringify_number <$> v_compare_at_price v;
     v_inventory_quantity := stringify_number <$> v_inventory_quantity v;
     v_requires_shipping := v_requires_shipping v;
     v_taxable := v_taxable v;
     v_option_values := v_option_values v |}.

Definition written_image (i : ShopifyImage) : ShopifyImage :=
  {| i_id := i_id i;
     i_src := i_src i;
     i_alt := i_alt i;
     i_width := stringify_number <$> i_width i;
     i_height := stringify_number <$> i_height i |}.

Definition written (p : ShopifyProduct) : ShopifyProduct :=
  {| p_id := p_id p;
     p_title := p_title p;
     p_body_html := p_body_html p;
     p_vendor := p_vendor p;
     p_product_type := p_product_type p;
     p_tags := p_tags p;
     p_options := p_options p;
     p_images := fmap (M := option) (fmap (M := list) written_image) (p_images p);
     p_variants := written_variant <$> p_variants p;
     p_created_at := p_created_at p;
     p_updated_at := p_updated_at p;
     p_published_at := p_published_at p |}.

Section Operations.
Context `{Runtime}.

Definition ensureDataFileExists (w : World) : World :=
  match file w with
  | Some _ => w
  | None =>
      let seed := createSeedProducts (toISOString (ticks w)) in
      {| file := Some (ProductArray (written <$> seed));
         uuids := uuids w;
         ticks := S (ticks w) |}
  end.

Definition readProductsFromFile (w : World)
  : list ShopifyProduct * World :=
  let w1 := ensureDataFileExists w in
  match file w1 with
  | Some (ProductArray parsed) => (parsed, w1)
  | _ => ([], w1)
  end.

Definition writeProductsToFile (products : list ShopifyProduct)
    (w : World) : World :=
  {| file := Some (ProductArray (written <$> products));
     uuids := uuids w;
     ticks := ticks w |}.

Definition listProducts (w : World) : list ProductListItem * World :=
  let '(products, w1) := readProductsFromFile w in
  (with_min_price <$> products, w1).

Definition getProductById (id : string) (w : World)
  : option ShopifyProduct * World :=
  let '(products, w1) := readProductsFromFile w in
  (snd <$> list_find (fun p => p_id p = id) products, w1).

(** [input.variants.map((v) => ({ ...v, id: randomUUID() }))], from
    the n-th call of the generator on; returns the calls made. *)
Fixpoint fresh_variants (vs : list ShopifyVariant) (n : nat)
  : list ShopifyVariant * nat :=
  match vs with
  | [] => ([], n)
  | v :: vs' =>
      let r := fresh_variants vs' (S n) in
      (with_id v (randomUUID n) :: r.1, r.2)
  end.

Definition createProduct (input : CreateProductInput) (w : World)
  : ShopifyProduct * World :=
  let '(products, w1) := readProductsFromFile w in
  let now := toISOString (ticks w1) in
  let id := randomUUID (uuids w1) in
  let '(variants, n) := fresh_variants (c_variants input) (S (uuids w1)) in
  let product :=
    {| p_id := id;
       p_title := c_title input;
       p_body_html := c_body_html input;
       p_vendor := c_vendor input;
       p_product_type := c_product_type input;
       p_tags := c_tags input;
       p_options := c_options input;
       p_images := c_images input;
       p_variants := variants;
       p_created_at := now;
       p_updated_at := now;
       p_published_at := notNull (nullish (c_published_at input) now) |} in
  let w2 := {| file := file w1; uuids := n; ticks := S (ticks w1) |} in
  (product, writeProductsToFile (products ++ [product]) w2).

(** [input.variants.map((v, i) =>
       ({ ...v, id: existing.variants[i]?.id ?? randomUUID() }))],
    from index [i] and the n-th call of the generator on. *)
Fixpoint merge_variants (existing vs : list ShopifyVariant) (i n : nat)
  : list ShopifyVariant * nat :=
  match vs with
  | [] => ([], n)
  | v :: vs' =>
      match (existing !! i) ≫= v_id with
      | Some kept =>
          let r := merge_variants existing vs' (S i) n in
          (with_id v kept :: r.1, r.2)
      | None =>
          let r := merge_variants existing vs' (S i) (S n) in
          (with_id v (randomUUID n) :: r.1, r.2)
      end
  end.

(** [{ ...existing, ...input }] on one key: the payload's value when
    the payload has the key. A payload that came out of [safeParse]
    of a JSON body has no key whose value is undefined. *)
Definition spread {A} (existing : A) (input : option A) : A :=
  default existing input.

Definition spread_published_at (existing : orNull string)
    (input : option (orNull (option string))) : orNull string :=
  match input with
  | Some null => null
  | Some (notNull (Some s)) => notNull s
  | Some (notNull None) | None => existing
  end.

Definition updateProduct (id : string) (input : UpdateProductInput)
    (w : World) : option ShopifyProduct * World :=
  let '(products, w1) := readProductsFromFile w in
  match list_find (fun p => p_id p = id) products with
  | None => (None, w1)
  | Some (idx, existing) =>
      let '(variants, n) :=
        match u_variants input with
        | Some vs => merge_variants (p_variants existing) vs 0 (uuids w1)
        | None => (p_variants existing, uuids w1)
        end in
      let updated :=
        {| p_id := p_id existing;
           p_title := spread (p_title existing) (u_title input);
           p_body_html :=
             spread (p_body_html existing) (Some <$> u_body_html input);
           p_vendor := spread (p_vendor existing) (u_vendor input);
           p_product_type :=
             spread (p_product_type existing)
                    (Some <$> u_product_type input);
           p_tags := spread (p_tags existing) (Some <$> u_tags input);
           p_options :=
             spread (p_options existing) (Some <$> u_options input);
           p_images :=
             spread (p_images existing) (Some <$> u_images input);
           p_variants := variants;
           p_created_at := p_created_at existing;
           p_updated_at := toISOString (ticks w1);
           p_published_at :=
             spread_published_at (p_published_at existing)
                                 (u_published_at input) |} in
      let w2 := {| file := file w1; uuids := n; ticks := S (ticks w1) |} in
      (Some updated, writeProductsToFile (<[idx := updated]> products) w2)
  end.

Definition deleteProduct (id : string) (w : World) : bool * World :=
  let '(products, w1) := readProductsFromFile w in
  match list_find (fun p => p_id p = id) products with
  | None => (false, w1)
  | Some (idx, _) => (true, writeProductsToFile (delete idx products) w1)
  end.

(** The payload [{}]. *)
Definition empty_update : UpdateProductInput :=
  {| u_title := None; u_body_html := None; u_vendor := None;
     u_product_type := None; u_tags := None; u_options := None;
     u_images := None; u_variants := None; u_published_at := None |}.

(** The products the document holds. *)
Definition stored (w : World) : list ShopifyProduct :=
  match file w with
  | Some (ProductArray l) => l
  | _ => []
  end.

(** The identifier the stored variants give to position [i], and the
    number of positions in [i, i + k) to which they give none: each
    of those costs [merge_variants] one call of the generator. *)
Definition kept_id (existing : list ShopifyVariant) (i : nat)
  : option string :=
  (existing !! i) ≫= v_id.

Definition draws (existing : list ShopifyVariant) (i k : nat) : nat :=
  length (filter (fun t => kept_id existing t = None) (seq i k)).

#[global] Arguments kept_id : simpl never.
#[global] Arguments draws : simpl never.

(** A call of the store, and what a sequence of calls leaves. *)
Inductive call : Type :=
  | List
  | Get (id : string)
  | Create (input : CreateProductInput)
  | Update (id : string) (input : UpdateProductInput)
  | Delete (id : string).

Definition step (w : World) (c : call) : World :=
  match c with
  | List => (listProducts w).2
  | Get id => (getProductById id w).2
  | Create input => (createProduct input w).2
  | Update id input => (updateProduct id input w).2
  | Delete id => (deleteProduct id w).2
  end.

Definition run (cs : list call) (w : World) : World :=
  fold_left step cs w.

End Operations.

(** The invariant of the data model on one product. *)
Definition sellable (p : ShopifyProduct) : Prop :=
  p_variants p <> []
  /\ Forall (fun v => ProductSchemas.above_zero (v_price v)) (p_variants p).

(** What the store keeps of it. In the document a price is a finite
    number above 0, or null; in memory, before it is written, a price
    above 0 can still be infinite. *)
Definition priced_or_null (x : orNull number) : Prop :=
  match x with
  | null => True
  | notNull (Finite q) => (0 < q)%Q
  | notNull Infinity | notNull NegInfinity => False
  end.

Definition above_zero_or_null (x : orNull number) : Prop :=
  match x with
  | null => True
  | notNull n => Number.lt 0 n
  end.

Definition with_prices (P : orNull number -> Prop) (p : ShopifyProduct)
  : Prop :=
  p_variants p <> [] /\ Forall (fun v => P (v_price v)) (p_variants p).

Definition has_variants_priced_or_null : ShopifyProduct -> Prop :=
  with_prices priced_or_null.

Definition finite_above_zero (x : orNull number) : Prop :=
  match x with
  | notNull (Finite q) => (0 < q)%Q
  | notNull Infinity | notNull NegInfinity | null => False
  end.

Definition is_finite (x : orNull number) : Prop :=
  match x with
  | notNull (Finite _) => True
  | notNull Infinity | notNull NegInfinity | null => False
  end.

(** A call whose payload gives at least one variant when it gives
    variants, with prices that satisfy [P]; and a call whose payload
    gives finite prices only. *)
Definition payload_prices (P : orNull number -> Prop) (c : call) : Prop :=
  match c with
  | Create input =>
      c_variants input <> []
      /\ Forall (fun v => P (v_price v)) (c_variants input)
  | Update _ input =>
      forall vs, u_variants input = Some vs ->
        vs <> [] /\ Forall (fun v => P (v_price v)) vs
  | List | Get _ | Delete _ => True
  end.

Definition finite_prices (c : call) : Prop :=
  match c with
  | Create input => Forall (fun v => is_finite (v_price v)) (c_variants input)
  | Update _ input =>
      forall vs, u_variants input = Some vs ->
        Forall (fun v => is_finite (v_price v)) vs
  | List | Get _ | Delete _ => True
  end.

(** The states the store starts from: no document yet, the empty
    collection, or the seed. *)
Definition initial (w : World) : Prop :=
  file w = None
  \/ file w = Some (ProductArray [])
  \/ exists now, file w = Some (ProductArray (createSeedProducts now)).

(** A call whose payload came out of the schema of its route. *)
Definition validated `{Zod.Formats} (c : call) : Prop :=
  match c with
  | Create input =>
      exists body,
        Zod.safeParse ProductSchemas.createProductSchema body
        = Zod.Success input
  | Update _ input =>
      exists body,
        Zod.safeParse ProductSchemas.updateProductSchema body
        = Zod.Success input
  | List | Get _ | Delete _ => True
  end.

End ProductStore.

(** ** The user stores (lib/userStore) *)

(** [String.prototype.toLowerCase] on code units below 256. The capital
    letters there are A to Z (65 to 90) and the capital letters of
    Latin-1, from 192 to 222 without the multiplication sign 215; each
    has its small letter 32 further. The other code units below 256,
    among them the sharp s (223) and the y with diaeresis (255), are
    left as they are. *)
Definition is_capital (n : nat) : bool :=
  (Nat.leb 65 n && Nat.leb n 90)
  || (Nat.leb 192 n && Nat.leb n 222 && negb (Nat.eqb n 215)).

Definition lower_unit (c : ascii) : ascii :=
  let n := nat_of_ascii c in
  if is_capital n then ascii_of_nat (n + 32) else c.

Fixpoint toLowerCase (s : string) : string :=
  match s with
  | EmptyString => EmptyString
  | String c s' => String (lower_unit c) (toLowerCase s')
  end.

(** Two strings that differ at most in the case of their letters:
    position by position the code units are equal, or one is a capital
    letter and the other the same letter in lower case, 32 further. *)
Definition capital (c : ascii) : Prop :=
  65 <= nat_of_ascii c <= 90
  \/ (192 <= nat_of_ascii c <= 222 /\ nat_of_ascii c <> 215).

Definition same_letter (a b : ascii) : Prop :=
  a = b
  \/ (capital a /\ nat_of_ascii b = nat_of_ascii a + 32)
  \/ (capital b /\ nat_of_ascii a = nat_of_ascii b + 32).

Fixpoint differ_only_in_case (s t : string) : Prop :=
  match s, t with
  | EmptyString, EmptyString => True
  | String a s', String b t' => same_letter a b /\ differ_only_in_case s' t'
  | _, _ => False
  end.

(** The value of [genId()] at its n-th call, and of
    [bcrypt.hash(password, rounds)] at the n-th call of bcrypt, which
    draws the salt. *)
Class Entropy : Type :=
  { genId : nat -> string;
    bcrypt_hash : string -> nat -> nat -> string }.

Inductive error : Type :=
  | Error (message : string)
  | TypeError.

(** How a promise settles. *)
Inductive settled (A : Type) : Type :=
  | Resolved (value : A)
  | Rejected (reason : error).
Arguments Resolved {A} value.
Arguments Rejected {A} reason.

Record LocalUser : Type :=
  { user_id : string;
    user_name : string;
    user_email : string;
    user_passwordHash : string }.

(** The in-process store. *)
Module UserStore.

Record Store : Type :=
  { users : list LocalUser;
    ids : nat;       (* calls of [genId] so far *)
    hashes : nat }.  (* calls of [bcrypt.hash] so far *)

Section Operations.
Context `{Entropy}.

Definition findUserByEmail (email : string) (st : Store)
  : option LocalUser :=
  snd <$> list_find
            (fun u => toLowerCase (user_email u) = toLowerCase email)
            (users st).

Definition createUser (name email password : string) (st : Store)
  : settled LocalUser * Store :=
  match findUserByEmail email st with
  | Some _ => (Rejected (Error "User with this email already exists"), st)
  | None =>
      let passwordHash := bcrypt_hash password 10 (hashes st) in
      let user :=
        {| user_id := genId (ids st);
           user_name := name;
           user_email := email;
           user_passwordHash := passwordHash |} in
      (Resolved user,
       {| users := users st ++ [user];
          ids := S (ids st);
          hashes := S (hashes st) |})
  end.

End Operations.
End UserStore.

(** The store kept in [.data/users.json]. The entries that come from the
    file are the parsed objects themselves, so the list holds JSON
    values. *)
Module UserStoreFile.

(** What reading and parsing [users.json] gives. *)
Inductive users_file : Type :=
  | ENOENT                  (* the file does not exist *)
  | ReadFailure             (* any other failure of [readFile] *)
  | SyntaxError             (* [JSON.parse] throws *)
  | Parsed (j : json).

Record Store : Type :=
  { users : list json;
    loaded : bool;          (* the flag under USER_STORE_LOADED_KEY *)
    disk : users_file;
    writable : bool;        (* whether [mkdir] and [writeFile] succeed *)
    ids : nat;
    hashes : nat }.

Definition typeof (v : option json) : string :=
  match v with
  | None => "undefined"
  | Some JNull | Some (JArr _) | Some (JObj _) => "object"
  | Some (JBool _) => "boolean"
  | Some (JNum _) => "number"
  | Some (JStr _) => "string"
  end.

(** [u.k], for a value [u] that [JSON.parse] produced and is not null. *)
Definition get (u : json) (k : string) : option json :=
  match u with
  | JObj kv => prop k kv
  | _ => None
  end.

Definition is_null (u : json) : bool :=
  match u with JNull => true | _ => false end.

(** The type guard of [loadUsersFromDisk]. *)
Definition isLocalUser (u : json) : bool :=
  String.eqb (typeof (Some u)) "object"
  && negb (is_null u)
  && String.eqb (typeof (get u "id")) "string"
  && String.eqb (typeof (get u "email")) "string"
  && String.eqb (typeof (get u "passwordHash")) "string".

Definition loadUsersFromDisk (d : users_file) : list json :=
  match d with
  | Parsed (JArr parsed) => List.filter isLocalUser parsed
  | Parsed _ => []
  | ENOENT => []
  | ReadFailure | SyntaxError => []
  end.

Definition ensureLoaded (st : Store) : Store :=
  if loaded st then st
  else {| users := loadUsersFromDisk (disk st);
          loaded := true;
          disk := disk st;
          writable := writable st;
          ids := ids st;
          hashes := hashes st |}.

(** The file then holds the text that [JSON.stringify] gives for the
    users. *)
Definition saveUsersToDisk (st : Store) : Store :=
  if writable st
  then {| users := users st;
          loaded := loaded st;
          disk := Parsed (reparsed (JArr (users st)));
          writable := writable st;
          ids := ids st;
          hashes := hashes st |}
  else st.

(** [users.find((u) => u.email.toLowerCase() === email.toLowerCase())]:
    the callback throws a TypeError on an entry whose email is not a
    string. *)
Fixpoint find_email (email : string) (l : list json)
  : settled (option json) :=
  match l with
  | [] => Resolved None
  | u :: l' =>
      match get u "email" with
      | Some (JStr e) =>
          if String.eqb (toLowerCase e) (toLowerCase email)
          then Resolved (Some u)
          else find_email email l'
      | _ => Rejected TypeError
      end
  end.

Definition LocalUser_object (u : LocalUser) : json :=
  JObj [ ("id", JStr (user_id u));
         ("name", JStr (user_name u));
         ("email", JStr (user_email u));
         ("passwordHash", JStr (user_passwordHash u)) ].

Section Operations.
Context `{Entropy}.

Definition createUser (name email password : string) (st : Store)
  : settled LocalUser * Store :=
  let st1 := ensureLoaded st in
  match find_email email (users st1) with
  | Rejected e => (Rejected e, st1)
  | Resolved (Some _) =>
      (Rejected (Error "User with this email already exists"), st1)
  | Resolved None =>
      let passwordHash := bcrypt_hash password 10 (hashes st1) in
      let user :=
        {| user_id := genId (ids st1);
           user_name := name;
           user_email := email;
           user_passwordHash := passwordHash |} in
      let st2 :=
        {| users := users st1 ++ [LocalUser_object user];
           loaded := loaded st1;
           disk := disk st1;
           writable := writable st1;
           ids := S (ids st1);
           hashes := S (hashes st1) |} in
      (Resolved user, saveUsersToDisk st2)
  end.

End Operations.

(** The users the store answers from: what is in memory once the file
    has been loaded, and what the file gives before. *)
Definition stored_users (st : Store) : list json :=
  users (ensureLoaded st).

End UserStoreFile.

(** ** Claims of the specification that the code does not meet, as the
    specification words them *)

Module AsSpecified.
Import ProductStore.

(** "Each variant keeps its original identifier by positional index
    when not explicitly given, else gets a fresh identifier": for the
    variants [vs] of the payload and the product [updated] that
    [updateProduct] returned for the stored product [existing], in the
    world [w] that the call left as [w']. A fresh identifier is the
    value of a call of the generator made during the update. *)
Definition variant_ids `{Runtime} (w w' : World)
    (existing updated : ShopifyProduct) (vs : list ShopifyVariant)
  : Prop :=
  forall i v r,
    vs !! i = Some v -> p_variants updated !! i = Some r ->
    match v_id v with
    | None => v_id r = kept_id (p_variants existing) i
    | Some _ =>
        exists k, uuids w <= k < uuids w' /\ v_id r = Some (randomUUID k)
    end.

(** "Sets published_at to provided value or now if omitted." *)
Definition published_at (input : CreateProductInput) (now : string)
    (product : ShopifyProduct) : Prop :=
  p_published_at product
  = match c_published_at input with
    | null => null
    | notNull (Some provided) => notNull provided
    | notNull None => notNull now
    end.

(** "[getById]: no side effects", on any state of the file. *)
Definition getById_no_side_effects `{Runtime} (w : World) (id : string)
  : Prop :=
  file (getProductById id w).2 = file w.

End AsSpecified.

(** ** A runtime and some states, for the examples *)

Module Examples.

Definition decimal (n : nat) : string :=
  NilEmpty.string_of_uint (Nat.to_uint n).

(** A generator that counts and a clock that ticks once a second. *)
Definition runtime : Runtime :=
  {| randomUUID := fun n => "00000000-0000-4000-8000-" +:+ decimal n;
     toISOString := fun n => "2024-05-01T10:00:" +:+ decimal n +:+ "Z" |}.

(** Stand-ins for the URL parser and the timestamp pattern. *)
Definition formats : Zod.Formats :=
  {| Zod.isURL := String.prefix "https://";
     Zod.isDatetime := fun s => Nat.eqb (String.length s) 20 |}.

Definition entropy : Entropy :=
  {| genId := fun n => "user_" +:+ decimal n;
     bcrypt_hash := fun password rounds n =>
       "$2a$" +:+ decimal rounds +:+ "$" +:+ decimal n +:+ "$" +:+ password |}.

Definition seed : list ShopifyProduct :=
  ProductStore.createSeedProducts "2024-04-30T09:00:00Z".

(** The store with the seed in its document, and before its first
    access. *)
Definition seeded : World :=
  {| file := Some (ProductArray seed); uuids := 0; ticks := 0 |}.

Definition no_document : World :=
  {| file := None; uuids := 0; ticks := 0 |}.

(** A body for PUT with three variants, the first with an identifier
    of its own, where the stored product has two. *)
Definition three_variants : json :=
  JObj [ ("variants",
          JArr [ JObj [("id", JStr "mine"); ("price", JNum (5 # 1))];
                 JObj [("price", JNum (7 # 1))];
                 JObj [("price", JNum (9 # 1))] ]) ].

Definition variant (id : option string) (price : number)
  : ShopifyVariant :=
  {| v_id := id; v_sku := None; v_title := None; v_price := notNull price;
     v_compare_at_price := None; v_inventory_quantity := None;
     v_requires_shipping := None; v_taxable := None;
     v_option_values := None |}.

Definition three_variants_input : UpdateProductInput :=
  {| u_title := None; u_body_html := None; u_vendor := None;
     u_product_type := None; u_tags := None; u_options := None;
     u_images := None;
     u_variants := Some [ variant (Some "mine") (5 # 1);
                          variant None (7 # 1);
                          variant None (9 # 1) ];
     u_published_at := None |}.

(** A body for POST that gives null for [published_at]. *)
Definition unpublished_mug : json :=
  JObj [ ("title", JStr "Mug");
         ("vendor", JStr "Dev Merch Co.");
         ("variants", JArr [ JObj [("price", JNum (5 # 1))] ]);
         ("published_at", JNull) ].

Definition unpublished_mug_input : CreateProductInput :=
  {| c_title := "Mug"; c_body_html := None; c_vendor := "Dev Merch Co.";
     c_product_type := None; c_tags := None; c_options := None;
     c_images := None; c_variants := [variant None (5 # 1)];
     c_published_at := null |}.

Definition ada : LocalUser :=
  {| user_id := "user_a"; user_name := "Ada";
     user_email := "Ada@Example.com"; user_passwordHash := "$2a$10$x" |}.

Definition memory_store : UserStore.Store :=
  {| UserStore.users := [ada]; UserStore.ids := 1; UserStore.hashes := 1 |}.

(** A [users.json] with one user and three entries the guard drops. *)
Definition users_json : json :=
  JArr [ UserStoreFile.LocalUser_object ada;
         JObj [("id", JStr "user_b"); ("email", JStr "b@example.com")];
         JNull;
         JArr [JStr "user_c"] ].

Definition file_store : UserStoreFile.Store :=
  {| UserStoreFile.users := [];
     UserStoreFile.loaded := false;
     UserStoreFile.disk := UserStoreFile.Parsed users_json;
     UserStoreFile.writable := true;
     UserStoreFile.ids := 0;
     UserStoreFile.hashes := 0 |}.

End Examples.

(** ** The report of a failed validation, and the routes of the products *)

Module ZodError.
Import Zod.

(** A path segment as the key of a JS object. *)
Definition key_name (s : seg) : string :=
  match s with
  | Key k => k
  | Idx i => NilEmpty.string_of_uint (Nat.to_uint i)
  end.

#[global] Instance seg_eq_dec : EqDecision seg.
Proof. solve_decision. Defined.

(** What [error.flatten()] returns. *)
Record Flattened : Type :=
  { formErrors : list string;
    fieldErrors : gmap string (list string) }.

(** One turn of the loop of [flatten]: the message goes under the first
    key of the path, or to [formErrors] when the path is empty. *)
Definition flatten_issue (acc : Flattened) (sub : ZodIssue) : Flattened :=
  match path sub with
  | k :: _ =>
      {| formErrors := formErrors acc;
         fieldErrors :=
           <[key_name k :=
               default [] (fieldErrors acc !! key_name k) ++ [message sub]]>
             (fieldErrors acc) |}
  | [] =>
      {| formErrors := formErrors acc ++ [message sub];
         fieldErrors := fieldErrors acc |}
  end.

Definition flatten (issues : list ZodIssue) : Flattened :=
  fold_left flatten_issue issues {| formErrors := []; fieldErrors := ∅ |}.

(** The messages of the issues under a key, and of those with no path. *)
Definition under (k : string) (sub : ZodIssue) : Prop :=
  key_name <$> head (path sub) = Some k.

Definition rootless (sub : ZodIssue) : Prop := path sub = [].

#[global] Instance under_dec (k : string) (sub : ZodIssue) :
  Decision (under k sub).
Proof. unfold under. apply _. Defined.

#[global] Instance rootless_dec (sub : ZodIssue) : Decision (rootless sub).
Proof. unfold rootless. apply _. Defined.

End ZodError.

(** A response of a route: its status and the value that the handler
    gives to [NextResponse.json] for its body. *)
Inductive ResponseBody : Type :=
  | data_products (data : list ProductListItem)
  | data_product (data : ShopifyProduct)
  | validation_failed (error : string) (issues : ZodError.Flattened)
  | error_only (error : string)
  | success_true.

Record NextResponse : Type :=
  { status : nat;
    body : ResponseBody }.

(** The body of a request is what [req.json()] resolves to; [None] when
    it rejects because the text is not JSON. *)

(** app/api/products/route.ts *)
Module ProductsRoute.
Import Zod ProductSchemas ProductStore.

Section Handlers.
Context `{Runtime} `{Formats}.

Definition GET (w : World) : NextResponse * World :=
  let '(data, w1) := listProducts w in
  ({| status := 200; body := data_products data |}, w1).

Definition POST (req_json : option json) (w : World)
  : NextResponse * World :=
  match req_json with
  | None =>
      ({| status := 500;
          body := error_only "Unexpected error creating product" |}, w)
  | Some json =>
      match safeParse createProductSchema json with
      | Failure issues =>
          ({| status := 400;
              body := validation_failed "Validation failed"
                        (ZodError.flatten issues) |}, w)
      | Success payload =>
          let '(product, w1) := createProduct payload w in
          ({| status := 201; body := data_product product |}, w1)
      end
  end.

End Handlers.
End ProductsRoute.

(** app/api/products/[id]/route.ts *)
Module ProductRoute.
Import Zod ProductSchemas ProductStore.

Section Handlers.
Context `{Runtime} `{Formats}.

Definition not_found (id : string) : NextResponse :=
  {| status := 404;
     body := error_only ("Product " +:+ id +:+ " not found") |}.

Definition GET (id : string) (w : World) : NextResponse * World :=
  match getProductById id w with
  | (None, w1) => (not_found id, w1)
  | (Some product, w1) =>
      ({| status := 200; body := data_product product |}, w1)
  end.

Definition PUT (id : string) (req_json : option json) (w : World)
  : NextResponse * World :=
  match req_json with
  | None =>
      ({| status := 500;
          body := error_only "Unexpected error updating product" |}, w)
  | Some json =>
      match safeParse updateProductSchema json with
      | Failure issues =>
          ({| status := 400;
              body := validation_failed "Validation failed"
                        (ZodError.flatten issues) |}, w)
      | Success payload =>
          match updateProduct id payload w with
          | (None, w1) => (not_found id, w1)
          | (Some updated, w1) =>
              ({| status := 200; body := data_product updated |}, w1)
          end
      end
  end.

Definition DELETE (id : string) (w : World) : NextResponse * World :=
  match deleteProduct id w with
  | (false, w1) => (not_found id, w1)
  | (true, w1) => ({| status := 200; body := success_true |}, w1)
  end.

End Handlers.
End ProductRoute.

(** A request to the routes of the products, and what a sequence of
    requests leaves. *)
Inductive request : Type :=
  | GET_products
  | POST_products (req_json : option json)
  | GET_product (id : string)
  | PUT_product (id : string) (req_json : option json)
  | DELETE_product (id : string).

Definition handle `{Runtime} `{Zod.Formats} (r : request) (w : World)
  : NextResponse * World :=
  match r with
  | GET_products => ProductsRoute.GET w
  | POST_products req_json => ProductsRoute.POST req_json w
  | GET_product id => ProductRoute.GET id w
  | PUT_product id req_json => ProductRoute.PUT id req_json w
  | DELETE_product id => ProductRoute.DELETE id w
  end.

Definition serve `{Runtime} `{Zod.Formats} (rs : list request) (w : World)
  : World :=
  fold_left (fun w r => (handle r w).2) rs w.

(** The identifiers in the document are distinct, and none of them is a
    value that the generator has still to give. *)
Definition ids_fresh `{Runtime} (w : World) : Prop :=
  NoDup (p_id <$> ProductStore.stored w)
  /\ forall k, uuids w <= k ->
       randomUUID k ∉ p_id <$> ProductStore.stored w.

(** ** Looking users up and checking their passwords *)

(** [bcrypt.compare(password, hash)]: the hash carries its salt, so the
    answer depends on the two strings only. *)
Class Compare : Type :=
  { bcrypt_compare : string -> string -> bool }.

(** The rest of the in-process store. *)
Module UserStoreAuth.

Definition verifyUserCredentials `{Compare} (email password : string)
    (st : UserStore.Store) : option LocalUser :=
  match UserStore.findUserByEmail email st with
  | None => None
  | Some user =>
      if bcrypt_compare password (user_passwordHash user)
      then Some user
      else None
  end.

(** A series of signups, each given as name, email and password. *)
Definition createUsers `{Entropy} (calls : list (string * string * string))
    (st : UserStore.Store) : UserStore.Store :=
  fold_left
    (fun st c => (UserStore.createUser c.1.1 c.1.2 c.2 st).2) calls st.

(** The emails of the store, in lower case. *)
Definition lower_emails (st : UserStore.Store) : list string :=
  (fun u => toLowerCase (user_email u)) <$> UserStore.users st.

End UserStoreAuth.

(** The rest of the store on file. *)
Module UserStoreFileAuth.
Import UserStoreFile.

Definition findUserByEmail (email : string) (st : Store)
  : settled (option json) * Store :=
  let st1 := ensureLoaded st in
  (find_email email (users st1), st1).

(** bcryptjs rejects with this error when the hash is not a string. *)
Definition verifyUserCredentials `{Compare} (email password : string)
    (st : Store) : settled (option json) * Store :=
  match findUserByEmail email st with
  | (Rejected e, st1) => (Rejected e, st1)
  | (Resolved None, st1) => (Resolved None, st1)
  | (Resolved (Some user), st1) =>
      match get user "passwordHash" with
      | Some (JStr hash) =>
          (Resolved (if bcrypt_compare password hash then Some user
                     else None), st1)
      | other =>
          (Rejected (Error ("Illegal arguments: string, " +:+ typeof other)),
           st1)
      end
  end.

End UserStoreFileAuth.

(** ** The signup route (app/api/auth/signup/route.ts) *)

(** The test behind [z.string().email()], left abstract. *)
Class EmailFormat : Type :=
  { isEmail : string -> bool }.

Record SignupInput : Type :=
  { s_name : string;
    s_email : string;
    s_password : string }.

Inductive SignupBody : Type :=
  | signup_data (id name email : string)
  | signup_invalid (error : string) (issues : ZodError.Flattened)
  | signup_error (error : string).

Record SignupResponse : Type :=
  { signup_status : nat;
    signup_body : SignupBody }.

Module SignupRoute.
Import Zod.

(** [hay.includes(needle)] *)
Fixpoint includes (needle hay : string) : bool :=
  String.prefix needle hay
  || match hay with
     | EmptyString => false
     | String _ hay' => includes needle hay'
     end.

Section Handler.
Context `{EmailFormat}.

Definition email (m : string) : check string :=
  {| holds := isEmail; msg := m |}.

Definition signupSchema : schema SignupInput :=
  z_object (fun kv p =>
    Success Build_SignupInput
    <*> field kv p "name" (z_string [min 1 "Name is required"])
    <*> field kv p "email" (z_string [email "Valid email is required"])
    <*> field kv p "password"
          (z_string [min 6 "Password must be at least 6 characters"])).

(** The handler, over the [createUser] of either store. The message of a
    TypeError of the engine does not contain "already exists". *)
Definition POST {S : Type}
    (createUser : string -> string -> string -> S -> settled LocalUser * S)
    (req_json : option json) (st : S) : SignupResponse * S :=
  match req_json with
  | None =>
      ({| signup_status := 500;
          signup_body := signup_error "Internal server error" |}, st)
  | Some body =>
      match safeParse signupSchema body with
      | Failure issues =>
          ({| signup_status := 400;
              signup_body := signup_invalid "Invalid signup data"
                               (ZodError.flatten issues) |}, st)
      | Success parsed =>
          match createUser (s_name parsed) (s_email parsed)
                  (s_password parsed) st with
          | (Resolved user, st1) =>
              ({| signup_status := 201;
                  signup_body := signup_data (user_id user) (user_name user)
                                   (user_email user) |}, st1)
          | (Rejected (Error message), st1) =>
              if includes "already exists" message
              then ({| signup_status := 409;
                       signup_body :=
                         signup_error "User with this email already exists" |},
                    st1)
              else ({| signup_status := 500;
                       signup_body := signup_error "Internal server error" |},
                    st1)
          | (Rejected TypeError, st1) =>
              ({| signup_status := 500;
                  signup_body := signup_error "Internal server error" |}, st1)
          end
      end
  end.

End Handler.
End SignupRoute.

(** ** The pages of the dashboard *)

(** app/admin/page.tsx: the list the dashboard shows after a DELETE, from
    the list it showed before; the list is filtered only when the
    response is ok. *)
Module AdminPage.

Definition handleDelete (res_ok : bool) (id : string)
    (prev : list ProductListItem) : list ProductListItem :=
  if res_ok then filter (fun p => p_id (item p) <> id) prev else prev.

(** [res.ok] *)
Definition ok (res : NextResponse) : bool :=
  Nat.leb 200 (status res) && Nat.leb (status res) 299.

End AdminPage.

(** The tags field of the forms that add and edit a product. *)
Module TagsField.

(** The code units below 256 that [trim] removes. *)
Definition is_space (c : ascii) : bool :=
  let n := nat_of_ascii c in
  (Nat.leb 9 n && Nat.leb n 13) || Nat.eqb n 32 || Nat.eqb n 160.

Fixpoint trimStart (s : string) : string :=
  match s with
  | EmptyString => EmptyString
  | String c s' => if is_space c then trimStart s' else s
  end.

Fixpoint trimEnd (s : string) : string :=
  match s with
  | EmptyString => EmptyString
  | String c s' =>
      match trimEnd s' with
      | EmptyString => if is_space c then EmptyString else String c EmptyString
      | rest => String c rest
      end
  end.

Definition trim (s : string) : string := trimEnd (trimStart s).

(** [s.split(",")] *)
Fixpoint split_commas (s : string) : list string :=
  match s with
  | EmptyString => [EmptyString]
  | String c s' =>
      if Ascii.eqb c ","%char
      then EmptyString :: split_commas s'
      else match split_commas s' with
           | t :: ts => String c t :: ts
           | [] => [String c EmptyString]
           end
  end.

(** [tags.join(", ")] *)
Fixpoint join (tags : list string) : string :=
  match tags with
  | [] => EmptyString
  | [t] => t
  | t :: ts => t +:+ ", " +:+ join ts
  end.

(** [raw.split(",").map((t) => t.trim()).filter(Boolean)] *)
Definition parse (raw : string) : list string :=
  filter (fun t => t <> EmptyString) (trim <$> split_commas raw).

(** The edit page: the text the field is loaded with, and the tags of
    the payload, absent when the text is empty. *)
Definition reset_tags (tags : option (list string)) : string :=
  match tags with
  | Some tags => join tags
  | None => EmptyString
  end.

Definition payload_tags (values_tags : string) : option (list string) :=
  match values_tags with
  | EmptyString => None
  | _ => Some (parse values_tags)
  end.

(** A tag that the field gives back as it is: not empty, without a
    comma, without white space around it. *)
Definition has_comma (t : string) : Prop :=
  (","%char : ascii) ∈ list_ascii_of_string t.

Definition clean (t : string) : Prop :=
  t <> EmptyString /\ ~ has_comma t /\ trim t = t.

End TagsField.

(** The edit page: the values the form submits, and the body that
    [onSubmit] sends to PUT, as [JSON.stringify] writes it and the route
    parses it. *)
Module EditPage.
Import ProductSchemas.

Record FormImage : Type :=
  { fi_id : option string;
    fi_src : string;
    fi_alt : option string }.

Record FormVariant : Type :=
  { fv_id : option string;
    fv_title : option string;
    fv_sku : option string;
    fv_price : number }.

Record FormValues : Type :=
  { f_title : string;
    f_description : string;
    f_vendor : string;
    f_product_type : option string;
    f_tags : option string;
    f_images : list FormImage;
    f_variants : list FormVariant }.

(** [s || undefined] *)
Definition or_undefined (s : option string) : option string :=
  match s with
  | Some EmptyString | None => None
  | Some s => Some s
  end.

Definition image_payload (img : FormImage) : json :=
  object
    [ ("id", JStr <$> fi_id img);
      ("src", Some (JStr (fi_src img)));
      ("alt", JStr <$> or_undefined (fi_alt img)) ].

Definition variant_payload (v : FormVariant) : json :=
  object
    [ ("id", JStr <$> fv_id v);
      ("title", JStr <$> or_undefined (fv_title v));
      ("sku", JStr <$> or_undefined (fv_sku v));
      ("price", Some (number_json (stringify_number (notNull (fv_price v))))) ].

Definition onSubmit_body (values : FormValues) : json :=
  object
    [ ("title", Some (JStr (f_title values)));
      ("body_html", Some (JStr (f_description values)));
      ("vendor", Some (JStr (f_vendor values)));
      ("product_type",
        JStr <$> or_undefined (TagsField.trim <$> f_product_type values));
      ("tags",
        strings_json <$> (f_tags values ≫= TagsField.payload_tags));
      ("images", Some (JArr (image_payload <$> f_images values)));
      ("variants", Some (JArr (variant_payload <$> f_variants values))) ].

(** What the store keeps of a variant and of an image of the form. *)
Definition saved_variant (v : FormVariant) (id : option string)
  : ShopifyVariant :=
  {| v_id := id;
     v_sku := or_undefined (fv_sku v);
     v_title := or_undefined (fv_title v);
     v_price := notNull (fv_price v);
     v_compare_at_price := None;
     v_inventory_quantity := None;
     v_requires_shipping := None;
     v_taxable := None;
     v_option_values := None |}.

Definition saved_image (img : FormImage) : ShopifyImage :=
  {| i_id := fi_id img;
     i_src := fi_src img;
     i_alt := or_undefined (fi_alt img);
     i_width := None;
     i_height := None |}.

End EditPage.

(** ** More values to run the definitions on *)

Module MoreExamples.
Import EditPage.

(** A stand-in for [bcrypt.compare]: the hashes of [Examples.entropy]
    end with the password they were made of. *)
Fixpoint ends_with (suffix s : string) : bool :=
  String.eqb s suffix
  || match s with
     | EmptyString => false
     | String _ s' => ends_with suffix s'
     end.

Definition compare : Compare := {| bcrypt_compare := ends_with |}.

(** A stand-in for the pattern of [z.string().email()]. *)
Definition email_format : EmailFormat :=
  {| isEmail := SignupRoute.includes "@" |}.

(** A document that is there but empty. *)
Definition blank_document : World :=
  {| file := Some Blank; uuids := 0; ticks := 0 |}.

(** The store on file when [users.json] cannot be written. *)
Definition read_only_store : UserStoreFile.Store :=
  {| UserStoreFile.users := [];
     UserStoreFile.loaded := false;
     UserStoreFile.disk := UserStoreFile.Parsed Examples.users_json;
     UserStoreFile.writable := false;
     UserStoreFile.ids := 0;
     UserStoreFile.hashes := 0 |}.

(** A body for POST whose text gives the price 1e400, which is beyond
    the range of the doubles: [req.json()] resolves to the price
    Infinity. *)
Definition overflowing_mug : json :=
  JObj [ ("title", JStr "Mug");
         ("vendor", JStr "Dev Merch Co.");
         ("variants", JArr [ JObj [("price", JNum Infinity)] ]) ].

Definition overflowing_mug_input : CreateProductInput :=
  {| c_title := "Mug"; c_body_html := None; c_vendor := "Dev Merch Co.";
     c_product_type := None; c_tags := None; c_options := None;
     c_images := None; c_variants := [Examples.variant None Infinity];
     c_published_at := notNull None |}.

(** A document with two products under one identifier. *)
Definition titled (title : string) (p : ShopifyProduct) : ShopifyProduct :=
  {| p_id := p_id p;
     p_title := title;
     p_body_html := p_body_html p;
     p_vendor := p_vendor p;
     p_product_type := p_product_type p;
     p_tags := p_tags p;
     p_options := p_options p;
     p_images := p_images p;
     p_variants := p_variants p;
     p_created_at := p_created_at p;
     p_updated_at := p_updated_at p;
     p_published_at := p_published_at p |}.

Definition twins : World :=
  {| file := Some (ProductArray
                     ((titled "first" <$> Examples.seed)
                      ++ (titled "second" <$> Examples.seed)));
     uuids := 0;
     ticks := 0 |}.

(** A user whose email starts with the small e with acute accent (code
    unit 233), and the same email with the capital one (201). *)
Definition e_acute : LocalUser :=
  {| user_id := "user_e"; user_name := "Eve";
     user_email := String "233"%char "@x.com";
     user_passwordHash := "$2a$10$y" |}.

Definition accented_store : UserStore.Store :=
  {| UserStore.users := [e_acute]; UserStore.ids := 1;
     UserStore.hashes := 1 |}.

Definition capital_e_acute_email : string := String "201"%char "@x.com".

(** A body for POST whose description is too short. *)
Definition short_description : json :=
  JObj [ ("title", JStr "Mug");
         ("body_html", JStr "A mug.");
         ("vendor", JStr "Dev Merch Co.");
         ("variants", JArr [ JObj [("price", JNum (5 # 1))] ]) ].

Definition signup_bob : json :=
  JObj [ ("name", JStr "Bob");
         ("email", JStr "bob@example.com");
         ("password", JStr "secret") ].

Definition signup_short_password : json :=
  JObj [ ("name", JStr "Bob");
         ("email", JStr "bob@example.com");
         ("password", JStr "abc") ].

(** The edit form of the seed product, with its second variant removed
    and the first renamed. *)
Definition edited_tee : FormValues :=
  {| f_title := "Sample T-Shirt";
     f_description :=
       "<p>A comfy cotton t-shirt inspired by Shopify.</p><p>Perfect for devs.</p>";
     f_vendor := "Dev Merch Co.";
     f_product_type := Some " Shirt ";
     f_tags := Some "tshirt, dev, cotton";
     f_images :=
       [ {| fi_id := Some "img-1";
            fi_src := "https://images.pexels.com/photos/7671166/pexels-photo-7671166.jpeg";
            fi_alt := Some "" |} ];
     f_variants :=
       [ {| fv_id := Some "var-1"; fv_title := Some "Black / Medium";
            fv_sku := Some "TSHIRT-BLK-M"; fv_price := 1999 # 100 |} ] |}.

End MoreExamples.

(** * Properties *)

(** ** Reading the document *)

Section ProductStoreFacts.
Context `{Runtime}.
Import ProductStore.

Lemma ensureDataFileExists_existing (w : World) (d : document) :
  file w = Some d -> ensureDataFileExists w = w.
Proof. unfold ensureDataFileExists. by intros ->. Qed.

Lemma readProductsFromFile_array (w : World) (l : list ShopifyProduct) :
  file w = Some (ProductArray l) -> readProductsFromFile w = (l, w).
Proof.
  intros Hf. unfold readProductsFromFile.
  rewrite (ensureDataFileExists_existing w _ Hf). by rewrite Hf.
Qed.

(** [Math.min] returns one of its arguments, below all of them. *)
Lemma Number_ltb_lt (a b : number) : Number.ltb a b = true <-> Number.lt a b.
Proof.
  destruct a as [x| |], b as [y| |]; simpl; try done.
  rewrite negb_true_iff. split.
  - intros Hle. apply Qnot_le_lt. intros Hyx.
    apply Qle_bool_iff in Hyx. congruence.
  - intros Hlt. destruct (Qle_bool y x) eqn:E; [|done].
    apply Qle_bool_iff in E. by apply Qlt_not_le in Hlt.
Qed.

Lemma Number_leb_le (a b : number) : Number.leb a b = true <-> Number.le a b.
Proof.
  unfold Number.leb.
  destruct a as [x| |], b as [y| |]; simpl; try done.
  rewrite negb_involutive. apply Qle_bool_iff.
Qed.

Lemma Number_le_refl (a : number) : Number.le a a.
Proof. destruct a; simpl; [apply Qle_refl | done..]. Qed.

Lemma Number_le_trans (a b c : number) :
  Number.le a b -> Number.le b c -> Number.le a c.
Proof.
  destruct a, b, c; simpl; try done. apply Qle_trans.
Qed.

Lemma Number_lt_le (a b : number) : Number.lt a b -> Number.le a b.
Proof. destruct a, b; simpl; try done. apply Qlt_le_weak. Qed.

Lemma Number_min_cases (x y : number) :
  Number.min x y = x \/ Number.min x y = y.
Proof. unfold Number.min. destruct (Number.leb x y); auto. Qed.

Lemma Number_le_min_l (x y : number) : Number.le (Number.min x y) x.
Proof.
  unfold Number.min. destruct (Number.leb x y) eqn:E.
  - apply Number_le_refl.
  - unfold Number.leb in E. apply negb_false_iff in E.
    by apply Number_lt_le, Number_ltb_lt.
Qed.

Lemma Number_le_min_r (x y : number) : Number.le (Number.min x y) y.
Proof.
  unfold Number.min. destruct (Number.leb x y) eqn:E.
  - by apply Number_leb_le.
  - apply Number_le_refl.
Qed.

Lemma Math_min_elem (xs : list number) (x : number) :
  Math_min x xs ∈ x :: xs.
Proof.
  unfold Math_min. revert x.
  induction xs as [|y xs IH]; intros x; simpl; [set_solver|].
  pose proof (IH (Number.min x y)) as Hin.
  apply elem_of_cons in Hin as [-> | Hin]; [|set_solver].
  destruct (Number_min_cases x y) as [-> | ->]; set_solver.
Qed.

Lemma Math_min_le_init (xs : list number) (x : number) :
  Number.le (Math_min x xs) x.
Proof.
  unfold Math_min. revert x.
  induction xs as [|y xs IH]; intros x; simpl; [apply Number_le_refl|].
  eapply Number_le_trans; [apply IH | apply Number_le_min_l].
Qed.

Lemma Math_min_lower (xs : list number) (x y : number) :
  y ∈ x :: xs -> Number.le (Math_min x xs) y.
Proof.
  revert x. induction xs as [|z xs IH]; intros x Hy.
  - apply list_elem_of_singleton in Hy as ->. apply Number_le_refl.
  - change (Math_min x (z :: xs)) with (Math_min (Number.min x z) xs).
    apply elem_of_cons in Hy as [-> | Hy].
    + eapply Number_le_trans; [apply Math_min_le_init | apply Number_le_min_l].
    + apply elem_of_cons in Hy as [-> | Hy].
      * eapply Number_le_trans;
          [apply Math_min_le_init | apply Number_le_min_r].
      * apply IH. set_solver.
Qed.

Lemma with_min_price_spec (p : ShopifyProduct) :
  is_min_price p (min_price (with_min_price p)).
Proof.
  unfold is_min_price, with_min_price; simpl.
  destruct (p_variants p) as [|v vs] eqn:E; [done|].
  set (price := fun v : ShopifyVariant => ToNumber (v_price v)).
  change (price <$> v :: vs) with (price v :: (price <$> vs)).
  cbv iota. split.
  - pose proof (Math_min_elem (price <$> vs) (price v)) as Hin.
    change (price v :: (price <$> vs)) with (price <$> v :: vs) in Hin.
    apply list_elem_of_fmap in Hin as (u & -> & Hu). eauto.
  - intros u Hu. apply Math_min_lower.
    change (price v :: (price <$> vs)) with (price <$> v :: vs).
    apply (list_elem_of_fmap_2 price). exact Hu.
Qed.

(** What is written keeps everything but the numbers that are not
    finite, and writing it again changes nothing more. *)
Lemma stringify_number_idem (x : orNull number) :
  stringify_number (stringify_number x) = stringify_number x.
Proof. by destruct x as [|[]]. Qed.

Lemma written_variant_idem (v : ShopifyVariant) :
  written_variant (written_variant v) = written_variant v.
Proof.
  destruct v as [? ? ? price cap inv ? ? ?]. unfold written_variant. simpl.
  rewrite stringify_number_idem. f_equal.
  - destruct cap; simpl; by rewrite ?stringify_number_idem.
  - destruct inv; simpl; by rewrite ?stringify_number_idem.
Qed.

Lemma written_image_idem (i : ShopifyImage) :
  written_image (written_image i) = written_image i.
Proof.
  destruct i as [? ? ? width height]. unfold written_image. simpl. f_equal.
  - destruct width; simpl; by rewrite ?stringify_number_idem.
  - destruct height; simpl; by rewrite ?stringify_number_idem.
Qed.

Lemma written_idem (p : ShopifyProduct) : written (written p) = written p.
Proof.
  destruct p as [? ? ? ? ? ? ? images variants ? ? ?].
  unfold written. simpl. f_equal.
  - destruct images as [images|]; [|done]. simpl. f_equal.
    rewrite <- list_fmap_compose. apply list_fmap_ext.
    intros _ i _. apply written_image_idem.
  - rewrite <- list_fmap_compose. apply list_fmap_ext.
    intros _ v _. apply written_variant_idem.
Qed.

Lemma written_all_idem (l : list ShopifyProduct) :
  written <$> (written <$> l) = written <$> l.
Proof.
  rewrite <- list_fmap_compose. apply list_fmap_ext.
  intros _ p _. apply written_idem.
Qed.

Lemma written_ids (l : list ShopifyProduct) :
  p_id <$> (written <$> l) = p_id <$> l.
Proof. by rewrite <- list_fmap_compose. Qed.

Lemma written_created_at (l : list ShopifyProduct) :
  p_created_at <$> (written <$> l) = p_created_at <$> l.
Proof. by rewrite <- list_fmap_compose. Qed.

Lemma written_seed (now : string) :
  written <$> createSeedProducts now = createSeedProducts now.
Proof. reflexivity. Qed.

(** The first product with an identifier is at the same place in what
    is written. *)
Lemma list_find_written (l : list ShopifyProduct) (id : string) :
  list_find (fun p => p_id p = id) (written <$> l)
  = prod_map Datatypes.id written
      <$> list_find (fun p => p_id p = id) l.
Proof.
  rewrite list_find_fmap.
  destruct (list_find (fun p => p_id p = id) l) as [[i p]|] eqn:E.
  - rewrite (list_find_ext _ (fun p => p_id p = id) l) by done.
    by rewrite E.
  - rewrite (list_find_ext _ (fun p => p_id p = id) l) by done.
    by rewrite E.
Qed.

(** C5. On a document that holds the products [l], [listProducts]
    returns the products of [l], all of them and in the order of the
    document, each with a [min_price] that is 0 when the product has no
    variant and otherwise the least of its variants' prices, a price
    that the document holds as null counting as 0; the document is left
    as it is. *)
Theorem listProducts_stored_order_min_price
    (w : World) (l : list ShopifyProduct) :
  file w = Some (ProductArray l) ->
  (listProducts w).2 = w
  /\ item <$> (listProducts w).1 = l
  /\ forall i it, (listProducts w).1 !! i = Some it ->
       l !! i = Some (item it) /\ is_min_price (item it) (min_price it).
Proof.
  intros Hf. unfold listProducts.
  rewrite (readProductsFromFile_array w l Hf). simpl.
  split; [done|]. split.
  - clear Hf. induction l as [|p l' IH]; [done|].
    simpl. by f_equal.
  - intros i it Hit. rewrite list_lookup_fmap in Hit.
    destruct (l !! i) as [p|] eqn:Hp; [|done].
    injection Hit as <-. split; [done | apply with_min_price_spec].
Qed.

(** ** Finding a product by its identifier *)

Lemma find_product (l : list ShopifyProduct) (id : string) :
  (exists p, p ∈ l /\ p_id p = id) ->
  exists idx existing,
    list_find (fun p => p_id p = id) l = Some (idx, existing)
    /\ l !! idx = Some existing /\ p_id existing = id
    /\ forall j q, j < idx -> l !! j = Some q -> p_id q <> id.
Proof.
  intros (p & Hp & Hid).
  destruct (list_find_elem_of (fun p => p_id p = id) l p Hp Hid)
    as [[idx existing] Hfind].
  exists idx, existing. split; [done|].
  apply list_find_Some in Hfind as (Hl & He & Hmin).
  repeat split; [done..|]. intros j q Hj Hq. by apply (Hmin j q).
Qed.

Lemma find_no_product (l : list ShopifyProduct) (id : string) :
  (forall p, p ∈ l -> p_id p <> id) ->
  list_find (fun p => p_id p = id) l = None.
Proof. intros Hno. apply list_find_None, Forall_forall. exact Hno. Qed.

(** ** Updating *)

Lemma merge_variants_cons (existing vs : list ShopifyVariant)
    (v : ShopifyVariant) (i n : nat) :
  merge_variants existing (v :: vs) i n
  = match kept_id existing i with
    | Some kept =>
        let r := merge_variants existing vs (S i) n in
        (with_id v kept :: r.1, r.2)
    | None =>
        let r := merge_variants existing vs (S i) (S n) in
        (with_id v (randomUUID n) :: r.1, r.2)
    end.
Proof. reflexivity. Qed.

Lemma merge_variants_spec (existing vs : list ShopifyVariant) (i n : nat) :
  (merge_variants existing vs i n).2 = n + draws existing i (length vs)
  /\ length (merge_variants existing vs i n).1 = length vs
  /\ forall j v, vs !! j = Some v ->
       (merge_variants existing vs i n).1 !! j
       = Some (with_id v (default (randomUUID (n + draws existing i j))
                                  (kept_id existing (i + j)))).
Proof.
  revert i n. induction vs as [|v vs IH]; intros i n.
  { simpl. unfold draws. simpl. repeat split; [lia | done]. }
  assert (Hd : forall k, draws existing i (S k)
               = (if kept_id existing i is None then 1 else 0)
                 + draws existing (S i) k).
  { intros k. unfold draws. simpl seq. rewrite filter_cons.
    destruct (kept_id existing i); by case_decide. }
  rewrite merge_variants_cons.
  destruct (kept_id existing i) as [kept|] eqn:Hk; simpl.
  - destruct (IH (S i) n) as (Hn & Hlen & Hget).
    split; [rewrite Hn, Hd; lia|]. split; [by rewrite Hlen|].
    intros [|j] u Hu; simpl in Hu; simpl.
    + injection Hu as <-. by rewrite (Nat.add_0_r i), Hk.
    + rewrite (Hget j u Hu), Hd. simpl.
      by replace (i + S j) with (S i + j) by lia.
  - destruct (IH (S i) (S n)) as (Hn & Hlen & Hget).
    split; [rewrite Hn, Hd; lia|]. split; [by rewrite Hlen|].
    intros [|j] u Hu; simpl in Hu; simpl.
    + injection Hu as <-. rewrite (Nat.add_0_r i), Hk. simpl.
      unfold draws. simpl. by rewrite (Nat.add_0_r n).
    + rewrite (Hget j u Hu), Hd.
      replace (i + S j) with (S i + j) by lia.
      by replace (S n + draws existing (S i) j)
        with (n + (1 + draws existing (S i) j)) by lia.
Qed.

Lemma draws_le (existing : list ShopifyVariant) (i j k : nat) :
  j < k -> kept_id existing (i + j) = None ->
  draws existing i j < draws existing i k.
Proof.
  intros Hjk Hnone. unfold draws.
  replace k with (j + S (k - S j)) by lia.
  rewrite seq_app, filter_app, length_app. simpl seq.
  rewrite filter_cons. rewrite decide_True by done. simpl. lia.
Qed.

(** C1, as the code has it. When the payload supplies variants, the
    product returned and written to the document has one variant per
    incoming variant, with the incoming variant's fields; at a position
    where the stored product has a variant with an identifier the
    result carries that identifier, whether or not the incoming variant
    gave one, and at any other position it carries the value of a new
    call of the generator: an identifier of the payload is never used.
    The document then holds the products read, with the result in the
    place of the stored product, as [JSON.stringify] writes them. *)
Theorem updateProduct_variant_ids_by_position
    (w : World) (l : list ShopifyProduct) (id : string)
    (input : UpdateProductInput) (vs : list ShopifyVariant) :
  file w = Some (ProductArray l) ->
  (exists p, p ∈ l /\ p_id p = id) ->
  u_variants input = Some vs ->
  exists idx existing updated,
    l !! idx = Some existing /\ p_id existing = id
    /\ (updateProduct id input w).1 = Some updated
    /\ file (updateProduct id input w).2
       = Some (ProductArray (written <$> <[idx := updated]> l))
    /\ length (p_variants updated) = length vs
    /\ forall i v, vs !! i = Some v ->
         exists r, p_variants updated !! i = Some r
           /\ match kept_id (p_variants existing) i with
              | Some kept => r = with_id v kept
              | None =>
                  let k := uuids w + draws (p_variants existing) 0 i in
                  r = with_id v (randomUUID k)
                  /\ uuids w <= k < uuids (updateProduct id input w).2
              end.
Proof.
  intros Hf Hin Hvs.
  destruct (find_product l id Hin) as (idx & existing & Hfind & Hl & Hid & _).
  unfold updateProduct.
  rewrite (readProductsFromFile_array w l Hf), Hfind, Hvs.
  destruct (merge_variants_spec (p_variants existing) vs 0 (uuids w))
    as (Hn & Hlen & Hget).
  destruct (merge_variants (p_variants existing) vs 0 (uuids w))
    as [variants n] eqn:Hm. simpl in Hn, Hlen, Hget. simpl.
  eexists idx, existing, _. repeat split; [done..|].
  intros i v Hv. eexists. split; [exact (Hget i v Hv)|]. simpl.
  destruct (kept_id (p_variants existing) i) as [kept|] eqn:Hk; [done|].
  simpl. repeat split; [lia|]. rewrite Hn.
  apply Nat.add_lt_mono_l, draws_le; [|done].
  by apply lookup_lt_Some in Hv.
Qed.

(** C6. With the empty payload, [updateProduct] on a stored product
    returns that product with a new [updated_at] and every other field
    as stored, writes it at the product's position, and leaves every
    other product of the document as it was: the document holds as
    many products as before, each of the others being the one that was
    read at its position, as [JSON.stringify] writes it. *)
Theorem updateProduct_empty_payload
    (w : World) (l : list ShopifyProduct) (id : string) :
  file w = Some (ProductArray l) ->
  (exists p, p ∈ l /\ p_id p = id) ->
  exists idx existing updated,
    l !! idx = Some existing /\ p_id existing = id
    /\ (updateProduct id empty_update w).1 = Some updated
    /\ file (updateProduct id empty_update w).2
       = Some (ProductArray (written <$> <[idx := updated]> l))
    /\ p_updated_at updated = toISOString (ticks w)
    /\ (p_id updated = p_id existing
        /\ p_title updated = p_title existing
        /\ p_body_html updated = p_body_html existing
        /\ p_vendor updated = p_vendor existing
        /\ p_product_type updated = p_product_type existing
        /\ p_tags updated = p_tags existing
        /\ p_options updated = p_options existing
        /\ p_images updated = p_images existing
        /\ p_variants updated = p_variants existing
        /\ p_created_at updated = p_created_at existing
        /\ p_published_at updated = p_published_at existing)
    /\ length (stored (updateProduct id empty_update w).2) = length l
    /\ forall j, j <> idx ->
         stored (updateProduct id empty_update w).2 !! j
         = written <$> l !! j.
Proof.
  intros Hf Hin.
  destruct (find_product l id Hin) as (idx & existing & Hfind & Hl & Hid & _).
  unfold updateProduct.
  rewrite (readProductsFromFile_array w l Hf), Hfind. simpl.
  eexists idx, existing, _. repeat split; [done..| |].
  - unfold stored. simpl. by rewrite length_fmap, length_insert.
  - intros j Hj. unfold stored. simpl.
    by rewrite list_lookup_fmap, list_lookup_insert_ne.
Qed.

(** ** Deleting and looking up *)

Lemma readProductsFromFile_stored (w : World) :
  (readProductsFromFile w).1 = stored (readProductsFromFile w).2.
Proof.
  unfold readProductsFromFile, stored.
  by destruct (file (ensureDataFileExists w)) as [[]|] eqn:E;
    simpl; rewrite ?E.
Qed.

Lemma getProductById_array (w : World) (l : list ShopifyProduct)
    (id : string) :
  file w = Some (ProductArray l) ->
  (getProductById id w).1 = snd <$> list_find (fun p => p_id p = id) l.
Proof.
  intros Hf. unfold getProductById.
  by rewrite (readProductsFromFile_array w l Hf).
Qed.

(** C7. On a document that holds a product with the identifier,
    [deleteProduct] returns true and writes the document without the
    first product that has it, the products before and after it kept
    in their order and written as [JSON.stringify] writes them; when
    identifiers are unique in the document, as the data model has it,
    [getProductById] then finds nothing. On a document without such a
    product it returns false and nothing changes. *)
Theorem deleteProduct_removes_or_refuses
    (w : World) (l : list ShopifyProduct) (id : string) :
  file w = Some (ProductArray l) ->
  ((exists p, p ∈ l /\ p_id p = id) ->
     exists l1 p l2,
       l = l1 ++ p :: l2 /\ p_id p = id
       /\ (forall q, q ∈ l1 -> p_id q <> id)
       /\ (deleteProduct id w).1 = true
       /\ file (deleteProduct id w).2
          = Some (ProductArray (written <$> (l1 ++ l2)))
       /\ (NoDup (p_id <$> l) ->
             (getProductById id (deleteProduct id w).2).1 = None))
  /\ ((forall p, p ∈ l -> p_id p <> id) ->
        deleteProduct id w = (false, w)).
Proof.
  intros Hf. split.
  - intros Hin.
    destruct (find_product l id Hin)
      as (idx & p & Hfind & Hl & Hid & Hmin).
    assert (Hbefore : forall q, q ∈ take idx l -> p_id q <> id).
    { intros q Hq. apply elem_of_take in Hq as (j & Hj & Hlt).
      by apply (Hmin j q). }
    assert (Hdel : deleteProduct id w
                   = (true, writeProductsToFile (delete idx l) w)).
    { unfold deleteProduct.
      by rewrite (readProductsFromFile_array w l Hf), Hfind. }
    exists (take idx l), p, (drop (S idx) l).
    rewrite Hdel. cbn [fst snd].
    split; [by rewrite take_drop_middle|].
    repeat split; [done.. | simpl; by rewrite delete_take_drop |].
    intros Hnd.
    rewrite (getProductById_array
               (writeProductsToFile (delete idx l) w)
               (written <$> delete idx l) id)
      by done.
    rewrite list_find_written, find_no_product; [done|].
    rewrite delete_take_drop.
    intros q Hq. apply elem_of_app in Hq as [Hq | Hq]; [by apply Hbefore|].
    rewrite <- (take_drop_middle l idx p Hl) in Hnd.
    rewrite fmap_app, fmap_cons in Hnd.
    apply NoDup_app in Hnd as (_ & _ & Hnd).
    apply NoDup_cons in Hnd as [Hnotin _].
    intros Hqid. apply Hnotin. rewrite Hid, <- Hqid.
    by apply list_elem_of_fmap_2.
  - intros Hno. unfold deleteProduct.
    by rewrite (readProductsFromFile_array w l Hf), (find_no_product l id Hno).
Qed.

(** C3, as the code has it. [getProductById] returns the first product
    of the document that has the identifier, or nothing when the
    document has none. A document that exists is left as it is; when
    the file does not exist yet, the call creates it, with the seed
    product stamped with the time of the call, and answers from it. *)
Theorem getProductById_result_and_document (w : World) (id : string) :
  (forall p, (getProductById id w).1 = Some p ->
     p_id p = id
     /\ exists idx,
          stored (getProductById id w).2 !! idx = Some p
          /\ forall j q, j < idx ->
               stored (getProductById id w).2 !! j = Some q ->
               p_id q <> id)
  /\ ((getProductById id w).1 = None ->
       forall p, p ∈ stored (getProductById id w).2 -> p_id p <> id)
  /\ match file w with
     | Some _ => (getProductById id w).2 = w
     | None =>
         (getProductById id w).2
         = {| file := Some (ProductArray
                              (createSeedProducts (toISOString (ticks w))));
              uuids := uuids w;
              ticks := S (ticks w) |}
     end.
Proof.
  unfold getProductById.
  pose proof (readProductsFromFile_stored w) as Hst.
  destruct (readProductsFromFile w) as [products w1] eqn:Hr.
  simpl in Hst. subst products. simpl. split; [|split].
  - intros p Hp.
    destruct (list_find _ _) as [[i q]|] eqn:Hfind; [|done].
    simpl in Hp. injection Hp as <-.
    apply list_find_Some in Hfind as (Hl & Hq & Hmin).
    split; [done|]. exists i. split; [done|].
    intros j q' Hj Hq'. by apply (Hmin j q').
  - intros Hnone q Hq.
    destruct (list_find _ _) as [[i q']|] eqn:Hfind; [done|].
    apply list_find_None in Hfind.
    by apply (proj1 (Forall_forall _ _) Hfind q).
  - unfold readProductsFromFile, ensureDataFileExists in Hr.
    destruct (file w) as [d|] eqn:Hf.
    + rewrite Hf in Hr. by destruct d; injection Hr as _ <-.
    + simpl in Hr. by injection Hr as _ <-.
Qed.

(** ** Creating *)

Lemma fresh_variants_spec (vs : list ShopifyVariant) (n : nat) :
  (fresh_variants vs n).2 = n + length vs
  /\ length (fresh_variants vs n).1 = length vs
  /\ omap v_id (fresh_variants vs n).1 = randomUUID <$> seq n (length vs)
  /\ forall j v, vs !! j = Some v ->
       (fresh_variants vs n).1 !! j = Some (with_id v (randomUUID (n + j))).
Proof.
  revert n. induction vs as [|v vs IH]; intros n.
  { simpl. repeat split; [lia | done]. }
  destruct (IH (S n)) as (Hn & Hlen & Hids & Hget).
  change (fresh_variants (v :: vs) n)
    with (with_id v (randomUUID n) :: (fresh_variants vs (S n)).1,
          (fresh_variants vs (S n)).2).
  cbn [fst snd length]. split; [lia|]. split; [by rewrite Hlen|].
  split; [cbn; by rewrite Hids|].
  intros [|j] u Hu; simpl in Hu; simpl.
  - injection Hu as <-. by rewrite Nat.add_0_r.
  - rewrite (Hget j u Hu). by replace (n + S j) with (S n + j) by lia.
Qed.

Lemma readProductsFromFile_uuids (w : World) :
  uuids (readProductsFromFile w).2 = uuids w.
Proof.
  unfold readProductsFromFile, ensureDataFileExists.
  by destruct (file w) as [[]|] eqn:E; simpl; rewrite ?E.
Qed.

(** C2, as the code has it. [createProduct] returns a product whose
    identifier is the value of a new call of the generator and whose
    variants are the payload's, each under the value of one more call,
    whether or not the payload gave it an identifier; [created_at] and
    [updated_at] are the time of the operation; [published_at] is the
    payload's when that is a timestamp, and the time of the operation
    when the payload omits it or gives null; the other fields are the
    payload's. The document is rewritten with the products read
    followed by the new one, as [JSON.stringify] writes them. *)
Theorem createProduct_fresh_ids_timestamps_appended
    (input : CreateProductInput) (w : World) :
  let products := (readProductsFromFile w).1 in
  let now := toISOString (ticks (readProductsFromFile w).2) in
  let product := (createProduct input w).1 in
  p_id product :: omap v_id (p_variants product)
    = randomUUID <$> seq (uuids w) (S (length (c_variants input)))
  /\ uuids (createProduct input w).2
     = uuids w + S (length (c_variants input))
  /\ length (p_variants product) = length (c_variants input)
  /\ (forall i v, c_variants input !! i = Some v ->
        p_variants product !! i
        = Some (with_id v (randomUUID (S (uuids w) + i))))
  /\ p_created_at product = now
  /\ p_updated_at product = now
  /\ p_published_at product
     = notNull match c_published_at input with
               | notNull (Some timestamp) => timestamp
               | notNull None | null => now
               end
  /\ (p_title product = c_title input
      /\ p_body_html product = c_body_html input
      /\ p_vendor product = c_vendor input
      /\ p_product_type product = c_product_type input
      /\ p_tags product = c_tags input
      /\ p_options product = c_options input
      /\ p_images product = c_images input)
  /\ file (createProduct input w).2
     = Some (ProductArray (written <$> (products ++ [product]))).
Proof.
  unfold createProduct.
  pose proof (readProductsFromFile_uuids w) as Hu.
  destruct (readProductsFromFile w) as [products w1]. simpl in Hu.
  rewrite Hu.
  destruct (fresh_variants_spec (c_variants input) (S (uuids w)))
    as (Hn & Hlen & Hids & Hget).
  destruct (fresh_variants (c_variants input) (S (uuids w)))
    as [variants n]. simpl in Hn, Hlen, Hids, Hget. simpl.
  repeat split; try done.
  - by rewrite Hids.
  - lia.
Qed.

End ProductStoreFacts.

(** ** What the schemas accept and reject *)

Section SchemaFacts.
Context `{Zod.Formats}.
Import Zod ProductSchemas.

Lemma ap_Success {A B} (f : SafeParseReturn (A -> B))
    (x : SafeParseReturn A) (b : B) :
  f <*> x = Success b ->
  exists g a, f = Success g /\ x = Success a /\ b = g a.
Proof.
  destruct f as [g|e], x as [a|e']; simpl; intros Hb; try discriminate.
  injection Hb as <-. eauto.
Qed.

Lemma Success_inj {A} (a b : A) :
  @Success A a = Success b -> a = b.
Proof. congruence. Qed.

(** Inverts a chain [Success C <*> x1 <*> ... <*> xn = Success v]. *)
Ltac invert_ap Hp :=
  repeat
    (let g := fresh "g" in
     let a := fresh "a" in
     let Ha := fresh "Ha" in
     apply ap_Success in Hp as (g & a & Hp & Ha & ->));
  apply Success_inj in Hp as <-.

Lemma run_checks_nil {A} (cs : list (check A)) (a : A) (p : list seg) :
  run_checks cs a p = [] <-> Forall (fun c => holds c a = true) cs.
Proof.
  unfold run_checks. induction cs as [|c cs IH]; simpl.
  - split; [constructor | done].
  - destruct (holds c a) eqn:Hc; simpl.
    + rewrite IH. split; [by constructor|]. by inversion 1.
    + split; [done|]. inversion 1; congruence.
Qed.

Lemma checked_Success {A} (cs : list (check A)) (a r : A) (p : list seg) :
  checked cs a p = Success r ->
  r = a /\ Forall (fun c => holds c a = true) cs.
Proof.
  unfold checked. destruct (run_checks cs a p) eqn:E; [|done].
  intros [= <-]. split; [done|]. by apply (run_checks_nil cs a p).
Qed.

Lemma checked_ok {A} (cs : list (check A)) (a : A) (p : list seg) :
  Forall (fun c => holds c a = true) cs -> checked cs a p = Success a.
Proof.
  intros Hcs. unfold checked.
  by rewrite (proj2 (run_checks_nil cs a p) Hcs).
Qed.

Lemma checked_fails {A} (cs : list (check A)) (a : A) (p : list seg)
    (c : check A) :
  c ∈ cs -> holds c a = false ->
  fails_with (checked cs a p) {| path := p; message := msg c |}.
Proof.
  intros Hc Hf.
  assert (Hin : {| path := p; message := msg c |} ∈ run_checks cs a p).
  { unfold run_checks. apply list_elem_of_omap. exists c.
    by rewrite Hf. }
  unfold checked. destruct (run_checks cs a p) as [|i e] eqn:E.
  - by apply not_elem_of_nil in Hin.
  - by exists (i :: e).
Qed.

Lemma optional_Success {A} (s : schema A) (j : option json)
    (p : list seg) (o : option A) :
  optional s j p = Success o ->
  match o with
  | None => True
  | Some a => s j p = Success a
  end.
Proof.
  unfold optional. destruct j as [x|]; [|by intros [= <-]].
  intros Hp. invert_ap Hp. done.
Qed.

(** *** A parsed payload has variants, and their prices are positive *)

Lemma positive_holds (m : string) (n : number) :
  holds (positive m) n = true <-> Number.lt 0 n.
Proof. apply Number_ltb_lt. Qed.

Lemma variantSchema_price (j : option json) (p : list seg)
    (v : ShopifyVariant) :
  variantSchema j p = Success v -> above_zero (v_price v).
Proof.
  unfold variantSchema, z_object.
  destruct j as [[]|]; try discriminate. intros Hp.
  invert_ap Hp. simpl.
  unfold field, z_number_msg in Ha4.
  destruct (prop "price" kv) as [[]|]; try discriminate.
  apply checked_Success in Ha4 as [-> Hcs].
  apply (positive_holds "Price must be greater than 0").
  by inversion Hcs.
Qed.

Lemma parse_items_Success {A} (s : schema A) (P : A -> Prop)
    (l : list json) (i : nat) (p : list seg) (r : list A) :
  (forall j q a, s j q = Success a -> P a) ->
  parse_items s l i p = Success r ->
  length r = length l /\ Forall P r.
Proof.
  intros HP. revert i r. induction l as [|x l IH]; intros i r; simpl.
  - by intros [= <-].
  - intros Hr. invert_ap Hr.
    destruct (IH _ _ Ha) as [Hlen Hall]. simpl.
    split; [by rewrite Hlen|]. constructor; [|done]. by eapply HP.
Qed.

Lemma variants_schema_Success (j : option json) (p : list seg)
    (vs : list ShopifyVariant) :
  variants_schema j p = Success vs ->
  vs <> [] /\ Forall (fun v => above_zero (v_price v)) vs.
Proof.
  unfold variants_schema, z_array.
  destruct j as [[]|]; try discriminate. intros Hp.
  invert_ap Hp.
  apply checked_Success in Ha0 as [-> Hcs].
  destruct (parse_items_Success variantSchema
              (fun v => above_zero (v_price v)) _ _ _ _ variantSchema_price Ha)
    as [Hlen Hall].
  split; [|done]. intros ->.
  inversion Hcs as [|c cs Hc _]; subst. simpl in Hc, Hlen.
  rewrite <- Hlen in Hc. discriminate.
Qed.

Lemma createProductSchema_variants (body : json)
    (input : CreateProductInput) :
  safeParse createProductSchema body = Success input ->
  c_variants input <> []
  /\ Forall (fun v => above_zero (v_price v)) (c_variants input).
Proof.
  unfold safeParse, createProductSchema, z_object.
  destruct body; try discriminate. intros Hp.
  invert_ap Hp. simpl.
  by apply variants_schema_Success in Ha0.
Qed.

Lemma updateProductSchema_variants (body : json)
    (input : UpdateProductInput) (vs : list ShopifyVariant) :
  safeParse updateProductSchema body = Success input ->
  u_variants input = Some vs ->
  vs <> [] /\ Forall (fun v => above_zero (v_price v)) vs.
Proof.
  unfold safeParse, updateProductSchema, z_object.
  destruct body; try discriminate. intros Hp.
  invert_ap Hp. simpl. intros ->.
  apply optional_Success in Ha0.
  by apply variants_schema_Success in Ha0.
Qed.

(** *** Rejections *)

Lemma fails_with_ap_l {A B} (f : SafeParseReturn (A -> B))
    (x : SafeParseReturn A) (i : ZodIssue) :
  fails_with f i -> fails_with (f <*> x) i.
Proof.
  intros (e & -> & Hi). destruct x as [a|e']; unfold ap.
  - by exists e.
  - exists (e ++ e'). split; [done|]. apply elem_of_app. by left.
Qed.

Lemma fails_with_ap_r {A B} (f : SafeParseReturn (A -> B))
    (x : SafeParseReturn A) (i : ZodIssue) :
  fails_with x i -> fails_with (f <*> x) i.
Proof.
  intros (e & -> & Hi). destruct f as [g|e']; unfold ap.
  - by exists e.
  - exists (e' ++ e). split; [done|]. apply elem_of_app. by right.
Qed.

(** Finds the key of an object that fails. *)
Ltac blame_key Hk :=
  repeat first
    [ apply fails_with_ap_r; exact Hk
    | apply fails_with_ap_l ].

Lemma parse_items_fails {A} (s : schema A) (l : list json) (k i : nat)
    (p : list seg) (x : json) (iss : ZodIssue) :
  l !! i = Some x ->
  fails_with (s (Some x) (p ++ [Idx (k + i)])) iss ->
  fails_with (parse_items s l k p) iss.
Proof.
  revert k i. induction l as [|y l IH]; intros k i Hx Hs; [done|].
  simpl. destruct i as [|i]; simpl in Hx.
  - injection Hx as ->. rewrite Nat.add_0_r in Hs.
    by apply fails_with_ap_l, fails_with_ap_r.
  - apply fails_with_ap_r, (IH (S k) i Hx).
    by replace (S k + i) with (k + S i) by lia.
Qed.

Lemma required_string_fails (m : string) (j : option json) (p : list seg) :
  j = None \/ j = Some (JStr "") ->
  exists m', fails_with (z_string [min 1 m] j p)
               {| path := p; message := m' |}.
Proof.
  intros [-> | ->].
  - exists "Required". exists [invalid_type "string" None p].
    split; [done | by apply list_elem_of_singleton].
  - exists m. simpl. by apply (checked_fails [min 1 m] "" p (min 1 m));
      [apply list_elem_of_singleton|].
Qed.

Lemma no_variants_fails (j : option json) (p : list seg) :
  j = None \/ j = Some (JArr []) ->
  exists m, fails_with (variants_schema j p) {| path := p; message := m |}.
Proof.
  intros [-> | ->].
  - exists "Required". exists [invalid_type "array" None p].
    split; [done | by apply list_elem_of_singleton].
  - exists "At least one variant is required".
    unfold variants_schema, z_array.
    apply fails_with_ap_l, fails_with_ap_r.
    by apply (checked_fails _ [] p
                (nonempty "At least one variant is required"));
      [apply list_elem_of_singleton|].
Qed.

Lemma price_not_positive_fails (v : list (string * json)) (q : number)
    (p : list seg) :
  prop "price" v = Some (JNum q) -> Number.le q 0 ->
  fails_with (variantSchema (Some (JObj v)) p)
    {| path := p ++ [Key "price"];
       message := "Price must be greater than 0" |}.
Proof.
  intros Hprice Hq. unfold variantSchema, z_object.
  assert (Hk : fails_with
             (field v p "price"
                (z_number_msg "Price is required" "Price must be a number"
                   [positive "Price must be greater than 0"]))
             {| path := p ++ [Key "price"];
                message := "Price must be greater than 0" |}).
  { unfold field, z_number_msg. rewrite Hprice.
    apply (checked_fails _ q _ (positive "Price must be greater than 0"));
      [by apply list_elem_of_singleton|].
    change (Number.ltb 0 q = false). apply negb_true_iff.
    change (Number.leb q 0 = true). by apply Number_leb_le. }
  blame_key Hk.
Qed.

(** *** Acceptance *)

Lemma prop_object_absent (k : string)
    (fields : list (string * option json)) :
  k ∉ fields.*1 ->
  prop k (omap (fun kf => pair kf.1 <$> kf.2) fields) = None.
Proof.
  induction fields as [|[k' o] fields IH]; [done|].
  rewrite fmap_cons, not_elem_of_cons. intros [Hne Hnotin].
  simpl. destruct o as [j|]; simpl; [|by apply IH].
  destruct (String.eqb_spec k k'); [done | by apply IH].
Qed.

Lemma prop_object (k : string) (fields : list (string * option json)) :
  NoDup fields.*1 ->
  prop k (omap (fun kf => pair kf.1 <$> kf.2) fields)
  = field_value k fields.
Proof.
  induction fields as [|[k' o] fields IH]; [done|].
  rewrite fmap_cons, NoDup_cons. intros [Hnotin Hnd]. simpl.
  destruct (String.eqb_spec k k') as [-> | Hne].
  - destruct o as [j|]; simpl.
    + by rewrite String.eqb_refl.
    + by apply prop_object_absent.
  - destruct o as [j|]; simpl; [|by apply IH].
    destruct (String.eqb_spec k k'); [done | by apply IH].
Qed.

Lemma z_object_object {A}
    (shape : list (string * json) -> list seg -> SafeParseReturn A)
    (fields : list (string * option json)) (p : list seg) :
  z_object shape (Some (object fields)) p
  = shape (omap (fun kf => pair kf.1 <$> kf.2) fields) p.
Proof. reflexivity. Qed.

Lemma field_object {A} (fields : list (string * option json))
    (p : list seg) (k : string) (s : schema A) :
  NoDup fields.*1 ->
  field (omap (fun kf => pair kf.1 <$> kf.2) fields) p k s
  = s (field_value k fields) (p ++ [Key k]).
Proof. intros Hnd. unfold field. by rewrite prop_object. Qed.

Lemma ap_pure {A B} (f : A -> B) (a : A) :
  Success f <*> Success a = Success (f a).
Proof. reflexivity. Qed.

Lemma optional_ok {A} (s : schema A) (f : A -> json) (o : option A)
    (p : list seg) :
  (forall a, o = Some a -> s (Some (f a)) p = Success a) ->
  optional s (f <$> o) p = Success o.
Proof.
  intros Hs. destruct o as [a|]; [|done].
  simpl. by rewrite (Hs a eq_refl).
Qed.

Lemma parse_items_ok {A} (s : schema A) (f : A -> json) (l : list A)
    (i : nat) (p : list seg) :
  (forall a q, a ∈ l -> s (Some (f a)) q = Success a) ->
  parse_items s (f <$> l) i p = Success l.
Proof.
  revert i. induction l as [|a l IH]; intros i Hs; [done|].
  rewrite fmap_cons. simpl.
  rewrite (Hs a _ (list_elem_of_here a l)), IH; [done|].
  intros b q Hb. apply Hs. by apply list_elem_of_further.
Qed.

Lemma z_array_ok {A} (s : schema A) (cs : list (check (list json)))
    (f : A -> json) (l : list A) (p : list seg) :
  Forall (fun c => holds c (f <$> l) = true) cs ->
  (forall a q, a ∈ l -> s (Some (f a)) q = Success a) ->
  z_array s cs (Some (JArr (f <$> l))) p = Success l.
Proof.
  intros Hcs Hs. unfold z_array.
  by rewrite (checked_ok cs _ p Hcs), (parse_items_ok s f l 0 p Hs).
Qed.

Lemma strings_ok (l : list string) (p : list seg) :
  z_array (z_string []) [] (Some (strings_json l)) p = Success l.
Proof. by apply z_array_ok. Qed.

Lemma natural_holds (n : number) :
  natural n -> Forall (fun c => holds c n = true) [int; nonnegative].
Proof.
  intros (q & k & -> & Hk). unfold Qeq in Hk. simpl in Hk.
  rewrite Z.mul_1_r in Hk.
  repeat constructor; simpl.
  - rewrite Hk. apply Z.eqb_eq, Z.rem_mul. done.
  - apply Number_leb_le. simpl.
    unfold Qle. simpl. rewrite Z.mul_1_r, Hk. lia.
Qed.

(** A number field of a payload that holds a number parses to it. *)
Lemma optional_number_ok (cs : list (check number))
    (x : option (orNull number)) (p : list seg) :
  (forall y, x = Some y ->
     exists n, y = notNull n /\ Forall (fun c => holds c n = true) cs) ->
  exists o,
    optional (z_number cs) (number_json <$> x) p = Success o
    /\ notNull <$> o = x.
Proof.
  intros Hx. destruct x as [y|]; [|by exists None].
  destruct (Hx y eq_refl) as (n & -> & Hcs).
  exists (Some n). split; [|done].
  simpl. by rewrite (checked_ok cs n p Hcs).
Qed.

(** Closes the side conditions that the keys of an object differ. *)
Ltac distinct_keys := by apply (bool_decide_unpack _); vm_compute.

Lemma variantSchema_ok (v : ShopifyVariant) (p : list seg) :
  above_zero (v_price v) ->
  (forall n, v_inventory_quantity v = Some n -> is_natural n) ->
  variantSchema (Some (variant_json v)) p = Success v.
Proof.
  intros Hprice Hinv. unfold variantSchema, variant_json.
  rewrite z_object_object, !field_object by distinct_keys.
  simpl field_value.
  rewrite !(optional_ok (z_string []) JStr) by done.
  rewrite !(optional_ok z_boolean JBool) by done.
  rewrite (optional_ok (z_array (z_string []) []) strings_json)
    by (intros; apply strings_ok).
  rewrite (optional_ok (nullable (z_number [])) number_json)
    by (by intros []).
  destruct (optional_number_ok [int; nonnegative] (v_inventory_quantity v)
              (p ++ [Key "inventory_quantity"])) as (o & -> & Ho).
  { intros y Hy. specialize (Hinv y Hy). destruct y as [|n]; [done|].
    exists n. split; [done | by apply natural_holds]. }
  destruct v as [? ? ? price ? inv ? ? ?]. simpl in *.
  destruct price as [|n]; [done|]. simpl number_json.
  unfold z_number_msg.
  rewrite (checked_ok [positive "Price must be greater than 0"])
    by (repeat constructor; by apply positive_holds).
  rewrite !ap_pure. by rewrite Ho.
Qed.

Lemma optionSchema_ok (o : ShopifyOption) (p : list seg) :
  o_name o <> "" -> o_values o <> [] ->
  optionSchema (Some (option_json o)) p = Success o.
Proof.
  intros Hname Hvalues. unfold optionSchema, option_json.
  rewrite z_object_object, !field_object by distinct_keys.
  simpl field_value.
  rewrite !(optional_ok (z_string []) JStr) by done.
  assert (Hn : z_string [min 1 "Option name is required"]
                 (Some (JStr (o_name o))) (p ++ [Key "name"])
               = Success (o_name o)).
  { apply checked_ok. repeat constructor. simpl.
    by destruct (o_name o). }
  assert (Hv : z_array (z_string [])
                 [nonempty "Option must have at least one value"]
                 (Some (strings_json (o_values o))) (p ++ [Key "values"])
               = Success (o_values o)).
  { apply z_array_ok; [|done]. repeat constructor. simpl.
    by destruct (o_values o). }
  rewrite Hn, Hv, !ap_pure. by destruct o.
Qed.

Lemma imageSchema_ok (i : ShopifyImage) (p : list seg) :
  isURL (i_src i) = true ->
  i_width i <> Some null -> i_height i <> Some null ->
  imageSchema (Some (image_json i)) p = Success i.
Proof.
  intros Hsrc Hwidth Hheight. unfold imageSchema, image_json.
  rewrite z_object_object, !field_object by distinct_keys.
  simpl field_value.
  rewrite !(optional_ok (z_string []) JStr) by done.
  destruct (optional_number_ok [] (i_width i) (p ++ [Key "width"]))
    as (width & -> & Hw).
  { intros [|n] Hy; [done|]. by exists n. }
  destruct (optional_number_ok [] (i_height i) (p ++ [Key "height"]))
    as (height & -> & Hh).
  { intros [|n] Hy; [done|]. by exists n. }
  assert (Hs : z_string [url "Image must be a valid URL"]
                 (Some (JStr (i_src i))) (p ++ [Key "src"])
               = Success (i_src i)).
  { apply checked_ok. by repeat constructor. }
  rewrite Hs, !ap_pure. destruct i. simpl in *. by rewrite Hw, Hh.
Qed.

Lemma createProductSchema_ok (c : CreateProductInput) :
  stated_rules c ->
  safeParse createProductSchema (payload_json c) = Success c.
Proof.
  intros (Htitle & Hvendor & Hbody & Hoptions & Himages & Hne & Hvs & Hpub).
  unfold safeParse, createProductSchema, payload_json.
  rewrite z_object_object, !field_object by distinct_keys.
  simpl field_value.
  assert (Ht : title_schema (Some (JStr (c_title c))) ([] ++ [Key "title"])
               = Success (c_title c)).
  { apply checked_ok. repeat constructor. simpl. by destruct (c_title c). }
  assert (Hv : vendor_schema (Some (JStr (c_vendor c)))
                 ([] ++ [Key "vendor"])
               = Success (c_vendor c)).
  { apply checked_ok. repeat constructor. simpl. by destruct (c_vendor c). }
  assert (Hb : body_html_schema (JStr <$> c_body_html c)
                 ([] ++ [Key "body_html"])
               = Success (c_body_html c)).
  { apply optional_ok. intros body Hsome. apply checked_ok.
    repeat constructor.
    change (Nat.leb 50 (String.length body) = true).
    apply Nat.leb_le. by apply Hbody. }
  assert (Hty : product_type_schema (JStr <$> c_product_type c)
                  ([] ++ [Key "product_type"])
                = Success (c_product_type c)).
  { by apply optional_ok. }
  assert (Htags : tags_schema (strings_json <$> c_tags c)
                    ([] ++ [Key "tags"])
                  = Success (c_tags c)).
  { apply (optional_ok _ strings_json). intros. apply strings_ok. }
  assert (Ho : options_schema
                 ((fun l => JArr (option_json <$> l)) <$> c_options c)
                 ([] ++ [Key "options"])
               = Success (c_options c)).
  { apply (optional_ok _ (fun l => JArr (option_json <$> l))).
    intros options Hsome. apply z_array_ok; [done|].
    intros o q Ho. destruct (Hoptions options o Hsome Ho).
    by apply optionSchema_ok. }
  assert (Hi : images_schema
                 ((fun l => JArr (image_json <$> l)) <$> c_images c)
                 ([] ++ [Key "images"])
               = Success (c_images c)).
  { apply (optional_ok _ (fun l => JArr (image_json <$> l))).
    intros images Hsome. apply z_array_ok; [done|].
    intros i q Hi. destruct (Himages images i Hsome Hi) as (? & ? & ?).
    by apply imageSchema_ok. }
  assert (Hva : variants_schema
                  (Some (JArr (variant_json <$> c_variants c)))
                  ([] ++ [Key "variants"])
                = Success (c_variants c)).
  { apply z_array_ok.
    - repeat constructor. simpl. by destruct (c_variants c).
    - intros v q Hv'. destruct (Hvs v Hv'). by apply variantSchema_ok. }
  assert (Hp : published_at_schema
                 match c_published_at c with
                 | null => Some JNull
                 | notNull t => JStr <$> t
                 end ([] ++ [Key "published_at"])
               = Success (c_published_at c)).
  { unfold published_at_schema, nullable.
    destruct (c_published_at c) as [|[t|]] eqn:Hc; [done| |done].
    simpl. rewrite (checked_ok [datetime]); [done|].
    repeat constructor. by apply Hpub. }
  rewrite Ht, Hv, Hb, Hty, Htags, Ho, Hi, Hva, Hp, !ap_pure.
  by destruct c.
Qed.

(** C8. [safeParse] with [createProductSchema] returns, for every
    JSON value, either the payload or the list of issues, each under
    the path of the key it is about. It fails, with an issue under
    [variants], on a body without variants or with none in the list;
    with an issue under the price of the variant, on a body that has
    a variant whose price is a number that is 0 or below, the negative
    infinity included; with an issue under [title]
    or [vendor], on a body where that key is absent or the empty
    string. It returns the payload on the body of every payload that
    satisfies the stated rules. *)
Theorem createProductSchema_rejects_and_accepts :
  (forall kv,
     prop "variants" kv = None \/ prop "variants" kv = Some (JArr []) ->
     exists m,
       fails_with (safeParse createProductSchema (JObj kv))
         {| path := [Key "variants"]; message := m |})
  /\ (forall kv variants i v q,
        prop "variants" kv = Some (JArr variants) ->
        variants !! i = Some (JObj v) ->
        prop "price" v = Some (JNum q) -> Number.le q 0 ->
        fails_with (safeParse createProductSchema (JObj kv))
          {| path := [Key "variants"; Idx i; Key "price"];
             message := "Price must be greater than 0" |})
  /\ (forall kv,
        prop "title" kv = None \/ prop "title" kv = Some (JStr "") ->
        exists m,
          fails_with (safeParse createProductSchema (JObj kv))
            {| path := [Key "title"]; message := m |})
  /\ (forall kv,
        prop "vendor" kv = None \/ prop "vendor" kv = Some (JStr "") ->
        exists m,
          fails_with (safeParse createProductSchema (JObj kv))
            {| path := [Key "vendor"]; message := m |})
  /\ (forall c,
        stated_rules c ->
        safeParse createProductSchema (payload_json c) = Success c).
Proof.
  unfold safeParse, createProductSchema, z_object.
  split; [|split; [|split; [|split]]].
  - intros kv Hkv.
    destruct (no_variants_fails (prop "variants" kv) [Key "variants"] Hkv)
      as [m Hk].
    exists m. blame_key Hk.
  - intros kv variants i v q Hkv Hi Hprice Hq.
    assert (Hk : fails_with (field kv [] "variants" variants_schema)
                   {| path := [Key "variants"; Idx i; Key "price"];
                      message := "Price must be greater than 0" |}).
    { unfold field, variants_schema, z_array. rewrite Hkv.
      apply fails_with_ap_r.
      apply (parse_items_fails _ variants 0 i _ (JObj v)); [done|].
      by apply (price_not_positive_fails v q
                  [Key "variants"; Idx i]). }
    blame_key Hk.
  - intros kv Hkv.
    destruct (required_string_fails "Title is required"
                (prop "title" kv) [Key "title"] Hkv) as [m Hk].
    exists m. blame_key Hk.
  - intros kv Hkv.
    destruct (required_string_fails "Vendor is required"
                (prop "vendor" kv) [Key "vendor"] Hkv) as [m Hk].
    exists m. blame_key Hk.
  - apply createProductSchema_ok.
Qed.

End SchemaFacts.

(** ** The invariant of the stored collection *)

Section InvariantFacts.
Context `{Runtime} `{Zod.Formats}.
Import ProductStore.

Lemma fresh_variants_prices (vs : list ShopifyVariant) (n : nat) :
  v_price <$> (fresh_variants vs n).1 = v_price <$> vs.
Proof.
  revert n. induction vs as [|v vs IH]; intros n; [done|].
  simpl. by rewrite IH.
Qed.

Lemma merge_variants_prices (existing vs : list ShopifyVariant)
    (i n : nat) :
  v_price <$> (merge_variants existing vs i n).1 = v_price <$> vs.
Proof.
  revert i n. induction vs as [|v vs IH]; intros i n; [done|].
  rewrite merge_variants_cons.
  destruct (kept_id existing i); simpl; by rewrite IH.
Qed.

Lemma with_prices_impl (P P' : orNull number -> Prop)
    (p : ShopifyProduct) :
  (forall x, P x -> P' x) -> with_prices P p -> with_prices P' p.
Proof.
  intros HPQ [Hne Hall]. split; [done|].
  eapply Forall_impl; [exact Hall|]. intros v. apply HPQ.
Qed.

Lemma with_prices_by_prices (P : orNull number -> Prop)
    (p : ShopifyProduct) (vs : list ShopifyVariant) :
  v_price <$> p_variants p = v_price <$> vs ->
  vs <> [] -> Forall (fun v => P (v_price v)) vs ->
  with_prices P p.
Proof.
  intros Hp Hne Hpos. split.
  - intros Hnil. rewrite Hnil in Hp. by destruct vs.
  - apply (Forall_fmap v_price P). rewrite Hp. by apply Forall_fmap.
Qed.

(** An invariant [D] of the prices in the document, when the prices of
    the payloads satisfy [P]: what is read satisfies [P], and what
    satisfies [P] is written as something that satisfies [D]. *)
Section Prices.
Variables P D : orNull number -> Prop.
Hypothesis seed_prices :
  forall now, Forall (with_prices D) (createSeedProducts now).
Hypothesis read_price : forall x, D x -> P x.
Hypothesis written_price : forall x, P x -> D (stringify_number x).

Lemma read_prices (w : World) :
  Forall (with_prices D) (stored w) ->
  Forall (with_prices D) (readProductsFromFile w).1
  /\ Forall (with_prices D) (stored (readProductsFromFile w).2).
Proof.
  intros Hw. rewrite <- readProductsFromFile_stored.
  enough (Forall (with_prices D) (readProductsFromFile w).1) by done.
  rewrite readProductsFromFile_stored.
  unfold readProductsFromFile, ensureDataFileExists, stored in *.
  destruct (file w) as [d|] eqn:Hf; simpl.
  - rewrite Hf. destruct d; simpl; by rewrite ?Hf.
  - apply (seed_prices (toISOString (ticks w))).
Qed.

Lemma written_prices (l : list ShopifyProduct) :
  Forall (with_prices P) l -> Forall (with_prices D) (written <$> l).
Proof.
  intros Hl. apply Forall_fmap. eapply Forall_impl; [exact Hl|].
  intros p [Hne Hall]. split; simpl.
  - by destruct (p_variants p).
  - apply Forall_fmap. eapply Forall_impl; [exact Hall|].
    intros v. apply written_price.
Qed.

Lemma read_as_payload (l : list ShopifyProduct) :
  Forall (with_prices D) l -> Forall (with_prices P) l.
Proof.
  intros Hl. eapply Forall_impl; [exact Hl|]. intros p.
  by apply with_prices_impl.
Qed.

Lemma step_prices (w : World) (c : call) :
  payload_prices P c ->
  Forall (with_prices D) (stored w) ->
  Forall (with_prices D) (stored (step w c)).
Proof.
  intros Hc Hw. destruct (read_prices w Hw) as [Hread Hw1].
  destruct c as [|id|input|id input|id]; simpl.
  - unfold listProducts.
    by destruct (readProductsFromFile w) as [products w1].
  - unfold getProductById.
    by destruct (readProductsFromFile w) as [products w1].
  - destruct Hc as [Hne Hpos].
    unfold createProduct.
    destruct (readProductsFromFile w) as [products w1]. simpl in Hread.
    pose proof (fresh_variants_prices (c_variants input) (S (uuids w1)))
      as Hprices.
    destruct (fresh_variants (c_variants input) (S (uuids w1)))
      as [variants n]. simpl in Hprices. unfold stored. simpl.
    apply written_prices, Forall_app.
    split; [by apply read_as_payload|]. constructor; [|done].
    by apply (with_prices_by_prices P _ (c_variants input)).
  - simpl in Hc. unfold updateProduct.
    destruct (readProductsFromFile w) as [products w1].
    simpl in Hread, Hw1.
    destruct (list_find _ products) as [[idx existing]|] eqn:Hfind;
      [|done].
    apply list_find_Some in Hfind as (Hidx & _ & _).
    assert (Hex : with_prices D existing).
    { apply (proj1 (Forall_forall _ _) Hread).
      by eapply list_elem_of_lookup_2. }
    apply read_as_payload in Hread.
    destruct (u_variants input) as [vs|] eqn:Hvs.
    + destruct (Hc vs eq_refl) as [Hne Hpos].
      pose proof (merge_variants_prices (p_variants existing) vs 0
                    (uuids w1)) as Hprices.
      destruct (merge_variants (p_variants existing) vs 0 (uuids w1))
        as [variants n]. simpl in Hprices. unfold stored. simpl.
      apply written_prices, Forall_insert; [done|].
      by apply (with_prices_by_prices P _ vs).
    + unfold stored. simpl.
      apply written_prices, Forall_insert; [done|].
      destruct Hex as [Hne Hall]. split; [done|]. simpl.
      eapply Forall_impl; [exact Hall|]. intros v. apply read_price.
  - unfold deleteProduct.
    destruct (readProductsFromFile w) as [products w1].
    simpl in Hread, Hw1.
    destruct (list_find _ products) as [[idx existing]|]; [|done].
    unfold stored. simpl.
    by apply written_prices, Forall_delete, read_as_payload.
Qed.

Lemma run_prices (cs : list call) (w : World) :
  Forall (payload_prices P) cs ->
  Forall (with_prices D) (stored w) ->
  Forall (with_prices D) (stored (run cs w)).
Proof.
  unfold run. revert w.
  induction cs as [|c cs IH]; intros w Hcs Hw; [done|].
  inversion Hcs as [|? ? Hc Hcs']; subst. simpl.
  apply IH; [done|]. by apply step_prices.
Qed.

Lemma initial_prices (w : World) :
  initial w -> Forall (with_prices D) (stored w).
Proof.
  unfold stored. intros [-> | [-> | [now ->]]];
    [done | done | apply seed_prices].
Qed.

End Prices.

(** Every document that the store reaches is as [JSON.stringify] writes
    it: writing it again would not change it. *)
Lemma read_stored_written (w : World) :
  written <$> stored w = stored w ->
  written <$> stored (readProductsFromFile w).2
  = stored (readProductsFromFile w).2.
Proof.
  intros Hw. rewrite <- readProductsFromFile_stored.
  unfold readProductsFromFile, ensureDataFileExists, stored in *.
  destruct (file w) as [d|] eqn:Hf; simpl.
  - rewrite Hf. destruct d; simpl; by rewrite ?Hf.
  - reflexivity.
Qed.

Lemma step_stored_written (w : World) (c : call) :
  written <$> stored w = stored w ->
  written <$> stored (step w c) = stored (step w c).
Proof.
  intros Hw. pose proof (read_stored_written w Hw) as Hread.
  destruct c as [|id|input|id input|id]; simpl.
  - unfold listProducts.
    by destruct (readProductsFromFile w) as [products w1].
  - unfold getProductById.
    by destruct (readProductsFromFile w) as [products w1].
  - unfold createProduct.
    destruct (readProductsFromFile w) as [products w1].
    destruct (fresh_variants (c_variants input) (S (uuids w1)))
      as [variants n]. unfold stored. simpl. apply written_all_idem.
  - unfold updateProduct.
    destruct (readProductsFromFile w) as [products w1].
    destruct (list_find _ products) as [[idx existing]|]; [|done].
    destruct (u_variants input) as [vs|];
      [destruct (merge_variants (p_variants existing) vs 0 (uuids w1))
         as [variants n]|];
      unfold stored; simpl; apply written_all_idem.
  - unfold deleteProduct.
    destruct (readProductsFromFile w) as [products w1].
    destruct (list_find _ products) as [[idx existing]|]; [|done].
    unfold stored. simpl. apply written_all_idem.
Qed.

Lemma run_stored_written (cs : list call) (w : World) :
  initial w ->
  written <$> stored (run cs w) = stored (run cs w).
Proof.
  intros Hinit.
  assert (Hw : written <$> stored w = stored w).
  { unfold stored. by destruct Hinit as [-> | [-> | [now ->]]]. }
  clear Hinit. unfold run. revert w Hw.
  induction cs as [|c cs IH]; intros w Hw; [done|].
  simpl. by apply IH, step_stored_written.
Qed.

(** A price above 0 is written as it is when it is finite, and as null
    when it is not. *)
Lemma seed_finite_above_zero (now : string) :
  Forall (with_prices finite_above_zero) (createSeedProducts now).
Proof.
  repeat constructor; try done; simpl; unfold Qlt; simpl; lia.
Qed.

Lemma seed_priced (now : string) :
  Forall has_variants_priced_or_null (createSeedProducts now).
Proof.
  repeat constructor; try done; simpl; unfold Qlt; simpl; lia.
Qed.

Lemma stringify_number_priced (x : orNull number) :
  above_zero_or_null x -> priced_or_null (stringify_number x).
Proof. by destruct x as [|[]]. Qed.

Lemma priced_above_zero_or_null (x : orNull number) :
  priced_or_null x -> above_zero_or_null x.
Proof. by destruct x as [|[]]. Qed.

Lemma stringify_number_finite (x : orNull number) :
  finite_above_zero x -> finite_above_zero (stringify_number x).
Proof. by destruct x as [|[]]. Qed.

Lemma finite_above_zero_above_zero (x : orNull number) :
  finite_above_zero x -> ProductSchemas.above_zero x.
Proof. by destruct x as [|[]]. Qed.

Lemma validated_payload_prices (c : call) :
  validated c -> payload_prices ProductSchemas.above_zero c.
Proof.
  destruct c as [|id|input|id input|id]; try done.
  - intros [body Hbody]. by apply (createProductSchema_variants body).
  - intros [body Hbody] vs Hvs.
    by apply (updateProductSchema_variants body input).
Qed.

Lemma payload_prices_impl (P P' : orNull number -> Prop) (c : call) :
  (forall x, P x -> P' x) -> payload_prices P c -> payload_prices P' c.
Proof.
  intros HPQ. destruct c as [|id|input|id input|id]; try done; simpl.
  - intros [Hne Hall]. split; [done|].
    eapply Forall_impl; [exact Hall|]. intros v. apply HPQ.
  - intros Hc vs Hvs. destruct (Hc vs Hvs) as [Hne Hall]. split; [done|].
    eapply Forall_impl; [exact Hall|]. intros v. apply HPQ.
Qed.

Lemma step_priced (w : World) (c : call) :
  validated c ->
  Forall has_variants_priced_or_null (stored w) ->
  Forall has_variants_priced_or_null (stored (step w c)).
Proof.
  intros Hc.
  apply (step_prices above_zero_or_null priced_or_null seed_priced
           priced_above_zero_or_null stringify_number_priced).
  apply (payload_prices_impl ProductSchemas.above_zero);
    [|by apply validated_payload_prices].
  by intros [].
Qed.

Lemma initial_priced (w : World) :
  initial w -> Forall has_variants_priced_or_null (stored w).
Proof. apply (initial_prices priced_or_null seed_priced). Qed.

Lemma finite_payload_prices (c : call) :
  validated c -> finite_prices c -> payload_prices finite_above_zero c.
Proof.
  intros Hc Hfin. apply validated_payload_prices in Hc.
  assert (Hboth : forall vs : list ShopifyVariant,
             Forall (fun v => ProductSchemas.above_zero (v_price v)) vs ->
             Forall (fun v => is_finite (v_price v)) vs ->
             Forall (fun v => finite_above_zero (v_price v)) vs).
  { intros vs Hpos Hf. apply Forall_forall. intros v Hv.
    pose proof (proj1 (Forall_forall _ _) Hpos v Hv) as Hp.
    pose proof (proj1 (Forall_forall _ _) Hf v Hv) as Hq.
    simpl in Hp, Hq. revert Hp Hq.
    destruct (v_price v) as [|[]]; simpl; tauto. }
  destruct c as [|id|input|id input|id]; try done; simpl in *.
  - destruct Hc as [Hne Hpos]. split; [done | by apply Hboth].
  - intros vs Hvs. destruct (Hc vs Hvs) as [Hne Hpos].
    split; [done|]. by apply Hboth, Hfin.
Qed.

(** X27. What is true of the invariant of the data model. From a store
    without its document, with the empty collection or with the seed,
    after any sequence of calls in which every creation and update
    carries a payload that its schema accepted and whose prices are
    finite, every product of the document, and every product the next
    read returns, has at least one variant, and every variant of these
    products has a price above 0. *)
Theorem finite_prices_keep_products_sellable (w : World) (cs : list call) :
  initial w ->
  Forall validated cs ->
  Forall finite_prices cs ->
  Forall sellable (stored (run cs w))
  /\ Forall sellable (readProductsFromFile (run cs w)).1.
Proof.
  intros Hinit Hcs Hfin.
  assert (Hpay : Forall (payload_prices finite_above_zero) cs).
  { apply Forall_forall. intros c Hc.
    apply finite_payload_prices.
    - by apply (proj1 (Forall_forall _ _) Hcs).
    - by apply (proj1 (Forall_forall _ _) Hfin). }
  pose proof (run_prices finite_above_zero finite_above_zero
                seed_finite_above_zero (fun x Hx => Hx)
                stringify_number_finite cs w Hpay
                (initial_prices finite_above_zero seed_finite_above_zero
                   w Hinit)) as Hrun.
  destruct (read_prices finite_above_zero seed_finite_above_zero
              _ Hrun) as [Hread _].
  split.
  - eapply Forall_impl; [exact Hrun|]. intros p.
    apply with_prices_impl, finite_above_zero_above_zero.
  - eapply Forall_impl; [exact Hread|]. intros p.
    apply with_prices_impl, finite_above_zero_above_zero.
Qed.

End InvariantFacts.

(** ** The user stores *)

Section UserStoreFacts.
Context `{Entropy}.

Lemma is_capital_spec (n : nat) :
  is_capital n = true <-> 65 <= n <= 90 \/ (192 <= n <= 222 /\ n <> 215).
Proof.
  unfold is_capital.
  rewrite orb_true_iff, !andb_true_iff, negb_true_iff, !Nat.leb_le,
    Nat.eqb_neq.
  lia.
Qed.

Lemma lower_unit_capital (a b : ascii) :
  capital a -> nat_of_ascii b = nat_of_ascii a + 32 ->
  lower_unit a = b /\ lower_unit b = b.
Proof.
  unfold capital, lower_unit. intros Ha Hb.
  assert (Hyes : is_capital (nat_of_ascii a) = true)
    by (by apply is_capital_spec).
  assert (Hno : is_capital (nat_of_ascii b) = false).
  { apply not_true_iff_false. rewrite is_capital_spec. lia. }
  rewrite Hyes, Hno. split; [|done].
  by rewrite <- Hb, ascii_nat_embedding.
Qed.

Lemma toLowerCase_same_letters (s t : string) :
  differ_only_in_case s t -> toLowerCase s = toLowerCase t.
Proof.
  revert t. induction s as [|a s IH]; intros [|b t]; simpl; try done.
  intros [Hab Hst]. rewrite (IH t Hst). f_equal.
  destruct Hab as [-> | [[Ha Hb] | [Hb Ha]]]; [done | |].
  - destruct (lower_unit_capital a b Ha Hb) as [-> ->]. done.
  - destruct (lower_unit_capital b a Hb Ha) as [-> ->]. done.
Qed.

(** *** In memory *)

Lemma UserStore_find_some (email : string) (st : UserStore.Store) :
  (exists u, u ∈ UserStore.users st
             /\ toLowerCase (user_email u) = toLowerCase email) ->
  is_Some (UserStore.findUserByEmail email st).
Proof.
  intros (u & Hu & He). unfold UserStore.findUserByEmail.
  destruct (list_find_elem_of
              (fun u => toLowerCase (user_email u) = toLowerCase email)
              (UserStore.users st) u Hu He) as [[i x] ->].
  by exists x.
Qed.

Lemma UserStore_find_none (email : string) (st : UserStore.Store) :
  (forall u, u ∈ UserStore.users st ->
             toLowerCase (user_email u) <> toLowerCase email) ->
  UserStore.findUserByEmail email st = None.
Proof.
  intros Hno. unfold UserStore.findUserByEmail.
  replace (list_find _ (UserStore.users st)) with (@None (nat * LocalUser));
    [done|].
  symmetry. by apply list_find_None, Forall_forall.
Qed.

(** *** On file *)
Import UserStoreFile.

Lemma typeof_string (v : option json) :
  String.eqb (typeof v) "string" = true <-> exists s, v = Some (JStr s).
Proof.
  destruct v as [[]|]; simpl; split; try done;
    try (by intros [? [=]]); eauto.
Qed.

Lemma isLocalUser_spec (u : json) :
  isLocalUser u = true <->
  exists kv id email passwordHash,
    u = JObj kv
    /\ prop "id" kv = Some (JStr id)
    /\ prop "email" kv = Some (JStr email)
    /\ prop "passwordHash" kv = Some (JStr passwordHash).
Proof.
  unfold isLocalUser. rewrite !andb_true_iff, !typeof_string. split.
  - intros ((((Hobj & Hnull) & [i Hi]) & [e He]) & [h Hh]).
    destruct u; try done. simpl in *. eauto 10.
  - intros (kv & i & e & h & -> & Hi & He & Hh). simpl. eauto 10.
Qed.

Lemma find_email_found (email : string) (l : list json) :
  Forall (fun u => isLocalUser u = true) l ->
  (exists u e, u ∈ l /\ get u "email" = Some (JStr e)
               /\ toLowerCase e = toLowerCase email) ->
  exists u, find_email email l = Resolved (Some u).
Proof.
  induction l as [|x l IH]; intros Hwf (u & e & Hu & He & Heq).
  - by apply not_elem_of_nil in Hu.
  - inversion Hwf as [|? ? Hx Hl]; subst.
    apply isLocalUser_spec in Hx as (kv & i & e' & h & -> & _ & He' & _).
    simpl. rewrite He'.
    destruct (String.eqb_spec (toLowerCase e') (toLowerCase email))
      as [_ | Hne]; [eauto|].
    apply IH; [done|]. apply elem_of_cons in Hu as [-> | Hu]; [|eauto].
    simpl in He. rewrite He' in He. injection He as ->. done.
Qed.

Lemma find_email_none (email : string) (l : list json) :
  Forall (fun u => isLocalUser u = true) l ->
  (forall u e, u ∈ l -> get u "email" = Some (JStr e) ->
               toLowerCase e <> toLowerCase email) ->
  find_email email l = Resolved None.
Proof.
  induction l as [|x l IH]; intros Hwf Hno; [done|].
  inversion Hwf as [|? ? Hx Hl]; subst.
  apply isLocalUser_spec in Hx as (kv & i & e' & h & -> & _ & He' & _).
  simpl. rewrite He'.
  destruct (String.eqb_spec (toLowerCase e') (toLowerCase email))
    as [Heq | _].
  - exfalso. apply (Hno (JObj kv) e'); [apply list_elem_of_here | done..].
  - apply IH; [done|]. intros u e Hu. apply Hno.
    by apply list_elem_of_further.
Qed.

Lemma loadUsersFromDisk_wf (d : users_file) :
  Forall (fun u => isLocalUser u = true) (loadUsersFromDisk d).
Proof.
  destruct d as [| | |[]]; simpl; try constructor.
  apply Forall_forall. intros u Hu.
  apply list_elem_of_In, filter_In in Hu. tauto.
Qed.

(** The entries of the list passed the guard of the loader: true of
    what the first load puts there, and kept by [createUser]. *)
Lemma stored_users_guarded (st : Store) :
  (loaded st = true -> Forall (fun u => isLocalUser u = true) (users st)) ->
  Forall (fun u => isLocalUser u = true) (stored_users st).
Proof.
  intros Hguard. unfold stored_users, ensureLoaded.
  destruct (loaded st); [by apply Hguard | apply loadUsersFromDisk_wf].
Qed.

Lemma createUser_guarded (name email password : string) (st : Store) :
  (loaded st = true -> Forall (fun u => isLocalUser u = true) (users st)) ->
  Forall (fun u => isLocalUser u = true)
    (users (createUser name email password st).2).
Proof.
  intros Hguard. pose proof (stored_users_guarded st Hguard) as Hwf.
  unfold stored_users in Hwf. unfold createUser.
  destruct (find_email email (users (ensureLoaded st))) as [[u|]|e];
    [done | | done].
  unfold saveUsersToDisk. simpl.
  destruct (writable (ensureLoaded st)); simpl;
    (apply Forall_app; split; [done | by repeat constructor]).
Qed.

Lemma ensureLoaded_idem (st : Store) :
  ensureLoaded (ensureLoaded st) = ensureLoaded st.
Proof. unfold ensureLoaded. by destruct (loaded st) eqn:E; simpl; rewrite ?E. Qed.

(** C9. In both stores [createUser] rejects with the error "User with
    this email already exists", and leaves the stored users as they
    were, as soon as a stored user has an email whose lower-case form
    is that of the given email, in particular an email that differs
    from it only in case; otherwise it resolves to a new record with
    the next generated identifier, the given name and email and the
    bcrypt hash of the password under a new salt, and appends that
    record to the stored users. The store on file holds the entries of
    its list as they passed the guard of the loader. *)
Theorem createUser_rejects_known_email_else_appends
    (name email password : string) :
  (forall st : UserStore.Store,
     let user :=
       {| user_id := genId (UserStore.ids st);
          user_name := name;
          user_email := email;
          user_passwordHash :=
            bcrypt_hash password 10 (UserStore.hashes st) |} in
     ((exists u, u ∈ UserStore.users st
                 /\ (toLowerCase (user_email u) = toLowerCase email
                     \/ differ_only_in_case (user_email u) email)) ->
        UserStore.createUser name email password st
        = (Rejected (Error "User with this email already exists"), st))
     /\ ((forall u, u ∈ UserStore.users st ->
            toLowerCase (user_email u) <> toLowerCase email) ->
           (UserStore.createUser name email password st).1 = Resolved user
           /\ UserStore.users
                (UserStore.createUser name email password st).2
              = UserStore.users st ++ [user]))
  /\ (forall st : Store,
        let user :=
          {| user_id := genId (ids st);
             user_name := name;
             user_email := email;
             user_passwordHash := bcrypt_hash password 10 (hashes st) |} in
        (loaded st = true ->
           Forall (fun u => isLocalUser u = true) (users st)) ->
        ((exists u e, u ∈ stored_users st
                      /\ get u "email" = Some (JStr e)
                      /\ (toLowerCase e = toLowerCase email
                          \/ differ_only_in_case e email)) ->
           (createUser name email password st).1
           = Rejected (Error "User with this email already exists")
           /\ stored_users (createUser name email password st).2
              = stored_users st
           /\ disk (createUser name email password st).2 = disk st)
        /\ ((forall u e, u ∈ stored_users st ->
               get u "email" = Some (JStr e) ->
               toLowerCase e <> toLowerCase email) ->
              (createUser name email password st).1 = Resolved user
              /\ stored_users (createUser name email password st).2
                 = stored_users st ++ [LocalUser_object user])).
Proof.
  split.
  - intros st user. split.
    + intros (u & Hu & Hcase).
      assert (Hlow : toLowerCase (user_email u) = toLowerCase email).
      { destruct Hcase; [done | by apply toLowerCase_same_letters]. }
      unfold UserStore.createUser.
      by destruct (UserStore_find_some email st) as [x ->]; [eauto|].
    + intros Hno. unfold UserStore.createUser.
      by rewrite (UserStore_find_none email st Hno).
  - intros st user Hguard.
    pose proof (stored_users_guarded st Hguard) as Hwf.
    unfold stored_users in *. split.
    + intros (u & e & Hu & He & Hcase).
      assert (Hlow : toLowerCase e = toLowerCase email).
      { destruct Hcase; [done | by apply toLowerCase_same_letters]. }
      unfold createUser.
      destruct (find_email_found email _ Hwf) as [x ->]; [eauto|].
      simpl. split; [done|]. rewrite ensureLoaded_idem. split; [done|].
      unfold ensureLoaded. by destruct (loaded st).
    + intros Hno. unfold createUser.
      rewrite (find_email_none email _ Hwf Hno).
      assert (Hids : ids (ensureLoaded st) = ids st
                     /\ hashes (ensureLoaded st) = hashes st
                     /\ loaded (ensureLoaded st) = true).
      { unfold ensureLoaded. by destruct (loaded st) eqn:E. }
      destruct Hids as (-> & -> & Hloaded).
      split; [done|]. cbn [snd].
      unfold saveUsersToDisk, ensureLoaded at 1. simpl.
      by destruct (writable (ensureLoaded st)); simpl; rewrite Hloaded.
Qed.

(** C10. The first call of [ensureLoaded] sets the flag and replaces
    the list in memory by what the file gives: when the file parses to
    an array, its entries that are objects with a string under each of
    [id], [email] and [passwordHash], in the order of the array, and
    no other entry; when the file is missing, cannot be read, does not
    parse or does not hold an array, no user at all. The load has no
    failing outcome and leaves the file as it is; once the flag is
    set, [ensureLoaded] changes nothing. *)
Theorem ensureLoaded_filters_entries (st : Store) :
  (loaded st = false ->
     loaded (ensureLoaded st) = true
     /\ disk (ensureLoaded st) = disk st
     /\ users (ensureLoaded st)
        = match disk st with
          | Parsed (JArr entries) => List.filter isLocalUser entries
          | Parsed _ | ENOENT | ReadFailure | SyntaxError => []
          end)
  /\ (loaded st = true -> ensureLoaded st = st)
  /\ (forall u,
        isLocalUser u = true <->
        exists kv id email passwordHash,
          u = JObj kv
          /\ prop "id" kv = Some (JStr id)
          /\ prop "email" kv = Some (JStr email)
          /\ prop "passwordHash" kv = Some (JStr passwordHash)).
Proof.
  split; [|split].
  - intros Hl. unfold ensureLoaded. rewrite Hl. simpl.
    by repeat split.
  - intros Hl. unfold ensureLoaded. by rewrite Hl.
  - apply isLocalUser_spec.
Qed.

End UserStoreFacts.

(** * Further properties of the code *)

(** ** The product store *)

Section MoreProductStoreFacts.
Context `{Runtime}.
Import ProductStore.

Lemma readProductsFromFile_existing (w : World) (d : document) :
  file w = Some d -> readProductsFromFile w = (stored w, w).
Proof.
  intros Hf. unfold readProductsFromFile, stored.
  rewrite (ensureDataFileExists_existing w d Hf), Hf. by destruct d.
Qed.

(** X1. On a document that exists, whatever it holds, [updateProduct]
    with an identifier that no stored product has returns undefined and
    changes nothing: the file is not rewritten, no identifier is drawn
    and the clock is not read, whatever the payload. *)
Theorem updateProduct_unknown_id_changes_nothing
    (w : World) (d : document) (id : string) (input : UpdateProductInput) :
  file w = Some d ->
  (forall p, p ∈ stored w -> p_id p <> id) ->
  updateProduct id input w = (None, w).
Proof.
  intros Hf Hno. unfold updateProduct.
  by rewrite (readProductsFromFile_existing w d Hf),
    (find_no_product _ id Hno).
Qed.

Lemma list_find_snoc {A} (P : A -> Prop) `{forall x, Decision (P x)}
    (l : list A) (x : A) :
  snd <$> list_find P (l ++ [x])
  = match snd <$> list_find P l with
    | Some y => Some y
    | None => if decide (P x) then Some x else None
    end.
Proof.
  destruct (list_find P l) as [[i y]|] eqn:Hl.
  - by rewrite (list_find_app_l P l [x] i y Hl).
  - rewrite (list_find_app_r P l [x] Hl). simpl.
    by destruct (decide (P x)).
Qed.

(** X2. After [createProduct], [getProductById] finds what it found
    before for every identifier that a stored product had, finds the new
    product under the new identifier when no stored product had it, and
    finds nothing else; what it finds is the product as the document
    has it, a number that was not finite being null. *)
Theorem createProduct_then_getProductById
    (input : CreateProductInput) (w : World) (id : string) :
  (getProductById id (createProduct input w).2).1
  = written
      <$> match (getProductById id w).1 with
          | Some p => Some p
          | None =>
              if decide (p_id (createProduct input w).1 = id)
              then Some (createProduct input w).1
              else None
          end.
Proof.
  unfold getProductById at 2.
  destruct (readProductsFromFile w) as [products w1] eqn:Hr.
  assert (Hc : exists product w2,
             createProduct input w = (product, w2)
             /\ file w2
                = Some (ProductArray (written <$> (products ++ [product])))).
  { unfold createProduct. rewrite Hr.
    destruct (fresh_variants _ _) as [variants n]. eauto. }
  destruct Hc as (product & w2 & -> & Hw2). cbn [fst snd].
  rewrite (getProductById_array w2 _ id Hw2), list_find_written.
  etransitivity;
    [|exact (f_equal (fmap written)
               (@list_find_snoc _ (fun p => p_id p = id) _
                  products product))].
  by destruct (list_find _ (products ++ [product])) as [[i q]|].
Qed.

(** X3. A document that is blank, does not parse or is not an array
    reads as the empty collection and is left as it is by the reads, by
    [updateProduct] and by [deleteProduct]; [createProduct] replaces it
    by an array that holds the new product alone. *)
Theorem damaged_document_reads_empty_and_is_overwritten
    (w : World) (d : document) (id : string)
    (update : UpdateProductInput) (input : CreateProductInput) :
  file w = Some d ->
  (d = Blank \/ d = Unparseable \/ d = NotArray) ->
  listProducts w = ([], w)
  /\ getProductById id w = (None, w)
  /\ updateProduct id update w = (None, w)
  /\ deleteProduct id w = (false, w)
  /\ file (createProduct input w).2
     = Some (ProductArray [written (createProduct input w).1]).
Proof.
  intros Hf Hd.
  assert (Hr : readProductsFromFile w = ([], w)).
  { rewrite (readProductsFromFile_existing w d Hf). unfold stored.
    rewrite Hf. by destruct Hd as [-> | [-> | ->]]. }
  unfold listProducts, getProductById, updateProduct, deleteProduct,
    createProduct.
  rewrite Hr. repeat split; try done.
  by destruct (fresh_variants _ _).
Qed.

(** *** Identifiers of the variants after an update *)

Lemma draws_all_kept (existing : list ShopifyVariant) (i k : nat) :
  Forall (fun v => is_Some (v_id v)) existing ->
  draws existing i k = (i + k) `max` length existing - i `max` length existing.
Proof.
  intros Hall. revert i. induction k as [|k IH]; intros i.
  - unfold draws. simpl. lia.
  - assert (Hd : draws existing i (S k)
                 = (if kept_id existing i is None then 1 else 0)
                   + draws existing (S i) k).
    { unfold draws. simpl seq. rewrite filter_cons.
      destruct (kept_id existing i); by case_decide. }
    rewrite Hd, IH. unfold kept_id.
    destruct (existing !! i) as [v|] eqn:Hv; simpl.
    + destruct (proj1 (Forall_forall _ _) Hall v) as [x ->].
      { by eapply list_elem_of_lookup_2. }
      apply lookup_lt_Some in Hv. lia.
    + apply lookup_ge_None in Hv. lia.
Qed.

Lemma merge_variants_ids (existing vs : list ShopifyVariant) (n : nat) :
  Forall (fun v => is_Some (v_id v)) existing ->
  v_id <$> (merge_variants existing vs 0 n).1
  = take (length vs) (v_id <$> existing)
    ++ ((fun k => Some (randomUUID k))
          <$> seq n (length vs - length existing)).
Proof.
  intros Hall.
  destruct (merge_variants_spec existing vs 0 n) as (_ & Hlen & Hget).
  apply list_eq. intros j. rewrite list_lookup_fmap.
  destruct (vs !! j) as [v|] eqn:Hv.
  - rewrite (Hget j v Hv). simpl.
    rewrite (draws_all_kept existing 0 j Hall). simpl.
    pose proof (lookup_lt_Some _ _ _ Hv) as Hj.
    unfold kept_id. destruct (existing !! j) as [e|] eqn:He; simpl.
    + destruct (proj1 (Forall_forall _ _) Hall e) as [x Hx].
      { by eapply list_elem_of_lookup_2. }
      rewrite Hx. simpl.
      rewrite lookup_app_l by (rewrite length_take, length_fmap;
                               apply lookup_lt_Some in He; lia).
      rewrite lookup_take_lt by done.
      by rewrite list_lookup_fmap, He, <- Hx.
    + apply lookup_ge_None in He.
      rewrite lookup_app_r by (rewrite length_take, length_fmap; lia).
      rewrite length_take, length_fmap, list_lookup_fmap.
      replace (length vs `min` length existing) with (length existing)
        by lia.
      rewrite lookup_seq_lt by lia. simpl. do 3 f_equal. lia.
  - apply lookup_ge_None in Hv.
    rewrite (proj2 (lookup_ge_None _ _)) by lia. simpl. symmetry.
    apply lookup_ge_None.
    rewrite length_app, length_take, !length_fmap, length_seq. lia.
Qed.

(** X4. When every stored variant has an identifier, the variants that
    [updateProduct] writes carry the stored identifiers in stored order,
    as many as the payload has variants, followed by newly drawn ones for
    the variants beyond the stored ones. A shorter list draws nothing and
    drops the last stored identifiers; the order of the incoming variants
    plays no part. *)
Theorem updateProduct_variant_ids_are_stored_prefix_then_drawn
    (w : World) (l : list ShopifyProduct) (id : string)
    (input : UpdateProductInput) (vs : list ShopifyVariant)
    (idx : nat) (existing : ShopifyProduct) :
  file w = Some (ProductArray l) ->
  list_find (fun p => p_id p = id) l = Some (idx, existing) ->
  Forall (fun v => is_Some (v_id v)) (p_variants existing) ->
  u_variants input = Some vs ->
  exists updated,
    (updateProduct id input w).1 = Some updated
    /\ v_id <$> p_variants updated
       = take (length vs) (v_id <$> p_variants existing)
         ++ ((fun k => Some (randomUUID k))
               <$> seq (uuids w)
                     (length vs - length (p_variants existing)))
    /\ uuids (updateProduct id input w).2
       = uuids w + (length vs - length (p_variants existing)).
Proof.
  intros Hf Hfind Hall Hvs. unfold updateProduct.
  rewrite (readProductsFromFile_array w l Hf), Hfind, Hvs.
  pose proof (merge_variants_ids (p_variants existing) vs (uuids w) Hall)
    as Hids.
  destruct (merge_variants_spec (p_variants existing) vs 0 (uuids w))
    as (Hn & _ & _).
  rewrite (draws_all_kept _ 0 _ Hall) in Hn.
  destruct (merge_variants (p_variants existing) vs 0 (uuids w))
    as [variants n]. simpl in Hids, Hn. simpl.
  eexists. split; [done|]. split; [exact Hids|]. lia.
Qed.

(** X5. For any payload, [updateProduct] on a stored product keeps its
    identifier and [created_at], takes from the payload each field the
    payload supplies and keeps the stored value of each field it omits,
    writes null for [published_at] when the payload gives null, and
    leaves the collection with the same number of products, all others
    as they were and as [JSON.stringify] writes them. *)
Theorem updateProduct_merges_payload_over_stored
    (w : World) (l : list ShopifyProduct) (id : string)
    (input : UpdateProductInput) (idx : nat) (existing : ShopifyProduct) :
  file w = Some (ProductArray l) ->
  list_find (fun p => p_id p = id) l = Some (idx, existing) ->
  exists updated,
    (updateProduct id input w).1 = Some updated
    /\ stored (updateProduct id input w).2
       = written <$> <[idx := updated]> l
    /\ length (stored (updateProduct id input w).2) = length l
    /\ (forall j, j <> idx ->
          stored (updateProduct id input w).2 !! j = written <$> l !! j)
    /\ p_id updated = id
    /\ p_created_at updated = p_created_at existing
    /\ p_updated_at updated = toISOString (ticks w)
    /\ p_title updated = default (p_title existing) (u_title input)
    /\ p_vendor updated = default (p_vendor existing) (u_vendor input)
    /\ p_body_html updated
       = (if u_body_html input is Some b then Some b
          else p_body_html existing)
    /\ p_product_type updated
       = (if u_product_type input is Some t then Some t
          else p_product_type existing)
    /\ p_tags updated
       = (if u_tags input is Some t then Some t else p_tags existing)
    /\ p_options updated
       = (if u_options input is Some o then Some o else p_options existing)
    /\ p_images updated
       = (if u_images input is Some i then Some i else p_images existing)
    /\ p_published_at updated
       = match u_published_at input with
         | Some null => null
         | Some (notNull (Some t)) => notNull t
         | Some (notNull None) | None => p_published_at existing
         end
    /\ (u_variants input = None ->
          p_variants updated = p_variants existing).
Proof.
  intros Hf Hfind. unfold updateProduct.
  rewrite (readProductsFromFile_array w l Hf), Hfind.
  pose proof Hfind as Hfound.
  apply list_find_Some in Hfound as (Hidx & Hid & _).
  destruct (match u_variants input with
            | Some vs => merge_variants (p_variants existing) vs 0 (uuids w)
            | None => (p_variants existing, uuids w)
            end) as [variants n] eqn:Hm.
  unfold stored. simpl. eexists. split; [done|]. split; [done|].
  split; [by rewrite length_fmap, length_insert|].
  split; [intros j Hj;
          by rewrite list_lookup_fmap, list_lookup_insert_ne|].
  repeat split; try done;
    try (by destruct (u_body_html input));
    try (by destruct (u_product_type input));
    try (by destruct (u_tags input));
    try (by destruct (u_options input));
    try (by destruct (u_images input)).
  intros Hnone. rewrite Hnone in Hm. by injection Hm as <- _.
Qed.

(** X7. After [createProduct], [listProducts] returns the products it
    returned before, as the document now has them, followed by the new
    product as it was written, with a [min_price] that is 0 when the
    payload has no variant and otherwise the least of the prices of the
    payload's variants as they were written: a price that was not
    finite was written as null, and null counts as 0. *)
Theorem createProduct_then_listProducts
    (input : CreateProductInput) (w : World) :
  exists it,
    (listProducts (createProduct input w).2).1
    = ((fun before => with_min_price (written (item before)))
         <$> (listProducts w).1) ++ [it]
    /\ item it = written (createProduct input w).1
    /\ match c_variants input with
       | [] => min_price it = 0%Q
       | _ :: _ =>
           (exists v, v ∈ c_variants input
              /\ min_price it = ToNumber (stringify_number (v_price v)))
           /\ forall v, v ∈ c_variants input ->
                Number.le (min_price it)
                  (ToNumber (stringify_number (v_price v)))
       end.
Proof.
  exists (with_min_price (written (createProduct input w).1)).
  unfold listProducts at 2.
  destruct (readProductsFromFile w) as [products w1] eqn:Hr.
  assert (Hc : exists product w2,
             createProduct input w = (product, w2)
             /\ file w2
                = Some (ProductArray (written <$> (products ++ [product])))
             /\ v_price <$> p_variants product = v_price <$> c_variants input).
  { unfold createProduct. rewrite Hr.
    pose proof (fresh_variants_prices (c_variants input) (S (uuids w1)))
      as Hp.
    destruct (fresh_variants _ _) as [variants n]. eauto. }
  destruct Hc as (product & w2 & -> & Hw2 & Hprices). cbn [fst snd].
  split; [|split; [done|]].
  - unfold listProducts. rewrite (readProductsFromFile_array w2 _ Hw2).
    cbn [fst]. rewrite !fmap_app, <- !list_fmap_compose. done.
  - set (price := fun v : ShopifyVariant =>
                    ToNumber (stringify_number (v_price v))).
    assert (Hmin : min_price (with_min_price (written product))
                   = match price <$> c_variants input with
                     | [] => Finite 0
                     | x :: xs => Math_min x xs
                     end).
    { unfold with_min_price. cbn [min_price written p_variants].
      rewrite <- list_fmap_compose.
      change ((fun v => ToNumber (v_price v)) ∘ written_variant)
        with ((fun x => ToNumber (stringify_number x)) ∘ v_price).
      rewrite list_fmap_compose, Hprices, <- list_fmap_compose. done. }
    rewrite Hmin.
    destruct (c_variants input) as [|v vs] eqn:Hvs; [done|].
    change (price <$> v :: vs) with (price v :: (price <$> vs)).
    cbv iota. split.
    + pose proof (Math_min_elem (price <$> vs) (price v)) as Hin.
      change (price v :: (price <$> vs)) with (price <$> v :: vs) in Hin.
      apply list_elem_of_fmap in Hin as (u & -> & Hu). eauto.
    + intros u Hu. apply Math_min_lower.
      change (price v :: (price <$> vs)) with (price <$> v :: vs).
      apply (list_elem_of_fmap_2 price). exact Hu.
Qed.

(** *** Identifiers of the products stay distinct *)

Section UniqueIds.
Hypothesis randomUUID_inj : forall a b, randomUUID a = randomUUID b -> a = b.
Hypothesis randomUUID_not_seed : forall k, randomUUID k <> "prod-1".

Lemma stored_write (l : list ShopifyProduct) (w : World) :
  stored (writeProductsToFile l w) = written <$> l.
Proof. reflexivity. Qed.

#[local] Arguments stored : simpl never.

Lemma read_ids_fresh (w : World) :
  ids_fresh w ->
  ids_fresh (readProductsFromFile w).2
  /\ (readProductsFromFile w).1 = stored (readProductsFromFile w).2
  /\ uuids (readProductsFromFile w).2 = uuids w.
Proof.
  intros Hw. rewrite <- readProductsFromFile_stored.
  split; [|split; [done | apply readProductsFromFile_uuids]].
  destruct (file w) as [d|] eqn:Hf.
  - by rewrite (readProductsFromFile_existing w d Hf).
  - unfold readProductsFromFile, ensureDataFileExists. rewrite Hf. simpl.
    split; unfold stored; simpl.
    + apply NoDup_singleton.
    + intros k _ Hk. apply list_elem_of_singleton in Hk.
      by apply (randomUUID_not_seed k).
Qed.

Lemma step_ids_fresh (w : World) (c : call) :
  ids_fresh w -> ids_fresh (step w c).
Proof.
  intros Hw. destruct (read_ids_fresh w Hw) as ([Hnd Hfut] & Hst & Hu).
  destruct c as [|id|input|id input|id]; simpl.
  - unfold listProducts.
    by destruct (readProductsFromFile w) as [products w1].
  - unfold getProductById.
    by destruct (readProductsFromFile w) as [products w1].
  - unfold createProduct.
    destruct (readProductsFromFile w) as [products w1].
    simpl in Hnd, Hfut, Hst, Hu. subst products.
    destruct (fresh_variants_spec (c_variants input) (S (uuids w1)))
      as (Hn & _).
    destruct (fresh_variants (c_variants input) (S (uuids w1)))
      as [variants n]. simpl in Hn. unfold ids_fresh. simpl.
    rewrite stored_write, written_ids, fmap_app. simpl. split.
    + apply NoDup_app. split; [done|]. split; [|apply NoDup_singleton].
      intros x Hx Hx'. apply list_elem_of_singleton in Hx' as ->.
      by apply (Hfut (uuids w1)).
    + intros k Hk Hin. apply elem_of_app in Hin as [Hin | Hin].
      * apply (Hfut k); [lia | done].
      * apply list_elem_of_singleton in Hin.
        apply randomUUID_inj in Hin. lia.
  - unfold updateProduct.
    destruct (readProductsFromFile w) as [products w1].
    simpl in Hnd, Hfut, Hst, Hu. subst products.
    destruct (list_find _ (stored w1)) as [[idx existing]|] eqn:Hfind;
      [|done].
    apply list_find_Some in Hfind as (Hidx & _ & _).
    assert (Hn : exists variants n,
               match u_variants input with
               | Some vs =>
                   merge_variants (p_variants existing) vs 0 (uuids w1)
               | None => (p_variants existing, uuids w1)
               end = (variants, n) /\ uuids w1 <= n).
    { destruct (u_variants input) as [vs|]; [|eauto].
      destruct (merge_variants_spec (p_variants existing) vs 0 (uuids w1))
        as (Hn & _).
      destruct (merge_variants _ _ _ _) as [variants n]. simpl in Hn.
      exists variants, n. split; [done | lia]. }
    destruct Hn as (variants & n & -> & Hle).
    unfold ids_fresh. simpl.
    rewrite stored_write, written_ids, list_fmap_insert. simpl.
    rewrite list_insert_id by (by rewrite list_lookup_fmap, Hidx).
    split; [done|]. intros k Hk. apply Hfut. lia.
  - unfold deleteProduct.
    destruct (readProductsFromFile w) as [products w1].
    simpl in Hnd, Hfut, Hst, Hu. subst products.
    destruct (list_find _ (stored w1)) as [[idx existing]|]; [|done].
    unfold ids_fresh. simpl.
    rewrite stored_write, written_ids, list_fmap_delete. split.
    + eapply sublist_NoDup; [exact Hnd | apply sublist_delete].
    + intros k Hk Hin. apply (Hfut k Hk).
      by eapply list_elem_of_delete_inv.
Qed.

Lemma run_ids_fresh (cs : list call) (w : World) :
  ids_fresh w -> ids_fresh (run cs w).
Proof.
  unfold run. revert w. induction cs as [|c cs IH]; intros w Hw; [done|].
  simpl. apply IH. by apply step_ids_fresh.
Qed.

(** X6. When the generator never repeats a value and never gives the
    identifier of the seed product, the products of the document keep
    distinct identifiers through every sequence of calls, with any
    payloads, from a store without document, with the empty collection or
    with the seed; so do the products that the next read returns. *)
Theorem product_ids_stay_distinct (w : World) (cs : list call) :
  initial w ->
  NoDup (p_id <$> stored (run cs w))
  /\ NoDup (p_id <$> (readProductsFromFile (run cs w)).1).
Proof.
  intros Hinit.
  assert (Hw : ids_fresh w).
  { unfold ids_fresh, stored.
    destruct Hinit as [-> | [-> | [now ->]]]; simpl.
    - split; [apply NoDup_nil_2 | intros k _ Hk; by apply not_elem_of_nil in Hk].
    - split; [apply NoDup_nil_2 | intros k _ Hk; by apply not_elem_of_nil in Hk].
    - split; [apply NoDup_singleton|].
      intros k _ Hk. apply list_elem_of_singleton in Hk.
      by apply (randomUUID_not_seed k). }
  pose proof (run_ids_fresh cs w Hw) as Hrun.
  split; [apply Hrun|].
  destruct (read_ids_fresh _ Hrun) as ([Hnd _] & -> & _). exact Hnd.
Qed.

End UniqueIds.

End MoreProductStoreFacts.

(** ** The schemas *)

Section MoreSchemaFacts.
Context `{Zod.Formats}.
Import Zod ProductSchemas.

Ltac invert_parse Hp :=
  repeat
    (let g := fresh "g" in
     let a := fresh "a" in
     let Ha := fresh "Ha" in
     apply ap_Success in Hp as (g & a & Hp & Ha & ->));
  apply Success_inj in Hp as <-.

Ltac blame Hk :=
  repeat first
    [ apply fails_with_ap_r; exact Hk
    | apply fails_with_ap_l ].

Lemma z_string_Success (cs : list (check string)) (j : option json)
    (p : list seg) (s : string) :
  z_string cs j p = Success s ->
  j = Some (JStr s) /\ Forall (fun c => holds c s = true) cs.
Proof.
  unfold z_string. destruct j as [[]|]; try discriminate.
  intros Hc. by apply checked_Success in Hc as [-> Hcs].
Qed.

Lemma z_array_Success {A} (s : schema A) (cs : list (check (list json)))
    (j : option json) (p : list seg) (l : list A) :
  z_array s cs j p = Success l ->
  exists raw, j = Some (JArr raw)
    /\ Forall (fun c => holds c raw = true) cs
    /\ parse_items s raw 0 p = Success l.
Proof.
  unfold z_array. destruct j as [[]|]; try discriminate.
  intros Hp. invert_parse Hp.
  apply checked_Success in Ha0 as [-> Hcs]. eauto.
Qed.

Lemma min_holds (n : nat) (m s : string) :
  holds (min n m) s = true <-> n <= String.length s.
Proof. simpl. apply Nat.leb_le. Qed.

Lemma not_empty_length (s : string) : 1 <= String.length s -> s <> "".
Proof. destruct s; simpl; [lia | done]. Qed.

Lemma holds_natural (n : number) :
  holds int n = true -> holds nonnegative n = true -> natural n.
Proof.
  intros Hint Hnn. destruct n as [q| |]; try discriminate.
  change ((Z.rem (Qnum q) (Z.pos (Qden q)) =? 0)%Z = true) in Hint.
  change (Number.leb 0 q = true) in Hnn.
  apply Z.eqb_eq in Hint. apply Number_leb_le in Hnn. simpl in Hnn.
  unfold Qle in Hnn. simpl in Hnn. rewrite Z.mul_1_r in Hnn.
  apply Z.rem_divide in Hint as [k Hk]; [|done].
  assert (0 <= k)%Z by nia.
  exists q, (Z.to_nat k). split; [done|]. unfold Qeq. simpl.
  rewrite Z.mul_1_r, Z2Nat.id by done. exact Hk.
Qed.

Lemma variantSchema_inventory (j : option json) (p : list seg)
    (v : ShopifyVariant) (n : orNull number) :
  variantSchema j p = Success v ->
  v_inventory_quantity v = Some n -> is_natural n.
Proof.
  unfold variantSchema, z_object.
  destruct j as [[]|]; try discriminate. intros Hp.
  invert_parse Hp. simpl.
  destruct a2 as [m|]; [|done]. intros [= <-].
  apply optional_Success in Ha2.
  unfold z_number in Ha2.
  destruct (prop "inventory_quantity" kv) as [[]|]; try discriminate.
  apply checked_Success in Ha2 as [-> Hcs].
  inversion Hcs as [|? ? Hint Hcs']; subst.
  inversion Hcs' as [|? ? Hnn _]; subst.
  by apply holds_natural.
Qed.

Lemma optionSchema_Success (j : option json) (p : list seg)
    (o : ShopifyOption) :
  optionSchema j p = Success o -> o_name o <> "" /\ o_values o <> [].
Proof.
  unfold optionSchema, z_object.
  destruct j as [[]|]; try discriminate. intros Hp.
  invert_parse Hp. simpl. split.
  - apply z_string_Success in Ha0 as [_ Hcs].
    inversion Hcs as [|? ? Hmin _]; subst.
    by apply not_empty_length, (min_holds 1 "Option name is required").
  - apply z_array_Success in Ha as (raw & _ & Hcs & Hitems).
    destruct (parse_items_Success (z_string []) (fun _ => True)
                _ _ _ _ (fun _ _ _ _ => I) Hitems) as [Hlen _].
    inversion Hcs as [|? ? Hne _]; subst. simpl in Hne.
    intros ->. simpl in Hlen. rewrite <- Hlen in Hne. discriminate.
Qed.

Lemma imageSchema_Success (j : option json) (p : list seg)
    (i : ShopifyImage) :
  imageSchema j p = Success i ->
  isURL (i_src i) = true
  /\ i_width i <> Some null /\ i_height i <> Some null.
Proof.
  unfold imageSchema, z_object.
  destruct j as [[]|]; try discriminate. intros Hp.
  invert_parse Hp. simpl.
  apply z_string_Success in Ha2 as [_ Hcs].
  split; [by inversion Hcs|]. by destruct a0, a.
Qed.

Lemma nullable_Success {A} (s : schema A) (j : option json)
    (p : list seg) (a : A) :
  nullable s j p = Success (notNull a) -> s j p = Success a.
Proof.
  unfold nullable.
  destruct j as [[]|]; try discriminate;
    (destruct (s _ p) as [x|e]; [by intros [= ->] | discriminate]).
Qed.

Lemma optional_array_Success {A} (s : schema A) (P : A -> Prop)
    (j : option json) (p : list seg) (l : list A) (a : A) :
  (forall j q a, s j q = Success a -> P a) ->
  optional (z_array s []) j p = Success (Some l) -> a ∈ l -> P a.
Proof.
  intros HP Hp Ha. apply optional_Success in Hp.
  apply z_array_Success in Hp as (raw & _ & _ & Hitems).
  destruct (parse_items_Success s P _ _ _ _ HP Hitems) as [_ Hall].
  by apply (proj1 (Forall_forall _ _) Hall).
Qed.

(** X8. A payload that [createProductSchema] returns satisfies every
    rule stated for creation payloads: what the routes hand to the store
    has a title and a vendor, a body of at least 50 characters if any,
    named options with values, images with valid URLs and with numbers
    for the width and height they give, at least one variant, prices
    above 0, inventory quantities that are non-negative integers, and a
    well-formed [published_at]. A price above 0 need not be finite. *)
Theorem createProductSchema_sound (input : json) (c : CreateProductInput) :
  safeParse createProductSchema input = Success c -> stated_rules c.
Proof.
  intros Hparse.
  destruct (createProductSchema_variants input c Hparse) as [Hne Hpos].
  revert Hparse. unfold safeParse, createProductSchema, z_object.
  destruct input; try discriminate. intros Hp.
  invert_parse Hp. unfold stated_rules. simpl in *.
  split; [|split; [|split; [|split; [|split; [|split; [|split]]]]]].
  - apply z_string_Success in Ha7 as [_ Hcs].
    inversion Hcs as [|? ? Hmin _]; subst.
    by apply not_empty_length, (min_holds 1 "Title is required").
  - apply z_string_Success in Ha5 as [_ Hcs].
    inversion Hcs as [|? ? Hmin _]; subst.
    by apply not_empty_length, (min_holds 1 "Vendor is required").
  - intros b ->. apply optional_Success in Ha6.
    apply z_string_Success in Ha6 as [_ Hcs].
    inversion Hcs as [|? ? Hmin _]; subst.
    by apply (min_holds 50 "Description must be at least 50 characters").
  - intros options o -> Ho.
    by apply (optional_array_Success optionSchema
                (fun o => o_name o <> "" /\ o_values o <> [])
                _ _ options o optionSchema_Success Ha2).
  - intros images i -> Hi.
    by apply (optional_array_Success imageSchema
                (fun i => isURL (i_src i) = true
                          /\ i_width i <> Some null
                          /\ i_height i <> Some null)
                _ _ images i imageSchema_Success Ha1).
  - done.
  - intros v Hv. split; [by apply (proj1 (Forall_forall _ _) Hpos)|].
    apply z_array_Success in Ha0 as (raw & _ & _ & Hitems).
    destruct (parse_items_Success variantSchema
                (fun v => forall n, v_inventory_quantity v = Some n ->
                                    is_natural n)
                _ _ _ _
                (fun j q a Hs n => variantSchema_inventory j q a n Hs)
                Hitems) as [_ Hall].
    by apply (proj1 (Forall_forall _ _) Hall).
  - intros t ->. apply nullable_Success, optional_Success in Ha.
    apply z_string_Success in Ha as [_ Hcs]. by inversion Hcs.
Qed.

(** *** The schema of updates *)

Lemma optional_present {A} (s : schema A) (j : option json)
    (p : list seg) (a : A) :
  s j p = Success a -> j <> None -> optional s j p = Success (Some a).
Proof.
  intros Hs Hj. unfold optional. destruct j; [|done]. by rewrite Hs.
Qed.

Lemma partial_key_same {A} (s : schema A) (j : option json)
    (p : list seg) (o : option A) :
  optional s j p = Success o -> partial_key (optional s) j p = Success o.
Proof.
  unfold partial_key. intros Hs.
  destruct j as [x|]; [|by injection Hs as <-].
  change (optional (optional s) (Some x) p)
    with (Success Some <*> optional s (Some x) p).
  by rewrite Hs.
Qed.

(** X9. A body that [createProductSchema] accepts is accepted by
    [updateProductSchema] too, with the same value under every key; the
    update payload omits [published_at] exactly when the body does. *)
Theorem creation_body_is_update_body (input : json)
    (c : CreateProductInput) :
  safeParse createProductSchema input = Success c ->
  exists u,
    safeParse updateProductSchema input = Success u
    /\ u_title u = Some (c_title c)
    /\ u_body_html u = c_body_html c
    /\ u_vendor u = Some (c_vendor c)
    /\ u_product_type u = c_product_type c
    /\ u_tags u = c_tags c
    /\ u_options u = c_options c
    /\ u_images u = c_images c
    /\ u_variants u = Some (c_variants c)
    /\ match u_published_at u with
       | None => c_published_at c = notNull None
       | Some given => given = c_published_at c
       end.
Proof.
  unfold safeParse, createProductSchema, updateProductSchema, z_object.
  destruct input; try discriminate. intros Hp.
  invert_parse Hp. unfold field in *.
  assert (Ht : optional title_schema (prop "title" kv) ([] ++ [Key "title"])
               = Success (Some a7)).
  { apply optional_present; [done|].
    intros Hn. rewrite Hn in Ha7. discriminate. }
  assert (Hv : optional vendor_schema (prop "vendor" kv)
                 ([] ++ [Key "vendor"]) = Success (Some a5)).
  { apply optional_present; [done|].
    intros Hn. rewrite Hn in Ha5. discriminate. }
  assert (Hva : optional variants_schema (prop "variants" kv)
                  ([] ++ [Key "variants"]) = Success (Some a0)).
  { apply optional_present; [done|].
    intros Hn. rewrite Hn in Ha0. discriminate. }
  rewrite Ht, Hv, Hva.
  unfold body_html_schema, product_type_schema, tags_schema,
    options_schema, images_schema in *.
  rewrite (partial_key_same _ _ _ _ Ha6), (partial_key_same _ _ _ _ Ha4),
    (partial_key_same _ _ _ _ Ha3), (partial_key_same _ _ _ _ Ha2),
    (partial_key_same _ _ _ _ Ha1).
  destruct (prop "published_at" kv) as [x|] eqn:Hpub.
  - rewrite (optional_present published_at_schema (Some x) _ a Ha)
      by done.
    rewrite !ap_pure. eexists. by repeat split.
  - change (optional published_at_schema None ([] ++ [Key "published_at"]))
      with (@Success (option (orNull (option string))) None).
    rewrite !ap_pure. eexists. repeat split.
    simpl. by injection Ha as <-.
Qed.

(** X10. [updateProductSchema] accepts every object that has none of
    the nine keys, whatever other keys it has, and returns the empty
    payload; but [.partial()] does not reach into the keys: a body that
    gives [variants] must give at least one, so the empty list is
    rejected with the message of the creation schema. *)
Theorem updateProductSchema_without_keys_and_empty_variants
    (kv : list (string * json)) :
  ((forall k, k ∈ ["title"; "body_html"; "vendor"; "product_type"; "tags";
                   "options"; "images"; "variants"; "published_at"] ->
              prop k kv = None) ->
     safeParse updateProductSchema (JObj kv)
     = Success ProductStore.empty_update)
  /\ (prop "variants" kv = Some (JArr []) ->
        fails_with (safeParse updateProductSchema (JObj kv))
          {| path := [Key "variants"];
             message := "At least one variant is required" |}).
Proof.
  unfold safeParse, updateProductSchema, z_object. split.
  - intros Hno. unfold field.
    rewrite !Hno by (repeat first [apply list_elem_of_here
                                  | apply list_elem_of_further]).
    reflexivity.
  - intros Hkv.
    assert (Hk : fails_with
               (field kv [] "variants" (optional variants_schema))
               {| path := [Key "variants"];
                  message := "At least one variant is required" |}).
    { unfold field. rewrite Hkv. unfold optional.
      apply fails_with_ap_r. unfold variants_schema, z_array.
      apply fails_with_ap_l, fails_with_ap_r.
      by apply (checked_fails _ [] _
                  (nonempty "At least one variant is required"));
        [apply list_elem_of_singleton|]. }
    blame Hk.
Qed.

(** *** More of what the schema of creation rejects *)

Lemma natural_or_not (q : number) :
  ~ natural q -> holds int q = false \/ holds nonnegative q = false.
Proof.
  intros Hq. destruct (holds int q) eqn:Hint; [|by left].
  destruct (holds nonnegative q) eqn:Hnn; [|by right].
  exfalso. by apply Hq, holds_natural.
Qed.

(** X11. [createProductSchema] fails, with an issue under the path of
    the offending value, on a body whose [body_html] has fewer than 50
    characters, on a variant whose inventory quantity is a number that
    is not a non-negative integer, and on an image whose [src] is not a
    valid URL; and on every JSON value that is not an object, null and
    arrays included, it fails with an issue at the root. *)
Theorem createProductSchema_rejects_more :
  (forall kv s,
     prop "body_html" kv = Some (JStr s) -> String.length s < 50 ->
     fails_with (safeParse createProductSchema (JObj kv))
       {| path := [Key "body_html"];
          message := "Description must be at least 50 characters" |})
  /\ (forall kv variants i v q,
        prop "variants" kv = Some (JArr variants) ->
        variants !! i = Some (JObj v) ->
        prop "inventory_quantity" v = Some (JNum q) -> ~ natural q ->
        exists m,
          fails_with (safeParse createProductSchema (JObj kv))
            {| path := [Key "variants"; Idx i; Key "inventory_quantity"];
               message := m |})
  /\ (forall kv images i img s,
        prop "images" kv = Some (JArr images) ->
        images !! i = Some (JObj img) ->
        prop "src" img = Some (JStr s) -> isURL s = false ->
        fails_with (safeParse createProductSchema (JObj kv))
          {| path := [Key "images"; Idx i; Key "src"];
             message := "Image must be a valid URL" |})
  /\ (forall input,
        (forall kv, input <> JObj kv) ->
        safeParse createProductSchema input
        = Failure [invalid_type "object" (Some input) []]).
Proof.
  unfold safeParse, createProductSchema, z_object.
  split; [|split; [|split]].
  - intros kv s Hkv Hlen.
    assert (Hk : fails_with (field kv [] "body_html" body_html_schema)
                   {| path := [Key "body_html"];
                      message :=
                        "Description must be at least 50 characters" |}).
    { unfold field, body_html_schema, optional. rewrite Hkv.
      apply fails_with_ap_r.
      apply (checked_fails _ s _
               (min 50 "Description must be at least 50 characters"));
        [by apply list_elem_of_singleton|].
      apply Nat.leb_gt. exact Hlen. }
    blame Hk.
  - intros kv variants i v q Hkv Hi Hinv Hq.
    assert (Hm : exists m,
               fails_with
                 (field v [Key "variants"; Idx i] "inventory_quantity"
                    (optional (z_number [int; nonnegative])))
                 {| path := [Key "variants"; Idx i;
                             Key "inventory_quantity"];
                    message := m |}).
    { unfold field. rewrite Hinv. unfold optional, z_number.
      destruct (natural_or_not q Hq) as [Hint | Hnn].
      - exists (msg int). apply fails_with_ap_r.
        apply (checked_fails _ q _ int); [|done].
        apply list_elem_of_here.
      - exists (msg nonnegative). apply fails_with_ap_r.
        apply (checked_fails _ q _ nonnegative); [|done].
        apply list_elem_of_further, list_elem_of_here. }
    destruct Hm as [m Hm]. exists m.
    assert (Hk : fails_with (field kv [] "variants" variants_schema)
                   {| path := [Key "variants"; Idx i;
                               Key "inventory_quantity"];
                      message := m |}).
    { unfold field, variants_schema, z_array. rewrite Hkv.
      apply fails_with_ap_r.
      apply (parse_items_fails _ variants 0 i _ (JObj v)); [done|].
      unfold variantSchema, z_object. blame Hm. }
    blame Hk.
  - intros kv images i img s Hkv Hi Hsrc Hurl.
    assert (Hm : fails_with
                   (field img [Key "images"; Idx i] "src"
                      (z_string [url "Image must be a valid URL"]))
                   {| path := [Key "images"; Idx i; Key "src"];
                      message := "Image must be a valid URL" |}).
    { unfold field. rewrite Hsrc.
      apply (checked_fails _ s _ (url "Image must be a valid URL"));
        [by apply list_elem_of_singleton | done]. }
    assert (Hk : fails_with (field kv [] "images" images_schema)
                   {| path := [Key "images"; Idx i; Key "src"];
                      message := "Image must be a valid URL" |}).
    { unfold field, images_schema, optional. rewrite Hkv.
      apply fails_with_ap_r. unfold z_array. apply fails_with_ap_r.
      apply (parse_items_fails _ images 0 i _ (JObj img)); [done|].
      unfold imageSchema, z_object. blame Hm. }
    blame Hk.
  - intros input Hno. destruct input; try done. by destruct (Hno kv).
Qed.

End MoreSchemaFacts.

(** ** The routes of the products *)

Section RouteFacts.
Context `{Runtime} `{Zod.Formats}.
Import Zod ProductSchemas ProductStore ZodError.

Lemma fold_flatten (issues : list ZodIssue) (acc : Flattened) (k : string) :
  formErrors (fold_left flatten_issue issues acc)
  = formErrors acc ++ (message <$> filter rootless issues)
  /\ default [] (fieldErrors (fold_left flatten_issue issues acc) !! k)
     = default [] (fieldErrors acc !! k)
       ++ (message <$> filter (under k) issues).
Proof.
  revert acc. induction issues as [|sub issues IH]; intros acc.
  { simpl. by rewrite !app_nil_r. }
  simpl. destruct (IH (flatten_issue acc sub)) as [-> ->].
  rewrite !filter_cons.
  destruct (decide (rootless sub)) as [Hr|Hr],
           (decide (under k sub)) as [Hu|Hu];
    unfold flatten_issue; unfold rootless, under in Hr, Hu;
    destruct (path sub) as [|s rest]; simpl in *; try congruence.
  - by rewrite <- app_assoc.
  - injection Hu as ->. split; [done|].
    rewrite lookup_insert_eq. simpl. by rewrite <- app_assoc.
  - rewrite lookup_insert_ne by congruence. done.
Qed.

Lemma flatten_field (issues : list ZodIssue) (sub : ZodIssue)
    (k : seg) (rest : list seg) :
  sub ∈ issues -> path sub = k :: rest ->
  message sub ∈ default [] (fieldErrors (flatten issues) !! key_name k).
Proof.
  intros Hin Hpath. unfold flatten.
  destruct (fold_flatten issues {| formErrors := []; fieldErrors := ∅ |}
              (key_name k)) as [_ ->].
  apply elem_of_app. right. apply list_elem_of_fmap.
  exists sub. split; [done|]. apply list_elem_of_filter.
  split; [|done]. unfold under. by rewrite Hpath.
Qed.

(** X12. A POST or PUT whose body fails its schema is answered with the
    status 400, and every issue of the schema that has a path is
    reported in the response under the first key of its path; nothing
    is read from or written to the store, so not even the seed document
    is created. *)
Theorem invalid_body_400_with_field_errors
    (input : json) (w : World) (id : string) (sub : ZodIssue)
    (k : seg) (rest : list seg) :
  path sub = k :: rest ->
  (fails_with (safeParse createProductSchema input) sub ->
     exists flattened,
       ProductsRoute.POST (Some input) w
       = ({| status := 400;
             body := validation_failed "Validation failed" flattened |}, w)
       /\ message sub ∈ default [] (fieldErrors flattened !! key_name k))
  /\ (fails_with (safeParse updateProductSchema input) sub ->
        exists flattened,
          ProductRoute.PUT id (Some input) w
          = ({| status := 400;
                body := validation_failed "Validation failed" flattened |},
             w)
          /\ message sub
             ∈ default [] (fieldErrors flattened !! key_name k)).
Proof.
  intros Hpath. split; intros (issues & Hfail & Hin).
  - unfold ProductsRoute.POST. rewrite Hfail. eexists. split; [done|].
    by eapply flatten_field.
  - unfold ProductRoute.PUT. rewrite Hfail. eexists. split; [done|].
    by eapply flatten_field.
Qed.

Lemma getProductById_existing (w : World) (d : document) (id : string) :
  file w = Some d -> (getProductById id w).2 = w.
Proof.
  intros Hf. unfold getProductById.
  by rewrite (readProductsFromFile_existing w d Hf).
Qed.

(** X13. A request that is answered with an error status changes
    nothing: with 400 or 500 the store is not touched at all, and with
    404 a document that exists is left as it is, no identifier is drawn
    and the clock is not read. *)
Theorem error_responses_change_nothing (r : request) (w : World) :
  (status (handle r w).1 = 400 \/ status (handle r w).1 = 500 ->
     (handle r w).2 = w)
  /\ (status (handle r w).1 = 404 -> file w <> None ->
        (handle r w).2 = w).
Proof.
  destruct r as [|req_json|id|id req_json|id]; simpl.
  - unfold ProductsRoute.GET. destruct (listProducts w) as [data w1].
    simpl. split; [by intros [|] | done].
  - unfold ProductsRoute.POST. destruct req_json as [input|]; [|done].
    destruct (safeParse createProductSchema input) as [payload|issues];
      [|done].
    destruct (createProduct payload w) as [product w1]. simpl.
    split; [by intros [|] | done].
  - unfold ProductRoute.GET.
    pose proof (fun d => getProductById_existing w d id) as Hget.
    destruct (getProductById id w) as [[product|] w1]; simpl in *.
    + split; [by intros [|] | done].
    + split; [by intros [|]|]. intros _ Hf.
      destruct (file w) as [d|] eqn:Hd; [|done]. by apply (Hget d).
  - unfold ProductRoute.PUT. destruct req_json as [input|]; [|done].
    destruct (safeParse updateProductSchema input) as [payload|issues];
      [|done].
    assert (Hup : forall d, file w = Some d ->
                  (updateProduct id payload w).1 = None ->
                  (updateProduct id payload w).2 = w).
    { intros d Hd. unfold updateProduct.
      rewrite (readProductsFromFile_existing w d Hd).
      destruct (list_find _ _) as [[idx existing]|]; [|done].
      by destruct (match u_variants payload with
                   | Some vs => _ | None => _ end). }
    destruct (updateProduct id payload w) as [[updated|] w1]; simpl in *.
    + split; [by intros [|] | done].
    + split; [by intros [|]|]. intros _ Hf.
      destruct (file w) as [d|] eqn:Hd; [|done]. by apply (Hup d).
  - unfold ProductRoute.DELETE.
    assert (Hdel : forall d, file w = Some d ->
                   (deleteProduct id w).1 = false ->
                   (deleteProduct id w).2 = w).
    { intros d Hd. unfold deleteProduct.
      rewrite (readProductsFromFile_existing w d Hd).
      by destruct (list_find _ _) as [[idx existing]|]. }
    destruct (deleteProduct id w) as [[|] w1]; simpl in *.
    + split; [by intros [|] | done].
    + split; [by intros [|]|]. intros _ Hf.
      destruct (file w) as [d|] eqn:Hd; [|done]. by apply (Hdel d).
Qed.

Lemma handle_is_validated_step (r : request) (w : World) :
  (handle r w).2 = w
  \/ exists c, validated c /\ (handle r w).2 = step w c.
Proof.
  destruct r as [|req_json|id|id req_json|id]; simpl.
  - right. exists List. split; [done|]. unfold ProductsRoute.GET. simpl.
    by destruct (listProducts w).
  - unfold ProductsRoute.POST. destruct req_json as [input|]; [|by left].
    destruct (safeParse createProductSchema input) as [payload|issues] eqn:Hp;
      [|by left].
    right. exists (Create payload). split; [by exists input|]. simpl.
    by destruct (createProduct payload w).
  - right. exists (Get id). split; [done|]. unfold ProductRoute.GET. simpl.
    by destruct (getProductById id w) as [[|] ?].
  - unfold ProductRoute.PUT. destruct req_json as [input|]; [|by left].
    destruct (safeParse updateProductSchema input) as [payload|issues] eqn:Hp;
      [|by left].
    right. exists (Update id payload). split; [by exists input|]. simpl.
    by destruct (updateProduct id payload w) as [[|] ?].
  - right. exists (Delete id). split; [done|]. unfold ProductRoute.DELETE.
    simpl. by destruct (deleteProduct id w) as [[|] ?].
Qed.

(** X14. Whatever requests the routes receive, with any bodies, valid
    or not, every product of the document has at least one variant, and
    the price of every variant is a finite number above 0 or null, from
    a store without document, with the empty collection or with the
    seed. Null is what the document holds for a price beyond the range
    of the doubles, which the schema takes for a number above 0 and
    [JSON.stringify] writes as null. *)
Theorem routes_keep_variants_priced_or_null
    (rs : list request) (w : World) :
  initial w -> Forall has_variants_priced_or_null (stored (serve rs w)).
Proof.
  intros Hinit. apply initial_priced in Hinit as Hw.
  clear Hinit. unfold serve. revert w Hw.
  induction rs as [|r rs IH]; intros w Hw; [done|].
  simpl. apply IH.
  destruct (handle_is_validated_step r w) as [-> | (c & Hc & ->)];
    [done | by apply step_priced].
Qed.

(** X15. No PUT, whatever its body, changes the identifier or the
    [created_at] of a product of an existing document, or the number of
    products: keys outside the schema are dropped before the store sees
    the payload, and the store writes the updated product in place. *)
Theorem PUT_keeps_ids_and_created_at
    (id : string) (req_json : option json) (w : World) (d : document) :
  file w = Some d ->
  p_id <$> stored (ProductRoute.PUT id req_json w).2 = p_id <$> stored w
  /\ p_created_at <$> stored (ProductRoute.PUT id req_json w).2
     = p_created_at <$> stored w.
Proof.
  intros Hf. unfold ProductRoute.PUT.
  destruct req_json as [input|]; [|done].
  destruct (safeParse updateProductSchema input) as [payload|issues];
    [|done].
  unfold updateProduct. rewrite (readProductsFromFile_existing w d Hf).
  destruct (list_find _ (stored w)) as [[idx existing]|] eqn:Hfind;
    [|done].
  apply list_find_Some in Hfind as (Hidx & _ & _).
  destruct (match u_variants payload with
            | Some vs => _ | None => _ end) as [variants n].
  cbn [snd].
  rewrite stored_write, written_ids, written_created_at, !list_fmap_insert.
  cbn [p_id p_created_at].
  by rewrite !list_insert_id by (by rewrite list_lookup_fmap, Hidx).
Qed.

End RouteFacts.

(** ** The user stores and the signup route *)

Section MoreUserStoreFacts.
Context `{Entropy} `{Compare} `{EmailFormat}.

(** *** In memory *)

Lemma createUser_cases (name email password : string)
    (st : UserStore.Store) :
  ((exists u, u ∈ UserStore.users st
              /\ toLowerCase (user_email u) = toLowerCase email)
   /\ UserStore.createUser name email password st
      = (Rejected (Error "User with this email already exists"), st))
  \/ ((forall u, u ∈ UserStore.users st ->
                 toLowerCase (user_email u) <> toLowerCase email)
      /\ exists user,
           user = {| user_id := genId (UserStore.ids st);
                     user_name := name;
                     user_email := email;
                     user_passwordHash :=
                       bcrypt_hash password 10 (UserStore.hashes st) |}
           /\ (UserStore.createUser name email password st).1 = Resolved user
           /\ UserStore.users (UserStore.createUser name email password st).2
              = UserStore.users st ++ [user]).
Proof.
  unfold UserStore.createUser, UserStore.findUserByEmail.
  destruct (list_find _ (UserStore.users st)) as [[i u]|] eqn:Hfind; simpl.
  - left. apply list_find_Some in Hfind as (Hi & Hu & _).
    split; [|done]. exists u. split; [|done]. by eapply list_elem_of_lookup_2.
  - right. apply list_find_None in Hfind. split; [|eauto].
    by apply Forall_forall.
Qed.

(** X17. Through any series of signups the in-process store keeps the
    users it had, in their order, and the emails of its users stay
    distinct up to case. *)
Theorem createUsers_keep_users_and_distinct_emails
    (calls : list (string * string * string)) (st : UserStore.Store) :
  NoDup (UserStoreAuth.lower_emails st) ->
  UserStore.users st `prefix_of`
    UserStore.users (UserStoreAuth.createUsers calls st)
  /\ NoDup (UserStoreAuth.lower_emails (UserStoreAuth.createUsers calls st)).
Proof.
  unfold UserStoreAuth.createUsers. revert st.
  induction calls as [|[[name email] password] calls IH]; intros st Hnd.
  { done. }
  simpl.
  destruct (createUser_cases name email password st)
    as [[_ ->] | [Hno (user & Huser & _ & Husers)]].
  { by apply IH. }
  destruct (IH (UserStore.createUser name email password st).2) as [Hpre Hnd'].
  - unfold UserStoreAuth.lower_emails. rewrite Husers, fmap_app.
    apply NoDup_app. split; [done|]. split; [|apply NoDup_singleton].
    intros x Hx Hx'. apply list_elem_of_singleton in Hx'.
    apply list_elem_of_fmap in Hx as (u & -> & Hu).
    apply (Hno u Hu). by rewrite Hx', Huser.
  - split; [|done]. etrans; [|exact Hpre]. rewrite Husers.
    by apply prefix_app_r.
Qed.

Lemma list_find_none_ext {A} (P Q : A -> Prop)
    `{forall x, Decision (P x)} `{forall x, Decision (Q x)} (l : list A) :
  (forall x, P x <-> Q x) -> list_find P l = None -> list_find Q l = None.
Proof.
  intros HPQ HP. apply list_find_None. apply list_find_None in HP.
  eapply Forall_impl; [exact HP|]. intros x Hx HQ. by apply Hx, HPQ.
Qed.

Lemma createUser_then_findUserByEmail_aux
    (name email password email' : string) (st : UserStore.Store)
    (user : LocalUser) :
  (UserStore.createUser name email password st).1 = Resolved user ->
  toLowerCase email' = toLowerCase email ->
  UserStore.findUserByEmail email'
    (UserStore.createUser name email password st).2 = Some user.
Proof.
  intros Hres Hcase.
  destruct (createUser_cases name email password st)
    as [[_ Hrej] | [Hno (user' & Huser & Hres' & Husers)]].
  { rewrite Hrej in Hres. discriminate. }
  rewrite Hres' in Hres. injection Hres as ->.
  unfold UserStore.findUserByEmail. rewrite Husers.
  rewrite (@list_find_snoc _
             (fun u => toLowerCase (user_email u) = toLowerCase email') _
             (UserStore.users st) user).
  rewrite (list_find_none_ext
             (fun u => toLowerCase (user_email u) = toLowerCase email)
             (fun u => toLowerCase (user_email u) = toLowerCase email')).
  - simpl. rewrite decide_True; [done|]. by rewrite Huser.
  - intros u. by rewrite Hcase.
  - apply list_find_None, Forall_forall. exact Hno.
Qed.

(** X18. Once [createUser] has resolved, [findUserByEmail] returns the
    new user for the email in any mix of cases, and for every other
    email what it returned before. *)
Theorem createUser_then_findUserByEmail
    (name email password email' : string) (st : UserStore.Store)
    (user : LocalUser) :
  (UserStore.createUser name email password st).1 = Resolved user ->
  UserStore.findUserByEmail email'
    (UserStore.createUser name email password st).2
  = if decide (toLowerCase email' = toLowerCase email)
    then Some user
    else UserStore.findUserByEmail email' st.
Proof.
  intros Hres.
  destruct (createUser_cases name email password st)
    as [[_ Hrej] | [Hno (user' & Huser & Hres' & Husers)]].
  { rewrite Hrej in Hres. discriminate. }
  rewrite Hres' in Hres. injection Hres as ->.
  unfold UserStore.findUserByEmail. rewrite Husers.
  rewrite (@list_find_snoc _
             (fun u => toLowerCase (user_email u) = toLowerCase email') _
             (UserStore.users st) user).
  destruct (decide (toLowerCase email' = toLowerCase email)) as [Heq | Hne].
  - rewrite (list_find_none_ext
               (fun u => toLowerCase (user_email u) = toLowerCase email)
               (fun u => toLowerCase (user_email u) = toLowerCase email')).
    + simpl. rewrite decide_True; [done|]. by rewrite Huser.
    + intros u. by rewrite Heq.
    + apply list_find_None, Forall_forall. exact Hno.
  - destruct (list_find _ (UserStore.users st)) as [[i u]|]; [done|].
    simpl. rewrite decide_False; [done|]. rewrite Huser. simpl. congruence.
Qed.

(** X19. [verifyUserCredentials] returns a user only when that user is
    stored, has the given email up to case and bcrypt accepts the
    password for the stored hash; it returns null when no user has the
    email. When bcrypt accepts every password for the hashes it made of
    it, a user who has just signed up is verified with the password of
    the signup, under the email in any mix of cases. *)
Theorem verifyUserCredentials_sound_and_accepts_signup
    (name email password email' attempt : string) (st : UserStore.Store) :
  (forall u,
     UserStoreAuth.verifyUserCredentials email' attempt st = Some u ->
     u ∈ UserStore.users st
     /\ toLowerCase (user_email u) = toLowerCase email'
     /\ bcrypt_compare attempt (user_passwordHash u) = true)
  /\ ((forall u, u ∈ UserStore.users st ->
                 toLowerCase (user_email u) <> toLowerCase email') ->
        UserStoreAuth.verifyUserCredentials email' attempt st = None)
  /\ ((forall pw rounds n,
         bcrypt_compare pw (bcrypt_hash pw rounds n) = true) ->
      forall user,
        (UserStore.createUser name email password st).1 = Resolved user ->
        toLowerCase email' = toLowerCase email ->
        UserStoreAuth.verifyUserCredentials email' password
          (UserStore.createUser name email password st).2
        = Some user).
Proof.
  split; [|split].
  - intros u. unfold UserStoreAuth.verifyUserCredentials,
      UserStore.findUserByEmail.
    destruct (list_find _ (UserStore.users st)) as [[i x]|] eqn:Hfind;
      [|done].
    simpl. destruct (bcrypt_compare attempt (user_passwordHash x)) eqn:Hc;
      [|done].
    intros [= ->]. apply list_find_Some in Hfind as (Hi & Hu & _).
    split; [by eapply list_elem_of_lookup_2 | done].
  - intros Hno. unfold UserStoreAuth.verifyUserCredentials.
    by rewrite (UserStore_find_none email' st Hno).
  - intros Hbcrypt user Hres Hcase.
    unfold UserStoreAuth.verifyUserCredentials.
    rewrite (createUser_then_findUserByEmail_aux name email password email'
               st user Hres Hcase).
    destruct (createUser_cases name email password st)
      as [[_ Hrej] | [_ (user' & Huser & Hres' & _)]].
    { rewrite Hrej in Hres. discriminate. }
    rewrite Hres' in Hres. injection Hres as <-. subst user'. simpl.
    by rewrite Hbcrypt.
Qed.

(** *** On file *)

Lemma filter_guarded (l : list json) :
  Forall (fun u => UserStoreFile.isLocalUser u = true) l ->
  List.filter UserStoreFile.isLocalUser l = l.
Proof.
  induction 1 as [|u l Hu _ IH]; [done|]. simpl. by rewrite Hu, IH.
Qed.

(** What is written keeps the keys and the strings, so that an entry
    that passes the guard of the loader passes it when read back. *)
Lemma prop_reparsed (k : string) (kv : list (string * json)) :
  prop k (map (fun e => match e with (k', v) => (k', reparsed v) end) kv)
  = reparsed <$> prop k kv.
Proof.
  induction kv as [|[k' v] kv IH]; [done|].
  simpl. by destruct (String.eqb k k').
Qed.

Lemma reparsed_guarded (l : list json) :
  Forall (fun u => UserStoreFile.isLocalUser u = true) l ->
  Forall (fun u => UserStoreFile.isLocalUser u = true) (map reparsed l).
Proof.
  induction 1 as [|u l Hu _ IH]; [done|]. simpl. constructor; [|done].
  apply isLocalUser_spec in Hu as (kv & i & e & h & -> & Hi & He & Hh).
  apply isLocalUser_spec. eexists _, i, e, h. split; [reflexivity|].
  by rewrite !prop_reparsed, Hi, He, Hh.
Qed.

Lemma file_createUser_cases (name email password : string)
    (st : UserStoreFile.Store) :
  (UserStoreFile.loaded st = true ->
     Forall (fun u => UserStoreFile.isLocalUser u = true)
       (UserStoreFile.users st)) ->
  forall user,
    (UserStoreFile.createUser name email password st).1 = Resolved user ->
    let st1 := UserStoreFile.ensureLoaded st in
    let st2 :=
      {| UserStoreFile.users :=
           UserStoreFile.users st1 ++ [UserStoreFile.LocalUser_object user];
         UserStoreFile.loaded := true;
         UserStoreFile.disk := UserStoreFile.disk st;
         UserStoreFile.writable := UserStoreFile.writable st;
         UserStoreFile.ids := S (UserStoreFile.ids st);
         UserStoreFile.hashes := S (UserStoreFile.hashes st) |} in
    UserStoreFile.find_email email (UserStoreFile.users st1) = Resolved None
    /\ user = {| user_id := genId (UserStoreFile.ids st);
                 user_name := name;
                 user_email := email;
                 user_passwordHash :=
                   bcrypt_hash password 10 (UserStoreFile.hashes st) |}
    /\ (UserStoreFile.createUser name email password st).2
       = UserStoreFile.saveUsersToDisk st2
    /\ Forall (fun u => UserStoreFile.isLocalUser u = true)
         (UserStoreFile.users st2).
Proof.
  intros Hguard user. unfold UserStoreFile.createUser.
  pose proof (stored_users_guarded st Hguard) as Hwf.
  unfold UserStoreFile.stored_users in Hwf.
  assert (Hsame : UserStoreFile.ids (UserStoreFile.ensureLoaded st)
                  = UserStoreFile.ids st
                  /\ UserStoreFile.hashes (UserStoreFile.ensureLoaded st)
                     = UserStoreFile.hashes st
                  /\ UserStoreFile.loaded (UserStoreFile.ensureLoaded st)
                     = true
                  /\ UserStoreFile.disk (UserStoreFile.ensureLoaded st)
                     = UserStoreFile.disk st
                  /\ UserStoreFile.writable (UserStoreFile.ensureLoaded st)
                     = UserStoreFile.writable st).
  { unfold UserStoreFile.ensureLoaded.
    by destruct (UserStoreFile.loaded st) eqn:E. }
  destruct Hsame as (Hids & Hhashes & Hloaded & Hdisk & Hwr).
  destruct (UserStoreFile.find_email email _) as [[u|]|e] eqn:Hfind;
    try discriminate.
  cbn [fst snd]. rewrite Hids, Hhashes, Hloaded, Hdisk, Hwr.
  intros [= <-]. repeat split; try done.
  simpl. apply Forall_app. split; [done | by repeat constructor].
Qed.

(** X20. What [createUser] writes, a new process reads back: after a
    signup that resolved on a store whose file can be written, loading
    [users.json] gives exactly the users that the store has in memory,
    as [JSON.stringify] writes them, the new one last and as it is in
    memory. *)
Theorem createUser_saved_users_load_back
    (name email password : string) (st : UserStoreFile.Store)
    (user : LocalUser) :
  (UserStoreFile.loaded st = true ->
     Forall (fun u => UserStoreFile.isLocalUser u = true)
       (UserStoreFile.users st)) ->
  UserStoreFile.writable st = true ->
  (UserStoreFile.createUser name email password st).1 = Resolved user ->
  UserStoreFile.loadUsersFromDisk
    (UserStoreFile.disk (UserStoreFile.createUser name email password st).2)
  = map reparsed
      (UserStoreFile.users
         (UserStoreFile.createUser name email password st).2)
  /\ UserStoreFile.users (UserStoreFile.createUser name email password st).2
     = UserStoreFile.stored_users st ++ [UserStoreFile.LocalUser_object user]
  /\ reparsed (UserStoreFile.LocalUser_object user)
     = UserStoreFile.LocalUser_object user.
Proof.
  intros Hguard Hwr Hres.
  destruct (file_createUser_cases name email password st Hguard user Hres)
    as (_ & _ & -> & Hwf).
  unfold UserStoreFile.saveUsersToDisk. cbn [UserStoreFile.writable].
  rewrite Hwr. cbn [UserStoreFile.disk UserStoreFile.users].
  split; [|done]. cbn [reparsed UserStoreFile.loadUsersFromDisk].
  by apply filter_guarded, reparsed_guarded.
Qed.

(** X21. A write that fails is not reported: when the file cannot be
    written, a signup with an unknown email still resolves and the user
    is in memory, but the file is what it was, so a new process will not
    know the user. *)
Theorem createUser_failed_write_is_silent
    (name email password : string) (st : UserStoreFile.Store) :
  (UserStoreFile.loaded st = true ->
     Forall (fun u => UserStoreFile.isLocalUser u = true)
       (UserStoreFile.users st)) ->
  UserStoreFile.writable st = false ->
  (forall u e, u ∈ UserStoreFile.stored_users st ->
     UserStoreFile.get u "email" = Some (JStr e) ->
     toLowerCase e <> toLowerCase email) ->
  exists user,
    (UserStoreFile.createUser name email password st).1 = Resolved user
    /\ UserStoreFile.users
         (UserStoreFile.createUser name email password st).2
       = UserStoreFile.stored_users st ++ [UserStoreFile.LocalUser_object user]
    /\ UserStoreFile.disk
         (UserStoreFile.createUser name email password st).2
       = UserStoreFile.disk st.
Proof.
  intros Hguard Hwr Hno.
  pose proof (stored_users_guarded st Hguard) as Hwf.
  assert (Hres : exists user,
             (UserStoreFile.createUser name email password st).1
             = Resolved user).
  { unfold UserStoreFile.createUser. unfold UserStoreFile.stored_users in *.
    rewrite (find_email_none email _ Hwf Hno). eauto. }
  destruct Hres as [user Hres]. exists user. split; [done|].
  destruct (file_createUser_cases name email password st Hguard user Hres)
    as (_ & _ & -> & _).
  unfold UserStoreFile.saveUsersToDisk. cbn [UserStoreFile.writable].
  by rewrite Hwr.
Qed.

Lemma find_email_case (email email' : string) (l : list json) :
  toLowerCase email' = toLowerCase email ->
  UserStoreFile.find_email email' l = UserStoreFile.find_email email l.
Proof.
  intros Hcase. induction l as [|u l IH]; [done|].
  simpl. destruct (UserStoreFile.get u "email") as [[]|]; try done.
  by rewrite Hcase, IH.
Qed.

Lemma find_email_app_None (email : string) (l l' : list json) :
  UserStoreFile.find_email email l = Resolved None ->
  UserStoreFile.find_email email (l ++ l')
  = UserStoreFile.find_email email l'.
Proof.
  induction l as [|u l IH]; [done|]. simpl.
  destruct (UserStoreFile.get u "email") as [[]|]; try done.
  by destruct (String.eqb _ _).
Qed.

(** X22. On the store on file too, a user who has just signed up is
    found and verified: when bcrypt accepts every password for the
    hashes it made of it, [verifyUserCredentials] with the password of
    the signup and the email in any mix of cases resolves to the stored
    record of the new user, and leaves the store as it is. *)
Theorem file_verifyUserCredentials_accepts_signup
    (name email password email' : string) (st : UserStoreFile.Store)
    (user : LocalUser) :
  (UserStoreFile.loaded st = true ->
     Forall (fun u => UserStoreFile.isLocalUser u = true)
       (UserStoreFile.users st)) ->
  (forall pw rounds n, bcrypt_compare pw (bcrypt_hash pw rounds n) = true) ->
  (UserStoreFile.createUser name email password st).1 = Resolved user ->
  toLowerCase email' = toLowerCase email ->
  UserStoreFileAuth.verifyUserCredentials email' password
    (UserStoreFile.createUser name email password st).2
  = (Resolved (Some (UserStoreFile.LocalUser_object user)),
     (UserStoreFile.createUser name email password st).2).
Proof.
  intros Hguard Hbcrypt Hres Hcase.
  destruct (file_createUser_cases name email password st Hguard user Hres)
    as (Hfind & Huser & -> & _).
  assert (Hl : forall st2,
             UserStoreFile.loaded st2 = true ->
             UserStoreFile.ensureLoaded (UserStoreFile.saveUsersToDisk st2)
             = UserStoreFile.saveUsersToDisk st2
             /\ UserStoreFile.users (UserStoreFile.saveUsersToDisk st2)
                = UserStoreFile.users st2).
  { intros st2 Hl. unfold UserStoreFile.saveUsersToDisk,
      UserStoreFile.ensureLoaded.
    by destruct (UserStoreFile.writable st2); simpl; rewrite Hl. }
  unfold UserStoreFileAuth.verifyUserCredentials,
    UserStoreFileAuth.findUserByEmail.
  match goal with
  | |- context [UserStoreFile.saveUsersToDisk ?s] =>
      destruct (Hl s eq_refl) as [-> ->]
  end.
  cbn [UserStoreFile.users].
  rewrite (find_email_case email email' _ Hcase),
    (find_email_app_None email _ _ Hfind).
  subst user. simpl. rewrite String.eqb_refl. simpl.
  by rewrite Hbcrypt.
Qed.

(** *** Signing up *)

Lemma includes_already_exists :
  SignupRoute.includes "already exists" "User with this email already exists"
  = true.
Proof. reflexivity. Qed.

(** X16. The signup route answers 400 and leaves the store alone when
    the body fails its schema, as every body with a password of fewer
    than 6 characters does; for a body that passes, it answers 409 and
    leaves the users alone when a stored user has the email up to case,
    the error of the store being recognised by its message, and
    otherwise 201 with the identifier, name and email of the new user,
    never the hash. This holds with either store behind the route. *)
Theorem signup_POST_statuses (input : json) :
  (forall S (createUser : string -> string -> string -> S ->
                          settled LocalUser * S) (st : S) kv pw,
     input = JObj kv ->
     prop "password" kv = Some (JStr pw) -> String.length pw < 6 ->
     signup_status (SignupRoute.POST createUser (Some input) st).1 = 400
     /\ (SignupRoute.POST createUser (Some input) st).2 = st)
  /\ (forall parsed,
        Zod.safeParse SignupRoute.signupSchema input = Zod.Success parsed ->
        (forall st : UserStore.Store,
           ((exists u, u ∈ UserStore.users st
                       /\ toLowerCase (user_email u)
                          = toLowerCase (s_email parsed)) ->
              SignupRoute.POST UserStore.createUser (Some input) st
              = ({| signup_status := 409;
                    signup_body :=
                      signup_error "User with this email already exists" |},
                 st))
           /\ ((forall u, u ∈ UserStore.users st ->
                  toLowerCase (user_email u)
                  <> toLowerCase (s_email parsed)) ->
                 (SignupRoute.POST UserStore.createUser (Some input) st).1
                 = {| signup_status := 201;
                      signup_body :=
                        signup_data (genId (UserStore.ids st))
                          (s_name parsed) (s_email parsed) |}))
        /\ (forall st : UserStoreFile.Store,
              (UserStoreFile.loaded st = true ->
                 Forall (fun u => UserStoreFile.isLocalUser u = true)
                   (UserStoreFile.users st)) ->
              ((exists u e, u ∈ UserStoreFile.stored_users st
                            /\ UserStoreFile.get u "email" = Some (JStr e)
                            /\ toLowerCase e = toLowerCase (s_email parsed)) ->
                 (SignupRoute.POST UserStoreFile.createUser (Some input) st).1
                 = {| signup_status := 409;
                      signup_body :=
                        signup_error "User with this email already exists" |}
                 /\ UserStoreFile.stored_users
                      (SignupRoute.POST UserStoreFile.createUser
                         (Some input) st).2
                    = UserStoreFile.stored_users st)
              /\ ((forall u e, u ∈ UserStoreFile.stored_users st ->
                     UserStoreFile.get u "email" = Some (JStr e) ->
                     toLowerCase e <> toLowerCase (s_email parsed)) ->
                    (SignupRoute.POST UserStoreFile.createUser
                       (Some input) st).1
                    = {| signup_status := 201;
                         signup_body :=
                           signup_data (genId (UserStoreFile.ids st))
                             (s_name parsed) (s_email parsed) |}))).
Proof.
  split.
  - intros S createUser st kv pw -> Hpw Hlen. unfold SignupRoute.POST.
    assert (Hfail : exists issues,
               Zod.safeParse SignupRoute.signupSchema (JObj kv)
               = Zod.Failure issues).
    { enough (Hf : Zod.fails_with
                     (Zod.safeParse SignupRoute.signupSchema (JObj kv))
                     {| Zod.path := [Zod.Key "password"];
                        Zod.message :=
                          "Password must be at least 6 characters" |})
        by (destruct Hf as (issues & Hf & _); eauto).
      unfold Zod.safeParse, SignupRoute.signupSchema, Zod.z_object.
      apply fails_with_ap_r. unfold Zod.field. rewrite Hpw.
      apply (checked_fails _ pw _
               (Zod.min 6 "Password must be at least 6 characters"));
        [by apply list_elem_of_singleton|].
      apply Nat.leb_gt. exact Hlen. }
    destruct Hfail as [issues ->]. done.
  - intros parsed Hparse. unfold SignupRoute.POST. rewrite Hparse. split.
    + intros st. split.
      * intros Hknown.
        destruct (createUser_cases (s_name parsed) (s_email parsed)
                    (s_password parsed) st)
          as [[_ ->] | [Hno _]].
        -- by rewrite includes_already_exists.
        -- destruct Hknown as (u & Hu & He). by destruct (Hno u Hu).
      * intros Hno.
        destruct (createUser_cases (s_name parsed) (s_email parsed)
                    (s_password parsed) st)
          as [[(u & Hu & He) _] | [_ (user & -> & Hres & _)]].
        -- by destruct (Hno u Hu).
        -- destruct (UserStore.createUser _ _ _ st) as [r st1].
           simpl in Hres. by rewrite Hres.
    + intros st Hguard.
      pose proof (stored_users_guarded st Hguard) as Hwf.
      unfold UserStoreFile.stored_users in *.
      unfold UserStoreFile.createUser. split.
      * intros Hknown.
        destruct (find_email_found (s_email parsed) _ Hwf Hknown) as [x ->].
        rewrite includes_already_exists. cbn [fst snd].
        split; [done|]. by rewrite ensureLoaded_idem.
      * intros Hno. rewrite (find_email_none (s_email parsed) _ Hwf Hno).
        cbn [fst]. do 2 f_equal. f_equal.
        unfold UserStoreFile.ensureLoaded.
        by destruct (UserStoreFile.loaded st).
Qed.

End MoreUserStoreFacts.

(** ** The pages *)

Section PageFacts.
Context `{Runtime} `{Zod.Formats}.
Import ProductStore TagsField.

Lemma filter_other_ids (l : list ShopifyProduct) (id : string) :
  (forall p, p ∈ l -> p_id p <> id) ->
  filter (fun p => p_id p <> id) l = l.
Proof.
  induction l as [|p l IH]; intros Hno; [done|].
  rewrite filter_cons, decide_True by (apply Hno, list_elem_of_here).
  rewrite IH; [done|]. intros q Hq. by apply Hno, list_elem_of_further.
Qed.

Lemma filter_is_delete (l : list ShopifyProduct) (id : string)
    (idx : nat) (p : ShopifyProduct) :
  NoDup (p_id <$> l) ->
  list_find (fun p => p_id p = id) l = Some (idx, p) ->
  filter (fun p => p_id p <> id) l = delete idx l.
Proof.
  intros Hnd Hfind. apply list_find_Some in Hfind as (Hidx & Hid & Hmin).
  rewrite delete_take_drop.
  rewrite <- (take_drop_middle l idx p Hidx) at 1.
  rewrite <- (take_drop_middle l idx p Hidx), fmap_app, fmap_cons in Hnd.
  apply NoDup_app in Hnd as (_ & _ & Hnd).
  apply NoDup_cons in Hnd as [Hnotin _].
  rewrite filter_app, filter_cons, decide_False by (by intros Hne).
  rewrite !filter_other_ids; [done | |].
  - intros q Hq Hqid. apply Hnotin. rewrite Hid, <- Hqid.
    by apply list_elem_of_fmap_2.
  - intros q Hq. apply elem_of_take in Hq as (j & Hj & Hlt).
    by apply (Hmin j q).
Qed.

Lemma filter_items (l : list ShopifyProduct) (id : string) :
  filter (fun it => p_id (item it) <> id) (with_min_price <$> l)
  = with_min_price <$> filter (fun p => p_id p <> id) l.
Proof.
  induction l as [|p l IH]; [done|].
  rewrite fmap_cons, !filter_cons. simpl.
  destruct (decide (p_id p <> id)); by rewrite IH.
Qed.

(** X23. When the document is as [JSON.stringify] writes it, all its
    numbers finite, which every document that the store reaches is
    ([run_stored_written]), and its identifiers are distinct, the list
    that the dashboard shows after a DELETE, which it computes from the
    list it had without asking again, is the list that the store would
    return: the product is gone from both after a 200, and both are
    unchanged after a 404. *)
Theorem dashboard_delete_agrees_with_store
    (w : World) (l : list ShopifyProduct) (id : string) :
  file w = Some (ProductArray l) ->
  written <$> l = l ->
  NoDup (p_id <$> l) ->
  AdminPage.handleDelete (AdminPage.ok (ProductRoute.DELETE id w).1) id
    (listProducts w).1
  = (listProducts (ProductRoute.DELETE id w).2).1.
Proof.
  intros Hf Hwritten Hnd. unfold ProductRoute.DELETE, deleteProduct.
  rewrite (readProductsFromFile_array w l Hf).
  unfold listProducts at 1. rewrite (readProductsFromFile_array w l Hf).
  destruct (list_find _ l) as [[idx p]|] eqn:Hfind; cbn [fst snd].
  - change (AdminPage.ok {| status := 200; body := success_true |})
      with true.
    unfold AdminPage.handleDelete.
    rewrite filter_items, (filter_is_delete l id idx p Hnd Hfind).
    unfold listProducts.
    rewrite (readProductsFromFile_array
               (writeProductsToFile (delete idx l) w)
               (written <$> delete idx l)) by done.
    cbn [fst]. by rewrite (list_fmap_delete written), Hwritten.
  - change (AdminPage.ok (ProductRoute.not_found id)) with false.
    unfold AdminPage.handleDelete, listProducts.
    by rewrite (readProductsFromFile_array w l Hf).
Qed.

(** *** The tags field *)

Lemma has_comma_cons (c : ascii) (t : string) :
  has_comma (String c t) <-> c = ","%char \/ has_comma t.
Proof.
  unfold has_comma. simpl. rewrite elem_of_cons.
  split; (intros [Hc | Hc]; [by left | by right]).
Qed.

Lemma split_commas_nonempty (s : string) : split_commas s <> [].
Proof.
  induction s as [|c s IH]; [done|]. simpl.
  destruct (Ascii.eqb c ","); [done|]. by destruct (split_commas s).
Qed.

Lemma split_commas_app (t s : string) :
  ~ has_comma t ->
  split_commas (t +:+ String ","%char s) = t :: split_commas s.
Proof.
  induction t as [|c t IH]; intros Hno.
  - reflexivity.
  - rewrite has_comma_cons in Hno. simpl.
    destruct (Ascii.eqb_spec c ","%char) as [-> | _]; [tauto|].
    rewrite IH by tauto. done.
Qed.

Lemma split_commas_whole (t : string) :
  ~ has_comma t -> split_commas t = [t].
Proof.
  induction t as [|c t IH]; intros Hno; [done|].
  rewrite has_comma_cons in Hno. simpl.
  destruct (Ascii.eqb_spec c ","%char) as [-> | _]; [tauto|].
  rewrite IH by tauto. done.
Qed.

Lemma trim_after_space (s : string) :
  trim <$> split_commas (String " "%char s) = trim <$> split_commas s.
Proof.
  simpl. pose proof (split_commas_nonempty s) as Hne.
  by destruct (split_commas s) as [|x xs].
Qed.

Lemma parse_join (tags : list string) :
  Forall clean tags -> tags <> [] -> parse (join tags) = tags.
Proof.
  induction 1 as [|t tags [Hne [Hcomma Htrim]] Hall IH]; [done|].
  intros _. destruct tags as [|t2 tags].
  - unfold parse. simpl join. rewrite (split_commas_whole t Hcomma).
    simpl. rewrite Htrim, filter_cons, decide_True by done. done.
  - unfold parse.
    change (join (t :: t2 :: tags))
      with (t +:+ String ","%char (String " "%char (join (t2 :: tags)))).
    rewrite (split_commas_app t _ Hcomma), fmap_cons, trim_after_space.
    rewrite Htrim, filter_cons, decide_True by done.
    f_equal. by apply IH.
Qed.

Lemma join_empty (tags : list string) :
  Forall clean tags -> join tags = EmptyString -> tags = [].
Proof.
  destruct 1 as [|t tags [Hne _] _]; [done|].
  destruct tags; simpl; [done|]. by destruct t.
Qed.

(** X24. The tags survive the edit form: when every stored tag is not
    empty, has no comma and no white space around it, the text that the
    form is loaded with parses back to the same tags, in order; for the
    empty list, as for a product without tags, the payload carries no
    tags at all, which the store reads as "keep the stored value". *)
Theorem tags_survive_the_edit_form (tags : list string) :
  Forall clean tags ->
  payload_tags (reset_tags (Some tags))
  = match tags with
    | [] => None
    | _ :: _ => Some tags
    end
  /\ payload_tags (reset_tags None) = None.
Proof.
  intros Hclean. split; [|done]. unfold payload_tags, reset_tags.
  destruct tags as [|t tags]; [done|].
  destruct (join (t :: tags)) eqn:Hj.
  - by apply (join_empty _ Hclean) in Hj.
  - rewrite <- Hj. by rewrite parse_join.
Qed.

Lemma trimStart_chars (c : ascii) (s : string) :
  c ∈ list_ascii_of_string (trimStart s) -> c ∈ list_ascii_of_string s.
Proof.
  induction s as [|a s IH]; [done|]. simpl.
  destruct (is_space a); [|done].
  intros Hc. apply list_elem_of_further. by apply IH.
Qed.

Lemma trimEnd_chars (c : ascii) (s : string) :
  c ∈ list_ascii_of_string (trimEnd s) -> c ∈ list_ascii_of_string s.
Proof.
  induction s as [|a s IH]; [done|]. simpl.
  destruct (trimEnd s) as [|b r] eqn:Hr.
  - destruct (is_space a); simpl; [by intros ?%not_elem_of_nil|].
    intros Hc. apply list_elem_of_singleton in Hc as ->.
    apply list_elem_of_here.
  - simpl. intros Hc. apply elem_of_cons in Hc as [-> | Hc].
    + apply list_elem_of_here.
    + apply list_elem_of_further. by apply IH.
Qed.

Lemma trimEnd_idem (s : string) : trimEnd (trimEnd s) = trimEnd s.
Proof.
  induction s as [|a s IH]; [done|]. simpl.
  destruct (trimEnd s) as [|b r] eqn:Hr.
  - destruct (is_space a) eqn:Ha; [done|]. simpl. by rewrite Ha.
  - simpl. simpl in IH. by rewrite IH.
Qed.

Lemma trimStart_fixed (s : string) :
  trimStart (trimEnd (trimStart s)) = trimEnd (trimStart s).
Proof.
  induction s as [|a s IH]; [done|]. simpl.
  destruct (is_space a) eqn:Ha; [done|].
  change (trimEnd (String a s))
    with (match trimEnd s with
          | EmptyString =>
              if is_space a then EmptyString else String a EmptyString
          | rest => String a rest
          end).
  rewrite Ha. destruct (trimEnd s); simpl; by rewrite Ha.
Qed.

Lemma trim_idem (s : string) : trim (trim s) = trim s.
Proof. unfold trim. by rewrite trimStart_fixed, trimEnd_idem. Qed.

Lemma split_commas_no_comma (s x : string) :
  x ∈ split_commas s -> ~ has_comma x.
Proof.
  revert x. induction s as [|c s IH]; intros x; simpl.
  - intros Hx. apply list_elem_of_singleton in Hx as ->.
    unfold has_comma. simpl. apply not_elem_of_nil.
  - destruct (Ascii.eqb_spec c ","%char) as [-> | Hc].
    + intros Hx. apply elem_of_cons in Hx as [-> | Hx]; [|by apply IH].
      unfold has_comma. simpl. apply not_elem_of_nil.
    + pose proof (split_commas_nonempty s) as Hne.
      destruct (split_commas s) as [|t ts]; [done|].
      intros Hx. apply elem_of_cons in Hx as [-> | Hx].
      * rewrite has_comma_cons. intros [Heq | Ht]; [done|].
        by apply (IH t); [apply list_elem_of_here|].
      * apply IH. by apply list_elem_of_further.
Qed.

(** X25. Whatever is typed into the tags field, every tag it yields is
    not empty, has no comma and has no white space around it. *)
Theorem parsed_tags_are_clean (raw t : string) :
  t ∈ parse raw -> clean t.
Proof.
  unfold parse. intros Ht. apply list_elem_of_filter in Ht as [Hne Ht].
  apply list_elem_of_fmap in Ht as (x & -> & Hx).
  split; [done|]. split; [|apply trim_idem].
  intros Hcomma. apply (split_commas_no_comma raw x Hx).
  unfold has_comma in *. unfold trim in Hcomma.
  by apply trimStart_chars, trimEnd_chars.
Qed.

(** *** Saving from the edit form *)

Import Zod ProductSchemas EditPage.

Ltac keys_differ := by apply (bool_decide_unpack _); vm_compute.

Ltac invert_chain Hp :=
  repeat
    (let g := fresh "g" in
     let a := fresh "a" in
     let Ha := fresh "Ha" in
     apply ap_Success in Hp as (g & a & Hp & Ha & ->));
  apply Success_inj in Hp as <-.

Lemma optional_string_determined (o : option string) (p : list seg)
    (r : option string) :
  optional (z_string []) (JStr <$> o) p = Success r -> r = o.
Proof.
  rewrite (optional_ok (z_string []) JStr) by done. by intros [= <-].
Qed.

Lemma parse_form_variant (fv : FormVariant) (p : list seg)
    (v : ShopifyVariant) :
  variantSchema (Some (variant_payload fv)) p = Success v ->
  v = saved_variant fv (fv_id fv).
Proof.
  unfold variantSchema, variant_payload.
  rewrite z_object_object, !field_object by keys_differ.
  simpl field_value. intros Hp. invert_chain Hp.
  apply optional_string_determined in Ha7, Ha6, Ha5. subst.
  unfold z_number_msg, saved_variant in *.
  destruct (fv_price fv) as [q| |]; try discriminate.
  apply checked_Success in Ha4 as [-> _].
  by injection Ha3 as <-; injection Ha2 as <-; injection Ha1 as <-;
    injection Ha0 as <-; injection Ha as <-.
Qed.

Lemma parse_form_image (img : FormImage) (p : list seg) (i : ShopifyImage) :
  imageSchema (Some (image_payload img)) p = Success i ->
  i = saved_image img.
Proof.
  unfold imageSchema, image_payload.
  rewrite z_object_object, !field_object by keys_differ.
  simpl field_value. intros Hp. invert_chain Hp.
  apply optional_string_determined in Ha3, Ha1. subst.
  apply checked_Success in Ha2 as [-> _].
  by injection Ha0 as <-; injection Ha as <-.
Qed.

Lemma parse_items_determined {A B} (s : schema A) (f : B -> json)
    (g : B -> A) (l : list B) (i : nat) (p : list seg) (r : list A) :
  (forall b q a, s (Some (f b)) q = Success a -> a = g b) ->
  parse_items s (f <$> l) i p = Success r -> r = g <$> l.
Proof.
  intros Hs. revert i r. induction l as [|b l IH]; intros i r.
  - by intros [= <-].
  - rewrite fmap_cons. simpl. intros Hp. invert_chain Hp.
    rewrite ?fmap_cons. simpl. f_equal; [by eapply Hs | by eapply IH].
Qed.

Lemma optional_Some_Success {A} (s : schema A) (x : json) (p : list seg)
    (o : option A) :
  optional s (Some x) p = Success o ->
  exists a, o = Some a /\ s (Some x) p = Success a.
Proof.
  unfold optional. destruct (s (Some x) p) as [a|e]; [|discriminate].
  intros [= <-]. by exists a.
Qed.

Lemma partial_key_Some_Success {A} (s : schema A) (x : json)
    (p : list seg) (o : option A) :
  partial_key (optional s) (Some x) p = Success o ->
  exists a, o = Some a /\ s (Some x) p = Success a.
Proof.
  unfold partial_key.
  destruct (optional (optional s) (Some x) p) as [oo|e] eqn:E;
    [|discriminate].
  intros [= <-].
  apply optional_Some_Success in E as (o' & -> & E).
  apply optional_Some_Success in E as (a & -> & E).
  by exists a.
Qed.

Lemma partial_key_None_Success {A} (s : schema (option A)) (p : list seg)
    (o : option A) :
  partial_key s None p = Success o -> o = None.
Proof. by intros [= <-]. Qed.

Lemma form_array_determined {A B} (s : schema A)
    (cs : list (check (list json))) (f : B -> json) (g : B -> A)
    (l : list B) (p : list seg) (r : list A) :
  (forall b q a, s (Some (f b)) q = Success a -> a = g b) ->
  z_array s cs (Some (JArr (f <$> l))) p = Success r -> r = g <$> l.
Proof.
  intros Hs Hp. apply z_array_Success in Hp as (raw & [= <-] & _ & Hp).
  by apply (parse_items_determined s f g l 0 p r Hs).
Qed.

Lemma parse_onSubmit_body (values : FormValues) (u : UpdateProductInput) :
  safeParse updateProductSchema (onSubmit_body values) = Success u ->
  u_title u = Some (f_title values)
  /\ u_body_html u = Some (f_description values)
  /\ u_vendor u = Some (f_vendor values)
  /\ u_options u = None
  /\ u_published_at u = None
  /\ u_images u = Some (saved_image <$> f_images values)
  /\ u_variants u
     = Some ((fun fv => saved_variant fv (fv_id fv)) <$> f_variants values).
Proof.
  unfold safeParse, updateProductSchema, onSubmit_body.
  rewrite z_object_object, !field_object by keys_differ.
  simpl field_value. intros Hp. invert_chain Hp.
  cbn [u_title u_body_html u_vendor u_options u_published_at u_images
       u_variants].
  apply optional_Some_Success in Ha7 as (t & -> & Ht).
  apply z_string_Success in Ht as [[= <-] _].
  apply partial_key_Some_Success in Ha6 as (b & -> & Hb).
  apply z_string_Success in Hb as [[= <-] _].
  apply optional_Some_Success in Ha5 as (v & -> & Hv).
  apply z_string_Success in Hv as [[= <-] _].
  apply partial_key_None_Success in Ha2 as ->.
  injection Ha as <-.
  apply partial_key_Some_Success in Ha1 as (imgs & -> & Hi).
  apply (form_array_determined imageSchema _ image_payload saved_image)
    in Hi as ->; [|apply parse_form_image].
  apply optional_Some_Success in Ha0 as (vars & -> & Hva).
  apply (form_array_determined variantSchema _ variant_payload
           (fun fv => saved_variant fv (fv_id fv)))
    in Hva as ->; [|apply parse_form_variant].
  done.
Qed.

(** X26. A save from the edit form that is answered with 200 rewrites
    the product at its place with the title, description and vendor of
    the form and keeps its options and [published_at]; but of every
    variant it keeps only the title, the SKU and the price, under the
    identifier that the position gives: the inventory quantity, the
    compare-at price, the shipping and tax flags and the option values
    of all variants are erased, and so are the width and height of the
    images. *)
Theorem edit_form_save_erases_variant_details
    (values : FormValues) (w : World) (l : list ShopifyProduct)
    (id : string) (idx : nat) (existing : ShopifyProduct) :
  file w = Some (ProductArray l) ->
  list_find (fun p => p_id p = id) l = Some (idx, existing) ->
  status (ProductRoute.PUT id (Some (onSubmit_body values)) w).1 = 200 ->
  exists updated,
    (ProductRoute.PUT id (Some (onSubmit_body values)) w).1
    = {| status := 200; body := data_product updated |}
    /\ stored (ProductRoute.PUT id (Some (onSubmit_body values)) w).2
       = written <$> <[idx := updated]> l
    /\ p_title updated = f_title values
    /\ p_body_html updated = Some (f_description values)
    /\ p_vendor updated = f_vendor values
    /\ p_options updated = p_options existing
    /\ p_published_at updated = p_published_at existing
    /\ p_images updated = Some (saved_image <$> f_images values)
    /\ length (p_variants updated) = length (f_variants values)
    /\ forall i fv, f_variants values !! i = Some fv ->
         exists vid,
           p_variants updated !! i = Some (saved_variant fv (Some vid))
           /\ forall kept,
                kept_id (p_variants existing) i = Some kept -> vid = kept.
Proof.
  intros Hf Hfind. unfold ProductRoute.PUT.
  destruct (safeParse updateProductSchema (onSubmit_body values))
    as [payload|issues] eqn:Hparse; [|done].
  destruct (parse_onSubmit_body values payload Hparse)
    as (Ht & Hb & Hv & Ho & Hp & Hi & Hva).
  unfold updateProduct.
  rewrite (readProductsFromFile_array w l Hf), Hfind, Hva.
  destruct (merge_variants_spec (p_variants existing)
              ((fun fv => saved_variant fv (fv_id fv)) <$> f_variants values)
              0 (uuids w)) as (_ & Hlen & Hget).
  destruct (merge_variants _ _ _ _) as [variants n].
  simpl in Hlen, Hget. cbn [fst snd]. intros _.
  eexists. split; [reflexivity|]. rewrite stored_write.
  cbn [p_title p_body_html p_vendor p_options p_published_at p_images
       p_variants].
  rewrite Ht, Hb, Hv, Ho, Hp, Hi. simpl.
  repeat split; try done.
  - by rewrite Hlen, length_fmap.
  - intros i fv Hfv.
    rewrite (Hget i (saved_variant fv (fv_id fv)))
      by (by rewrite list_lookup_fmap, Hfv).
    eexists. split; [reflexivity|]. intros kept ->. done.
Qed.

End PageFacts.

(** * The properties at work, and where the specification differs *)

#[local] Existing Instance Examples.runtime.
#[local] Existing Instance Examples.formats.
#[local] Existing Instance Examples.entropy.

Import Examples ProductStore.

(** ** [updateProduct]: identifiers of variants *)

(** The body with three variants passes the schema of PUT. On the seed,
    whose product has the variants var-1 and var-2, the variant that came
    with the identifier "mine" is stored as var-1 and only the third gets
    a generated one: the first is neither kept as given nor fresh. *)
Lemma updateProduct_given_id_replaced_by_position :
  Zod.safeParse ProductSchemas.updateProductSchema three_variants
  = Zod.Success three_variants_input
  /\ exists existing updated,
       seed !! 0 = Some existing
       /\ (updateProduct "prod-1" three_variants_input seeded).1
          = Some updated
       /\ v_id <$> p_variants updated
          = [Some "var-1"; Some "var-2"; Some "00000000-0000-4000-8000-0"]
       /\ ~ AsSpecified.variant_ids seeded
              (updateProduct "prod-1" three_variants_input seeded).2
              existing updated
              [variant (Some "mine") (5 # 1); variant None (7 # 1);
               variant None (9 # 1)].
Proof.
  split; [by vm_compute|].
  eexists _, _. split; [reflexivity|]. split; [by vm_compute|].
  split; [by vm_compute|].
  intros Hclaim.
  destruct (Hclaim 0 _ _ eq_refl eq_refl) as (k & [_ Hk] & Hid).
  vm_compute in Hk. assert (k = 0) as -> by lia.
  vm_compute in Hid. discriminate.
Qed.

Lemma updateProduct_variant_ids_by_position_witness :
  file seeded = Some (ProductArray seed)
  /\ (exists p, p ∈ seed /\ p_id p = "prod-1")
  /\ u_variants three_variants_input
     = Some [variant (Some "mine") (5 # 1); variant None (7 # 1);
             variant None (9 # 1)]
  /\ exists idx existing updated,
       seed !! idx = Some existing
       /\ (updateProduct "prod-1" three_variants_input seeded).1
          = Some updated
       /\ length (p_variants updated) = 3.
Proof.
  assert (Hin : exists p, p ∈ seed /\ p_id p = "prod-1").
  { eexists. split; [apply list_elem_of_here | reflexivity]. }
  split; [reflexivity|]. split; [exact Hin|]. split; [reflexivity|].
  destruct (updateProduct_variant_ids_by_position seeded seed "prod-1"
              three_variants_input _ eq_refl Hin eq_refl)
    as (idx & existing & updated & Hidx & _ & Hupd & _ & Hlen & _).
  exists idx, existing, updated. auto.
Defined.

(** ** [createProduct]: a null [published_at] *)

(** The body passes the schema of POST with [published_at] null, and the
    product is created as published at the time of the call. *)
Lemma createProduct_null_published_at_becomes_now :
  Zod.safeParse ProductSchemas.createProductSchema unpublished_mug
  = Zod.Success unpublished_mug_input
  /\ p_published_at (createProduct unpublished_mug_input seeded).1
     = notNull "2024-05-01T10:00:0Z"
  /\ ~ AsSpecified.published_at unpublished_mug_input (toISOString 0)
         (createProduct unpublished_mug_input seeded).1.
Proof.
  split; [by vm_compute|]. split; [by vm_compute|].
  unfold AsSpecified.published_at. by vm_compute.
Qed.

(** ** [getProductById]: the first access *)

(** Before the first access there is no document; after looking a
    product up there is one, with the seed. *)
Lemma getProductById_first_access_writes_seed :
  file no_document = None
  /\ file (getProductById "prod-1" no_document).2
     = Some (ProductArray (createSeedProducts "2024-05-01T10:00:0Z"))
  /\ ~ AsSpecified.getById_no_side_effects no_document "prod-1".
Proof.
  split; [reflexivity|]. split; [by vm_compute|].
  unfold AsSpecified.getById_no_side_effects. by vm_compute.
Qed.

(** Of two products under one identifier, the first is returned. *)
Lemma getProductById_result_and_document_witness :
  p_title <$> stored MoreExamples.twins = ["first"; "second"]
  /\ p_id <$> stored MoreExamples.twins = ["prod-1"; "prod-1"]
  /\ (getProductById "prod-1" MoreExamples.twins).2 = MoreExamples.twins
  /\ exists p,
       (getProductById "prod-1" MoreExamples.twins).1 = Some p
       /\ p_title p = "first"
       /\ exists idx,
            stored MoreExamples.twins !! idx = Some p
            /\ forall j q, j < idx ->
                 stored MoreExamples.twins !! j = Some q ->
                 p_id q <> "prod-1".
Proof.
  destruct (getProductById_result_and_document MoreExamples.twins "prod-1")
    as (Hsome & _ & Hfile).
  change ((getProductById "prod-1" MoreExamples.twins).2 = MoreExamples.twins)
    in Hfile.
  split; [reflexivity|]. split; [reflexivity|]. split; [exact Hfile|].
  eexists. split; [reflexivity|]. split; [reflexivity|].
  destruct (Hsome _ eq_refl) as (_ & idx & Hidx & Hmin).
  rewrite Hfile in Hidx, Hmin. exists idx. split; [exact Hidx | exact Hmin].
Defined.

(** ** The other operations of the product store, on the seed *)

Lemma listProducts_stored_order_min_price_witness :
  file seeded = Some (ProductArray seed)
  /\ (listProducts seeded).2 = seeded
  /\ item <$> (listProducts seeded).1 = seed
  /\ min_price <$> (listProducts seeded).1 = [Finite (1999 # 100)].
Proof.
  destruct (listProducts_stored_order_min_price seeded seed eq_refl)
    as (Hw & Hitems & _).
  split; [reflexivity|]. split; [exact Hw|]. split; [exact Hitems|].
  reflexivity.
Defined.

Lemma updateProduct_empty_payload_witness :
  file seeded = Some (ProductArray seed)
  /\ (exists p, p ∈ seed /\ p_id p = "prod-1")
  /\ exists idx existing updated,
       seed !! idx = Some existing
       /\ (updateProduct "prod-1" empty_update seeded).1 = Some updated
       /\ p_updated_at updated = "2024-05-01T10:00:0Z"
       /\ p_variants updated = p_variants existing
       /\ p_created_at updated = p_created_at existing.
Proof.
  assert (Hin : exists p, p ∈ seed /\ p_id p = "prod-1").
  { eexists. split; [apply list_elem_of_here | reflexivity]. }
  split; [reflexivity|]. split; [exact Hin|].
  destruct (updateProduct_empty_payload seeded seed "prod-1" eq_refl Hin)
    as (idx & existing & updated & Hidx & _ & Hupd & _ & Hat & Hsame & _).
  exists idx, existing, updated.
  split; [exact Hidx|]. split; [exact Hupd|]. split; [exact Hat|].
  split; [apply Hsame | apply Hsame].
Defined.

Lemma deleteProduct_removes_or_refuses_witness :
  file seeded = Some (ProductArray seed)
  /\ (exists p, p ∈ seed /\ p_id p = "prod-1")
  /\ NoDup (p_id <$> seed)
  /\ (forall p, p ∈ seed -> p_id p <> "prod-2")
  /\ (deleteProduct "prod-1" seeded).1 = true
  /\ (getProductById "prod-1" (deleteProduct "prod-1" seeded).2).1 = None
  /\ deleteProduct "prod-2" seeded = (false, seeded).
Proof.
  assert (Hin : exists p, p ∈ seed /\ p_id p = "prod-1").
  { eexists. split; [apply list_elem_of_here | reflexivity]. }
  assert (Hnd : NoDup (p_id <$> seed)).
  { apply NoDup_singleton. }
  assert (Hno : forall p, p ∈ seed -> p_id p <> "prod-2").
  { intros p Hp. apply list_elem_of_singleton in Hp as ->. discriminate. }
  destruct (deleteProduct_removes_or_refuses seeded seed "prod-1" eq_refl)
    as [Hyes _].
  destruct (Hyes Hin) as (l1 & p & l2 & _ & _ & _ & Htrue & _ & Hgone).
  destruct (deleteProduct_removes_or_refuses seeded seed "prod-2" eq_refl)
    as [_ Hrefuse].
  split; [reflexivity|]. split; [exact Hin|]. split; [exact Hnd|].
  split; [exact Hno|]. split; [exact Htrue|].
  split; [exact (Hgone Hnd) | exact (Hrefuse Hno)].
Defined.

(** ** The invariant of the stored collection *)

(** C4. The claim fails on the code. A body whose text gives a variant
    the price 1e400 comes out of [req.json()] with the price Infinity.
    [createProductSchema] returns it as a payload, Infinity being a
    number above 0, and [createProduct] hands the product to
    [JSON.stringify], which writes null for the price. From the seed,
    after this one creation with a payload that the schema accepted,
    the document holds a product whose only variant has the price null,
    which is not above 0. *)
Lemma validated_infinite_price_is_stored_as_null :
  Zod.safeParse ProductSchemas.createProductSchema MoreExamples.overflowing_mug
  = Zod.Success MoreExamples.overflowing_mug_input
  /\ initial seeded
  /\ Forall validated [Create MoreExamples.overflowing_mug_input]
  /\ (exists product,
        stored (run [Create MoreExamples.overflowing_mug_input] seeded) !! 1
        = Some product
        /\ v_price <$> p_variants product = [null])
  /\ ~ Forall sellable
         (stored (run [Create MoreExamples.overflowing_mug_input] seeded)).
Proof.
  assert (Hparse : Zod.safeParse ProductSchemas.createProductSchema
                     MoreExamples.overflowing_mug
                   = Zod.Success MoreExamples.overflowing_mug_input)
    by (by vm_compute).
  split; [exact Hparse|].
  split; [right; right; by exists "2024-04-30T09:00:00Z"|].
  split; [repeat constructor; by exists MoreExamples.overflowing_mug|].
  split; [eexists; split; reflexivity|].
  intros Hall.
  apply (proj1 (Forall_lookup _ _)) with (i := 1)
    (x := written (createProduct MoreExamples.overflowing_mug_input seeded).1)
    in Hall; [|reflexivity].
  destruct Hall as [_ Hprices].
  apply Forall_cons in Hprices as [Hprice _]. exact Hprice.
Qed.

Lemma finite_prices_keep_products_sellable_witness :
  let calls :=
    [ Create unpublished_mug_input;
      Update "prod-1" three_variants_input;
      List;
      Delete "prod-2" ] in
  initial no_document
  /\ Forall validated calls
  /\ Forall finite_prices calls
  /\ (fun p => v_price <$> p_variants p) <$> stored (run calls no_document)
     = [ [notNull (Finite (5 # 1)); notNull (Finite (7 # 1));
          notNull (Finite (9 # 1))];
         [notNull (Finite (5 # 1))] ]
  /\ Forall sellable (stored (run calls no_document))
  /\ Forall sellable (readProductsFromFile (run calls no_document)).1.
Proof.
  intros calls.
  assert (Hinit : initial no_document) by (by left).
  assert (Hcalls : Forall validated calls).
  { repeat constructor.
    - exists unpublished_mug. by vm_compute.
    - exists three_variants. by vm_compute. }
  assert (Hfinite : Forall finite_prices calls).
  { repeat constructor. intros vs [= <-]. by repeat constructor. }
  split; [exact Hinit|]. split; [exact Hcalls|]. split; [exact Hfinite|].
  split; [by vm_compute|].
  exact (finite_prices_keep_products_sellable no_document calls
           Hinit Hcalls Hfinite).
Defined.

(** ** The schema of POST, on some bodies *)

Lemma createProductSchema_rejects_and_accepts_witness :
  let no_variant :=
    [ ("title", JStr "Mug"); ("vendor", JStr "Dev Merch Co.");
      ("variants", JArr []) ] in
  let free_variant :=
    [ ("title", JStr "Mug"); ("vendor", JStr "Dev Merch Co.");
      ("variants", JArr [ JObj [("price", JNum (5 # 1))];
                          JObj [("price", JNum (0 # 1))] ]) ] in
  let untitled :=
    [ ("title", JStr ""); ("variants", JArr [ JObj [("price", JNum (5 # 1))] ]) ]
  in
  (prop "variants" no_variant = Some (JArr [])
   /\ exists m,
        Zod.fails_with
          (Zod.safeParse ProductSchemas.createProductSchema (JObj no_variant))
          {| Zod.path := [Zod.Key "variants"]; Zod.message := m |})
  /\ ((0 # 1 <= 0)%Q
      /\ Zod.fails_with
           (Zod.safeParse ProductSchemas.createProductSchema
              (JObj free_variant))
           {| Zod.path := [Zod.Key "variants"; Zod.Idx 1; Zod.Key "price"];
              Zod.message := "Price must be greater than 0" |})
  /\ (prop "title" untitled = Some (JStr "")
      /\ prop "vendor" untitled = None
      /\ (exists m,
            Zod.fails_with
              (Zod.safeParse ProductSchemas.createProductSchema
                 (JObj untitled))
              {| Zod.path := [Zod.Key "title"]; Zod.message := m |})
      /\ (exists m,
            Zod.fails_with
              (Zod.safeParse ProductSchemas.createProductSchema
                 (JObj untitled))
              {| Zod.path := [Zod.Key "vendor"]; Zod.message := m |}))
  /\ (ProductSchemas.stated_rules unpublished_mug_input
      /\ Zod.safeParse ProductSchemas.createProductSchema
           (ProductSchemas.payload_json unpublished_mug_input)
         = Zod.Success unpublished_mug_input).
Proof.
  intros no_variant free_variant untitled.
  destruct createProductSchema_rejects_and_accepts
    as (Hnone & Hprice & Htitle & Hvendor & Haccept).
  assert (Hrules : ProductSchemas.stated_rules unpublished_mug_input).
  { do 6 (split; [done|]). split; [|done].
    intros v Hv. apply list_elem_of_singleton in Hv as ->. done. }
  split; [split; [reflexivity | apply Hnone; by right]|].
  split; [split; [done|]|].
  { apply (Hprice free_variant
             [ JObj [("price", JNum (5 # 1))]; JObj [("price", JNum (0 # 1))] ]
             1 [("price", JNum (0 # 1))] (0 # 1));
      done. }
  split.
  { split; [reflexivity|]. split; [reflexivity|].
    split; [apply Htitle; by right | apply Hvendor; by left]. }
  split; [exact Hrules | exact (Haccept _ Hrules)].
Defined.

(** ** The user stores, with one user on record *)

Lemma createUser_rejects_known_email_else_appends_witness :
  differ_only_in_case (user_email ada) "ada@example.COM"
  /\ UserStore.createUser "Eve" "ada@example.COM" "secret" memory_store
     = (Rejected (Error "User with this email already exists"), memory_store)
  /\ differ_only_in_case (user_email MoreExamples.e_acute)
       MoreExamples.capital_e_acute_email
  /\ UserStore.createUser "Eva" MoreExamples.capital_e_acute_email "secret"
       MoreExamples.accented_store
     = (Rejected (Error "User with this email already exists"),
        MoreExamples.accented_store)
  /\ (UserStore.createUser "Bob" "bob@example.com" "secret" memory_store).1
     = Resolved {| user_id := "user_1"; user_name := "Bob";
                   user_email := "bob@example.com";
                   user_passwordHash := "$2a$10$1$secret" |}
  /\ (UserStoreFile.loaded file_store = true ->
      Forall (fun u => UserStoreFile.isLocalUser u = true)
        (UserStoreFile.users file_store))
  /\ (UserStoreFile.createUser "Eve" "ada@example.COM" "secret" file_store).1
     = Rejected (Error "User with this email already exists")
  /\ UserStoreFile.stored_users
       (UserStoreFile.createUser "Bob" "bob@example.com" "secret"
          file_store).2
     = [ UserStoreFile.LocalUser_object ada;
         UserStoreFile.LocalUser_object
           {| user_id := "user_0"; user_name := "Bob";
              user_email := "bob@example.com";
              user_passwordHash := "$2a$10$0$secret" |} ].
Proof.
  assert (Hcase : differ_only_in_case (user_email ada) "ada@example.COM").
  { simpl.
    repeat split;
      first
        [ by left
        | right; left; split; [vm_compute; lia | reflexivity]
        | right; right; split; [vm_compute; lia | reflexivity] ]. }
  assert (Haccent : differ_only_in_case (user_email MoreExamples.e_acute)
                      MoreExamples.capital_e_acute_email).
  { simpl.
    repeat split;
      first
        [ by left
        | right; left; split; [vm_compute; lia | reflexivity]
        | right; right; split; [vm_compute; lia | reflexivity] ]. }
  assert (Hwf : UserStoreFile.loaded file_store = true ->
                Forall (fun u => UserStoreFile.isLocalUser u = true)
                  (UserStoreFile.users file_store)).
  { discriminate. }
  assert (Hbob : forall e, "Ada@Example.com" = e ->
                   toLowerCase e <> toLowerCase "bob@example.com").
  { by intros e <-. }
  destruct (createUser_rejects_known_email_else_appends
              "Eve" "ada@example.COM" "secret") as [Hmem Hfile].
  destruct (createUser_rejects_known_email_else_appends
              "Bob" "bob@example.com" "secret") as [Hmem' Hfile'].
  destruct (createUser_rejects_known_email_else_appends
              "Eva" MoreExamples.capital_e_acute_email "secret")
    as [Hmem'' _].
  split; [exact Hcase|]. split.
  { apply Hmem. exists ada. split; [apply list_elem_of_here | by right]. }
  split; [exact Haccent|]. split.
  { apply Hmem''. exists MoreExamples.e_acute.
    split; [apply list_elem_of_here | by right]. }
  split.
  { apply Hmem'. intros u Hu. apply list_elem_of_singleton in Hu as ->.
    by apply Hbob. }
  split; [exact Hwf|]. split.
  { apply (Hfile file_store Hwf).
    exists (UserStoreFile.LocalUser_object ada), "Ada@Example.com".
    split; [apply list_elem_of_here|]. split; [reflexivity | by right]. }
  apply (Hfile' file_store Hwf).
  intros u e Hu. apply list_elem_of_singleton in Hu as ->.
  intros [= He]. by apply Hbob.
Defined.

Lemma ensureLoaded_filters_entries_witness :
  UserStoreFile.loaded file_store = false
  /\ UserStoreFile.loaded (UserStoreFile.ensureLoaded file_store) = true
  /\ UserStoreFile.users (UserStoreFile.ensureLoaded file_store)
     = [UserStoreFile.LocalUser_object ada].
Proof.
  destruct (ensureLoaded_filters_entries file_store) as [Hload _].
  destruct (Hload eq_refl) as (Hflag & _ & Husers).
  split; [reflexivity|]. split; [exact Hflag | exact Husers].
Defined.

(** * More of the code at work *)

#[local] Existing Instance MoreExamples.compare.
#[local] Existing Instance MoreExamples.email_format.

Import MoreExamples.

(** ** The product store *)

Lemma seed_has_prod_1 :
  exists existing,
    seed !! 0 = Some existing
    /\ list_find (fun p => p_id p = "prod-1") seed = Some (0, existing).
Proof. eexists. split; reflexivity. Qed.

Lemma seed_has_no_prod_2 (p : ShopifyProduct) :
  p ∈ seed -> p_id p <> "prod-2".
Proof. intros Hp. apply list_elem_of_singleton in Hp as ->. discriminate. Qed.

Lemma updateProduct_unknown_id_changes_nothing_witness :
  file seeded = Some (ProductArray seed)
  /\ (forall p, p ∈ stored seeded -> p_id p <> "prod-2")
  /\ updateProduct "prod-2" three_variants_input seeded = (None, seeded).
Proof.
  split; [reflexivity|]. split; [exact seed_has_no_prod_2|].
  exact (updateProduct_unknown_id_changes_nothing seeded _ "prod-2"
           three_variants_input eq_refl seed_has_no_prod_2).
Defined.

Lemma damaged_document_reads_empty_and_is_overwritten_witness :
  file blank_document = Some Blank
  /\ listProducts blank_document = ([], blank_document)
  /\ deleteProduct "prod-1" blank_document = (false, blank_document)
  /\ length (stored (createProduct unpublished_mug_input blank_document).2)
     = 1.
Proof.
  destruct (damaged_document_reads_empty_and_is_overwritten
              blank_document Blank "prod-1" empty_update
              unpublished_mug_input eq_refl (or_introl eq_refl))
    as (Hlist & _ & _ & Hdel & Hfile).
  split; [reflexivity|]. split; [exact Hlist|]. split; [exact Hdel|].
  unfold stored. by rewrite Hfile.
Defined.

Lemma updateProduct_variant_ids_are_stored_prefix_then_drawn_witness :
  file seeded = Some (ProductArray seed)
  /\ exists existing updated,
       seed !! 0 = Some existing
       /\ Forall (fun v => is_Some (v_id v)) (p_variants existing)
       /\ (updateProduct "prod-1" three_variants_input seeded).1
          = Some updated
       /\ v_id <$> p_variants updated
          = [Some "var-1"; Some "var-2"; Some "00000000-0000-4000-8000-0"]
       /\ uuids (updateProduct "prod-1" three_variants_input seeded).2 = 1.
Proof.
  split; [reflexivity|].
  destruct seed_has_prod_1 as (existing & Hex & Hfind).
  assert (Hids : Forall (fun v => is_Some (v_id v)) (p_variants existing)).
  { injection Hex as <-. repeat constructor; by eexists. }
  destruct (updateProduct_variant_ids_are_stored_prefix_then_drawn
              seeded seed "prod-1" three_variants_input _ 0 existing
              eq_refl Hfind Hids eq_refl)
    as (updated & Hupd & Hv & Hn).
  exists existing, updated. split; [exact Hex|]. split; [exact Hids|].
  split; [exact Hupd|]. rewrite Hv, Hn. by injection Hex as <-.
Defined.

Lemma updateProduct_merges_payload_over_stored_witness :
  file seeded = Some (ProductArray seed)
  /\ exists updated,
       (updateProduct "prod-1" three_variants_input seeded).1 = Some updated
       /\ stored (updateProduct "prod-1" three_variants_input seeded).2
          = [written updated]
       /\ p_title updated = "Sample T-Shirt"
       /\ p_tags updated = Some ["tshirt"; "dev"; "cotton"]
       /\ p_created_at updated = "2024-04-30T09:00:00Z"
       /\ p_updated_at updated = "2024-05-01T10:00:0Z".
Proof.
  split; [reflexivity|].
  destruct seed_has_prod_1 as (existing & Hex & Hfind).
  destruct (updateProduct_merges_payload_over_stored
              seeded seed "prod-1" three_variants_input 0 existing
              eq_refl Hfind)
    as (updated & Hupd & Hst & _ & _ & _ & Hc & Hu & Ht & _ & _ & _ & Htags
        & _).
  injection Hex as <-.
  exists updated. split; [exact Hupd|]. split; [exact Hst|].
  split; [exact Ht|]. split; [exact Htags|]. split; [exact Hc | exact Hu].
Defined.

(** A product created with a price beyond the range of the doubles is
    listed with the lowest price 0. *)
Lemma createProduct_then_listProducts_witness :
  min_price <$> (listProducts (createProduct overflowing_mug_input seeded).2).1
  = [Finite (1999 # 100); Finite 0]
  /\ exists it,
       last (listProducts (createProduct overflowing_mug_input seeded).2).1
       = Some it
       /\ v_price <$> p_variants (item it) = [null]
       /\ min_price it = Finite 0.
Proof.
  split; [reflexivity|].
  destruct (createProduct_then_listProducts overflowing_mug_input seeded)
    as (it & Hlist & Hitem & (v & Hv & Hmin) & _).
  exists it. split; [by rewrite Hlist, last_snoc|].
  split; [by rewrite Hitem|].
  apply list_elem_of_singleton in Hv as ->. exact Hmin.
Defined.

(** The generator of the examples never repeats a value. *)
Lemma decimal_inj (a b : nat) : decimal a = decimal b -> a = b.
Proof.
  unfold decimal. intros Hd. apply Unsigned.to_uint_inj.
  pose proof (NilEmpty.usu (Nat.to_uint a)) as Ha.
  rewrite Hd, NilEmpty.usu in Ha. by injection Ha.
Qed.

Lemma randomUUID_inj (a b : nat) : randomUUID a = randomUUID b -> a = b.
Proof.
  intros Hab. apply decimal_inj.
  by apply (String.app_inj "00000000-0000-4000-8000-").
Qed.

Lemma randomUUID_not_seed (k : nat) : randomUUID k <> "prod-1".
Proof. discriminate. Qed.

(** Two creations with the same payload, an update and a deletion. *)
Lemma product_ids_stay_distinct_witness :
  let calls :=
    [ Create unpublished_mug_input;
      Create unpublished_mug_input;
      Update "prod-1" three_variants_input;
      Delete "prod-1" ] in
  initial no_document
  /\ p_id <$> stored (run calls no_document)
     = ["00000000-0000-4000-8000-0"; "00000000-0000-4000-8000-2"]
  /\ NoDup (p_id <$> stored (run calls no_document)).
Proof.
  intros calls.
  assert (Hinit : initial no_document) by (by left).
  split; [exact Hinit|]. split; [by vm_compute|].
  exact (proj1 (product_ids_stay_distinct randomUUID_inj
                  randomUUID_not_seed no_document calls Hinit)).
Defined.

(** ** The schemas *)

Lemma createProductSchema_sound_witness :
  Zod.safeParse ProductSchemas.createProductSchema unpublished_mug
  = Zod.Success unpublished_mug_input
  /\ ProductSchemas.stated_rules unpublished_mug_input.
Proof.
  assert (Hparse : Zod.safeParse ProductSchemas.createProductSchema
                     unpublished_mug
                   = Zod.Success unpublished_mug_input) by (by vm_compute).
  split; [exact Hparse|].
  exact (createProductSchema_sound unpublished_mug unpublished_mug_input
           Hparse).
Defined.

Lemma creation_body_is_update_body_witness :
  Zod.safeParse ProductSchemas.createProductSchema unpublished_mug
  = Zod.Success unpublished_mug_input
  /\ exists u,
       Zod.safeParse ProductSchemas.updateProductSchema unpublished_mug
       = Zod.Success u
       /\ u_title u = Some "Mug"
       /\ u_variants u = Some [variant None (5 # 1)]
       /\ u_published_at u = Some null.
Proof.
  assert (Hparse : Zod.safeParse ProductSchemas.createProductSchema
                     unpublished_mug
                   = Zod.Success unpublished_mug_input) by (by vm_compute).
  split; [exact Hparse|].
  destruct (creation_body_is_update_body unpublished_mug
              unpublished_mug_input Hparse)
    as (u & Hu & Ht & _ & _ & _ & _ & _ & _ & Hv & Hp).
  exists u. split; [exact Hu|]. split; [exact Ht|]. split; [exact Hv|].
  destruct (u_published_at u) as [given|]; [by rewrite Hp | discriminate].
Defined.

Lemma updateProductSchema_without_keys_and_empty_variants_witness :
  Zod.safeParse ProductSchemas.updateProductSchema
    (JObj [("price", JNum (5 # 1))])
  = Zod.Success empty_update
  /\ Zod.fails_with
       (Zod.safeParse ProductSchemas.updateProductSchema
          (JObj [("title", JStr "Mug"); ("variants", JArr [])]))
       {| Zod.path := [Zod.Key "variants"];
          Zod.message := "At least one variant is required" |}.
Proof.
  split.
  - apply (proj1 (updateProductSchema_without_keys_and_empty_variants
                    [("price", JNum (5 # 1))])).
    intros k Hk. repeat (apply elem_of_cons in Hk as [-> | Hk]; [done|]).
    by apply elem_of_nil in Hk.
  - by apply (proj2 (updateProductSchema_without_keys_and_empty_variants
                       [("title", JStr "Mug"); ("variants", JArr [])])).
Defined.

Lemma createProductSchema_rejects_more_witness :
  Zod.fails_with
    (Zod.safeParse ProductSchemas.createProductSchema short_description)
    {| Zod.path := [Zod.Key "body_html"];
       Zod.message := "Description must be at least 50 characters" |}
  /\ Zod.safeParse ProductSchemas.createProductSchema (JStr "Mug")
     = Zod.Failure [Zod.invalid_type "object" (Some (JStr "Mug")) []].
Proof.
  destruct createProductSchema_rejects_more as (Hshort & _ & _ & Hother).
  split.
  - apply (Hshort _ "A mug."); [reflexivity | vm_compute; lia].
  - by apply Hother.
Defined.

(** ** The routes *)

Lemma short_description_fails :
  Zod.fails_with
    (Zod.safeParse ProductSchemas.createProductSchema short_description)
    {| Zod.path := [Zod.Key "body_html"];
       Zod.message := "Description must be at least 50 characters" |}.
Proof. eexists. split; [by vm_compute | apply list_elem_of_here]. Qed.

Lemma invalid_body_400_with_field_errors_witness :
  status (ProductsRoute.POST (Some short_description) seeded).1 = 400
  /\ (ProductsRoute.POST (Some short_description) seeded).2 = seeded
  /\ exists flattened,
       body (ProductsRoute.POST (Some short_description) seeded).1
       = validation_failed "Validation failed" flattened
       /\ "Description must be at least 50 characters"
          ∈ default [] (ZodError.fieldErrors flattened !! "body_html").
Proof.
  destruct (invalid_body_400_with_field_errors short_description seeded
              "prod-1"
              {| Zod.path := [Zod.Key "body_html"];
                 Zod.message := "Description must be at least 50 characters" |}
              (Zod.Key "body_html") [] eq_refl) as [Hpost _].
  destruct (Hpost short_description_fails) as (flattened & -> & Hin).
  split; [reflexivity|]. split; [reflexivity|].
  exists flattened. split; [reflexivity | exact Hin].
Defined.

Lemma error_responses_change_nothing_witness :
  status (handle (DELETE_product "prod-2") seeded).1 = 404
  /\ (handle (DELETE_product "prod-2") seeded).2 = seeded
  /\ status (handle (POST_products None) no_document).1 = 500
  /\ (handle (POST_products None) no_document).2 = no_document.
Proof.
  destruct (error_responses_change_nothing (DELETE_product "prod-2") seeded)
    as [_ H404].
  destruct (error_responses_change_nothing (POST_products None) no_document)
    as [H500 _].
  split; [reflexivity|]. split; [by apply H404|].
  split; [reflexivity|]. apply H500. by right.
Defined.

(** A creation that is refused, one that is accepted, one with a price
    beyond the range of the doubles, an update that replaces the
    variants, a body that is not JSON and a deletion. *)
Lemma routes_keep_variants_priced_or_null_witness :
  let requests :=
    [ POST_products (Some short_description);
      POST_products (Some unpublished_mug);
      POST_products (Some overflowing_mug);
      PUT_product "prod-1" (Some three_variants);
      PUT_product "prod-1" None;
      GET_products;
      DELETE_product "prod-2" ] in
  initial no_document
  /\ (fun p => v_price <$> p_variants p)
       <$> stored (serve requests no_document)
     = [ [notNull (Finite (5 # 1)); notNull (Finite (7 # 1));
          notNull (Finite (9 # 1))];
         [notNull (Finite (5 # 1))];
         [null] ]
  /\ Forall has_variants_priced_or_null (stored (serve requests no_document)).
Proof.
  intros requests.
  assert (Hinit : initial no_document) by (by left).
  split; [exact Hinit|]. split; [by vm_compute|].
  exact (routes_keep_variants_priced_or_null requests no_document Hinit).
Defined.

Lemma PUT_keeps_ids_and_created_at_witness :
  file seeded = Some (ProductArray seed)
  /\ status (ProductRoute.PUT "prod-1" (Some three_variants) seeded).1 = 200
  /\ p_id <$> stored (ProductRoute.PUT "prod-1" (Some three_variants) seeded).2
     = ["prod-1"]
  /\ p_created_at
       <$> stored (ProductRoute.PUT "prod-1" (Some three_variants) seeded).2
     = ["2024-04-30T09:00:00Z"].
Proof.
  destruct (PUT_keeps_ids_and_created_at "prod-1" (Some three_variants)
              seeded _ eq_refl) as [Hid Hat].
  split; [reflexivity|]. split; [by vm_compute|].
  split; [exact Hid | exact Hat].
Defined.

(** ** The user stores and the signup route *)

Lemma ends_with_refl (password : string) :
  ends_with password password = true.
Proof. destruct password; cbn [ends_with]; by rewrite String.eqb_refl. Qed.

Lemma ends_with_append (prefix password s : string) :
  ends_with password s = true -> ends_with password (prefix +:+ s) = true.
Proof.
  intros Hs. induction prefix as [|c prefix IH]; [done|].
  change (String c prefix +:+ s) with (String c (prefix +:+ s)).
  cbn [ends_with]. rewrite IH. apply orb_true_r.
Qed.

Lemma bcrypt_compare_hash (pw : string) (rounds n : nat) :
  bcrypt_compare pw (bcrypt_hash pw rounds n) = true.
Proof.
  unfold bcrypt_compare, bcrypt_hash, compare, entropy.
  do 5 apply ends_with_append. apply ends_with_refl.
Qed.

Lemma memory_store_distinct :
  NoDup (UserStoreAuth.lower_emails memory_store).
Proof. apply NoDup_singleton. Qed.

Lemma file_store_not_loaded :
  UserStoreFile.loaded file_store = true ->
  Forall (fun u => UserStoreFile.isLocalUser u = true)
    (UserStoreFile.users file_store).
Proof. discriminate. Qed.

Lemma read_only_store_not_loaded :
  UserStoreFile.loaded read_only_store = true ->
  Forall (fun u => UserStoreFile.isLocalUser u = true)
    (UserStoreFile.users read_only_store).
Proof. discriminate. Qed.

(** Three signups, the second with the email of the first in another
    case. *)
Lemma createUsers_keep_users_and_distinct_emails_witness :
  let calls :=
    [ ("Bob", "bob@example.com", "secret");
      ("Rob", "BOB@example.com", "hunter2");
      ("Eve", "eve@example.com", "secret") ] in
  NoDup (UserStoreAuth.lower_emails memory_store)
  /\ UserStoreAuth.lower_emails (UserStoreAuth.createUsers calls memory_store)
     = ["ada@example.com"; "bob@example.com"; "eve@example.com"]
  /\ UserStore.users memory_store
     `prefix_of` UserStore.users (UserStoreAuth.createUsers calls memory_store)
  /\ NoDup
       (UserStoreAuth.lower_emails
          (UserStoreAuth.createUsers calls memory_store)).
Proof.
  intros calls.
  split; [exact memory_store_distinct|]. split; [by vm_compute|].
  exact (createUsers_keep_users_and_distinct_emails calls memory_store
           memory_store_distinct).
Defined.

(** The second signup has an email that starts with the small e with
    acute accent, and is found under the capital one. *)
Lemma createUser_then_findUserByEmail_witness :
  (exists user,
     (UserStore.createUser "Bob" "bob@example.com" "secret" memory_store).1
     = Resolved user
     /\ UserStore.findUserByEmail "BOB@Example.com"
          (UserStore.createUser "Bob" "bob@example.com" "secret"
             memory_store).2
        = Some user
     /\ UserStore.findUserByEmail "ada@example.com"
          (UserStore.createUser "Bob" "bob@example.com" "secret"
             memory_store).2
        = Some ada)
  /\ exists user,
       (UserStore.createUser "Eve" (user_email e_acute) "secret"
          memory_store).1
       = Resolved user
       /\ UserStore.findUserByEmail capital_e_acute_email
            (UserStore.createUser "Eve" (user_email e_acute) "secret"
               memory_store).2
          = Some user.
Proof.
  split.
  - eexists. split; [reflexivity|]. split.
    + by rewrite (createUser_then_findUserByEmail "Bob" "bob@example.com"
                    "secret" "BOB@Example.com" memory_store _ eq_refl).
    + by rewrite (createUser_then_findUserByEmail "Bob" "bob@example.com"
                    "secret" "ada@example.com" memory_store _ eq_refl).
  - eexists. split; [reflexivity|].
    by rewrite (createUser_then_findUserByEmail "Eve" (user_email e_acute)
                  "secret" capital_e_acute_email memory_store _ eq_refl).
Defined.

Lemma verifyUserCredentials_sound_and_accepts_signup_witness :
  UserStoreAuth.verifyUserCredentials "nobody@example.com" "secret"
    memory_store = None
  /\ (exists user,
        (UserStore.createUser "Bob" "bob@example.com" "secret"
           memory_store).1
        = Resolved user
        /\ UserStoreAuth.verifyUserCredentials "Bob@Example.com" "secret"
             (UserStore.createUser "Bob" "bob@example.com" "secret"
                memory_store).2
           = Some user)
  /\ exists user,
       (UserStore.createUser "Eve" (user_email e_acute) "secret"
          memory_store).1
       = Resolved user
       /\ UserStoreAuth.verifyUserCredentials capital_e_acute_email
            "secret"
            (UserStore.createUser "Eve" (user_email e_acute) "secret"
               memory_store).2
          = Some user.
Proof.
  destruct (verifyUserCredentials_sound_and_accepts_signup
              "Bob" "bob@example.com" "secret" "nobody@example.com" "secret"
              memory_store) as (_ & Hnone & _).
  destruct (verifyUserCredentials_sound_and_accepts_signup
              "Bob" "bob@example.com" "secret" "Bob@Example.com" "secret"
              memory_store) as (_ & _ & Hlogin).
  destruct (verifyUserCredentials_sound_and_accepts_signup
              "Eve" (user_email e_acute) "secret" capital_e_acute_email
              "secret" memory_store) as (_ & _ & Haccent).
  split; [|split].
  - apply Hnone. intros u Hu. apply list_elem_of_singleton in Hu as ->.
    discriminate.
  - eexists. split; [reflexivity|].
    by apply (Hlogin bcrypt_compare_hash).
  - eexists. split; [reflexivity|].
    by apply (Haccent bcrypt_compare_hash).
Defined.

Lemma createUser_saved_users_load_back_witness :
  UserStoreFile.writable file_store = true
  /\ exists user,
       (UserStoreFile.createUser "Bob" "bob@example.com" "secret"
          file_store).1 = Resolved user
       /\ UserStoreFile.loadUsersFromDisk
            (UserStoreFile.disk
               (UserStoreFile.createUser "Bob" "bob@example.com" "secret"
                  file_store).2)
          = [ UserStoreFile.LocalUser_object ada;
              UserStoreFile.LocalUser_object user ].
Proof.
  split; [reflexivity|]. eexists. split; [reflexivity|].
  destruct (createUser_saved_users_load_back "Bob" "bob@example.com"
              "secret" file_store _ file_store_not_loaded eq_refl eq_refl)
    as (Hload & Husers & _).
  by rewrite Hload, Husers.
Defined.

Lemma createUser_failed_write_is_silent_witness :
  UserStoreFile.writable read_only_store = false
  /\ exists user,
       (UserStoreFile.createUser "Bob" "bob@example.com" "secret"
          read_only_store).1 = Resolved user
       /\ UserStoreFile.disk
            (UserStoreFile.createUser "Bob" "bob@example.com" "secret"
               read_only_store).2
          = UserStoreFile.Parsed users_json.
Proof.
  split; [reflexivity|].
  destruct (createUser_failed_write_is_silent "Bob" "bob@example.com"
              "secret" read_only_store read_only_store_not_loaded eq_refl)
    as (user & Hres & _ & Hdisk).
  { intros u e Hu. apply list_elem_of_singleton in Hu as ->.
    by intros [= <-]. }
  exists user. split; [exact Hres | exact Hdisk].
Defined.

Lemma file_verifyUserCredentials_accepts_signup_witness :
  exists user,
    (UserStoreFile.createUser "Bob" "bob@example.com" "secret" file_store).1
    = Resolved user
    /\ (UserStoreFileAuth.verifyUserCredentials "BOB@example.com" "secret"
          (UserStoreFile.createUser "Bob" "bob@example.com" "secret"
             file_store).2).1
       = Resolved (Some (UserStoreFile.LocalUser_object user)).
Proof.
  eexists. split; [reflexivity|].
  by rewrite (file_verifyUserCredentials_accepts_signup "Bob"
                "bob@example.com" "secret" "BOB@example.com" file_store _
                file_store_not_loaded bcrypt_compare_hash eq_refl eq_refl).
Defined.

Lemma signup_POST_statuses_witness :
  signup_status
    (SignupRoute.POST UserStore.createUser (Some signup_short_password)
       memory_store).1 = 400
  /\ (SignupRoute.POST UserStore.createUser (Some signup_bob) memory_store).1
     = {| signup_status := 201;
          signup_body := signup_data "user_1" "Bob" "bob@example.com" |}
  /\ (SignupRoute.POST UserStoreFile.createUser (Some signup_bob)
        file_store).1
     = {| signup_status := 201;
          signup_body := signup_data "user_0" "Bob" "bob@example.com" |}.
Proof.
  destruct (signup_POST_statuses signup_short_password) as [Hshort _].
  destruct (signup_POST_statuses signup_bob) as [_ Hbob].
  destruct (Hbob {| s_name := "Bob"; s_email := "bob@example.com";
                    s_password := "secret" |} eq_refl) as [Hmem Hfile].
  split.
  - apply (Hshort _ UserStore.createUser memory_store _ "abc" eq_refl
             eq_refl).
    vm_compute. lia.
  - split.
    + apply (Hmem memory_store). intros u Hu.
      apply list_elem_of_singleton in Hu as ->. discriminate.
    + apply (Hfile file_store file_store_not_loaded).
      intros u e Hu. apply list_elem_of_singleton in Hu as ->.
      by intros [= <-].
Defined.

(** ** The pages *)

Lemma dashboard_delete_agrees_with_store_witness :
  file seeded = Some (ProductArray seed)
  /\ written <$> seed = seed
  /\ NoDup (p_id <$> seed)
  /\ AdminPage.handleDelete
       (AdminPage.ok (ProductRoute.DELETE "prod-1" seeded).1) "prod-1"
       (listProducts seeded).1 = []
  /\ (listProducts (ProductRoute.DELETE "prod-1" seeded).2).1 = []
  /\ AdminPage.handleDelete
       (AdminPage.ok (ProductRoute.DELETE "prod-2" seeded).1) "prod-2"
       (listProducts seeded).1
     = (listProducts seeded).1.
Proof.
  assert (Hnd : NoDup (p_id <$> seed)) by apply NoDup_singleton.
  pose proof (dashboard_delete_agrees_with_store seeded seed "prod-1"
                eq_refl eq_refl Hnd) as Hone.
  pose proof (dashboard_delete_agrees_with_store seeded seed "prod-2"
                eq_refl eq_refl Hnd) as Htwo.
  split; [reflexivity|]. split; [reflexivity|]. split; [exact Hnd|].
  split; [by rewrite Hone|]. split; [by vm_compute|].
  by rewrite Htwo.
Defined.

Lemma tags_of_the_seed_are_clean :
  Forall TagsField.clean ["tshirt"; "dev"; "cotton"].
Proof.
  repeat constructor; try done;
    intros Hc; unfold TagsField.has_comma in Hc; simpl in Hc;
    repeat (apply elem_of_cons in Hc as [Hc | Hc]; [discriminate|]);
    by apply elem_of_nil in Hc.
Qed.

Lemma tags_survive_the_edit_form_witness :
  Forall TagsField.clean ["tshirt"; "dev"; "cotton"]
  /\ TagsField.reset_tags (Some ["tshirt"; "dev"; "cotton"])
     = "tshirt, dev, cotton"
  /\ TagsField.payload_tags "tshirt, dev, cotton"
     = Some ["tshirt"; "dev"; "cotton"].
Proof.
  split; [exact tags_of_the_seed_are_clean|]. split; [reflexivity|].
  exact (proj1 (tags_survive_the_edit_form ["tshirt"; "dev"; "cotton"]
                  tags_of_the_seed_are_clean)).
Defined.

Lemma parsed_tags_are_clean_witness :
  TagsField.parse " new arrival ,, sale,  " = ["new arrival"; "sale"]
  /\ TagsField.clean "new arrival".
Proof.
  assert (Hparse : TagsField.parse " new arrival ,, sale,  "
                   = ["new arrival"; "sale"]) by (by vm_compute).
  split; [exact Hparse|].
  apply (parsed_tags_are_clean " new arrival ,, sale,  " "new arrival").
  rewrite Hparse. apply list_elem_of_here.
Defined.

(** The seed product is loaded into the form, its second variant is
    removed and the first renamed, and the form is saved: the variant
    that remains has lost its stock and its option values. *)
Lemma edit_form_save_erases_variant_details_witness :
  file seeded = Some (ProductArray seed)
  /\ exists existing updated,
       seed !! 0 = Some existing
       /\ v_inventory_quantity <$> p_variants existing
          = [Some (notNull (Finite (10 # 1)));
             Some (notNull (Finite (5 # 1)))]
       /\ (ProductRoute.PUT "prod-1"
             (Some (EditPage.onSubmit_body edited_tee)) seeded).1
          = {| status := 200; body := data_product updated |}
       /\ stored (ProductRoute.PUT "prod-1"
                    (Some (EditPage.onSubmit_body edited_tee)) seeded).2
          = [written updated]
       /\ p_options updated = p_options existing
       /\ p_variants updated
          = [ {| v_id := Some "var-1"; v_sku := Some "TSHIRT-BLK-M";
                 v_title := Some "Black / Medium";
                 v_price := notNull (Finite (1999 # 100));
                 v_compare_at_price := None; v_inventory_quantity := None;
                 v_requires_shipping := None; v_taxable := None;
                 v_option_values := None |} ].
Proof.
  split; [reflexivity|].
  destruct seed_has_prod_1 as (existing & Hex & Hfind).
  assert (Hok : status (ProductRoute.PUT "prod-1"
                          (Some (EditPage.onSubmit_body edited_tee))
                          seeded).1 = 200) by (by vm_compute).
  destruct (edit_form_save_erases_variant_details edited_tee seeded seed
              "prod-1" 0 existing eq_refl Hfind Hok)
    as (updated & Hres & Hst & _ & _ & _ & Ho & _ & _ & Hlen & Hvar).
  exists existing, updated. split; [exact Hex|].
  split; [by injection Hex as <-|]. split; [exact Hres|].
  split; [exact Hst|]. split; [exact Ho|].
  destruct (Hvar 0 _ eq_refl) as (vid & Hv & Hkept).
  injection Hex as <-. rewrite (Hkept "var-1" eq_refl) in Hv.
  destruct (p_variants updated) as [|v [|v' vs]]; [done| |done].
  by injection Hv as ->.
Defined.
